(** * BayesFlow: the [Trainer] of [bayesflow/trainers.py] and the affine
      coupling layer exercised by [tests/test_coupling_networks.py]

    The first part embeds [bayesflow.trainers.Trainer].  The trainer is
    orchestration code: everything it does is a call to one of its
    collaborators (generative model, configurator, amortizer, optimizer,
    checkpoint manager, [SimulatedDataset]).  A collaborator is embedded as
    a function on a state made of an abstract [World] and of the
    dictionaries that exist; a trainer method is a computation that threads
    the state, may raise, and emits the list of collaborator calls it made,
    so that statements such as "the generative model is never invoked" are
    statements about the emitted calls.

    Dictionaries are objects: [train_rounds] updates in place the
    dictionary the generative model returned in the first round, so a
    dictionary is handed around as a reference into the state and not as a
    value.

    Progress bars ([tqdm]) and [logging] calls are not part of the model,
    except for the total of the progress bar of [train_offline], whose
    computation divides by the batch size.

    The second part is a model of [AffineCouplingLayer]; the layer's module
    is not among the sources, only its test is, so the layer is modelled
    from the specification over the real numbers. *)

From Stdlib Require Import String Ascii ZArith QArith Bool Arith Lia.
From Stdlib Require Import Reals Lra.
From Stdlib Require Import List Permutation.
Import ListNotations.

#[local] Set Warnings "-register-all,-notation-for-abbreviation".

Local Open Scope string_scope.
Local Open Scope list_scope.
Local Open Scope nat_scope.

(* ===================================================================== *)
(** * Part I: definitions                                                  *)
(* ===================================================================== *)

Module PyData.

(** Keyword arguments: [**kwargs] is a mapping from names to values; the
    values the trainer looks at are themselves mappings. *)
Inductive pyval : Type :=
| PyLit (repr : string)
| PyMap (entries : list (string * pyval)).

Definition keywords : Type := list (string * pyval).

(** The [**kwargs] of the training methods.  Their docstrings allow the
    keys [model_args], [conf_args] and [net_args], each holding the
    keyword arguments of one collaborator. *)
Record train_kwargs : Type := mk_kwargs {
  model_args : option keywords;
  conf_args : option keywords;
  net_args : option keywords
}.

(** [kwargs.pop(key, {})] *)
Definition pop_default (o : option keywords) : keywords :=
  match o with
  | Some kw => kw
  | None => []
  end.

Definition entry (key : string) (o : option keywords) : keywords :=
  match o with
  | Some kw => [(key, PyMap kw)]
  | None => []
  end.

(** [**kwargs] passed on as a whole (as [train_rounds] does). *)
Definition as_keywords (kwargs : train_kwargs) : keywords :=
  entry "model_args" (model_args kwargs) ++
  entry "conf_args" (conf_args kwargs) ++
  entry "net_args" (net_args kwargs).

Section Dict.
(** [obj] stands for the Python objects the trainer only hands around:
    one simulated data set of an array, a tensor, a configured input. *)
Context {obj : Type}.

(** A numpy array seen along axis 0: its entries and their shape. *)
Record ndarray : Type := mk_ndarray {
  item_shape : list nat;
  items : list obj
}.

(** A value of a simulations dict. *)
Inductive value : Type :=
| PyNone
| Array (a : ndarray)
| Scalar (o : obj).

(** A Python dict with string keys, in insertion order. *)
Definition dict : Type := list (string * value).

Fixpoint lookup (d : dict) (k : string) : option value :=
  match d with
  | [] => None
  | (k', v) :: rest => if String.eqb k' k then Some v else lookup rest k
  end.

Definition keys (d : dict) : list string := map fst d.

(** [d[k] = v]: the entry of [k] is replaced where it stands, a new key
    goes last. *)
Fixpoint set_value (k : string) (v : value) (d : dict) : dict :=
  match d with
  | [] => [(k, v)]
  | (k', v') :: rest =>
      if String.eqb k' k then (k', v) :: rest
      else (k', v') :: set_value k v rest
  end.

(** The samples an entry of a dict holds: the axis-0 entries of an
    array, nothing otherwise. *)
Definition samples_at (k : string) (d : dict) : list obj :=
  match lookup d k with
  | Some (Array a) => items a
  | _ => []
  end.

(** Number of entries along axis 0, [a.shape[0]]. *)
Definition n_samples (a : ndarray) : nat := length (items a).
End Dict.

Arguments ndarray : clear implicits.
Arguments value : clear implicits.
Arguments dict : clear implicits.

End PyData.

Export PyData.

Module Exceptions.

(** An exception raised inside a collaborator: its class, [str()], and
    whether the class derives from [Exception] ([KeyboardInterrupt],
    [SystemExit] and [GeneratorExit] derive from [BaseException] only). *)
Record py_exception : Type := mk_exception {
  exc_class : string;
  exc_text : string;
  derives_from_Exception : bool
}.

Inductive collaborator : Type :=
| TheGenerativeModel
| TheConfigurator
| TheAmortizer
| TheOptimizer
| TheCheckpoint
| TheDataset.

(** What a trainer method can raise.  The first three are raised by the
    trainer's own [raise] statements; [KeyError], [ValueError],
    [AttributeError] and [TypeError] by the dictionary operations and
    [np.concatenate] of [train_rounds]; [ArithmeticError] (the class above
    [ZeroDivisionError] and [OverflowError]) by the division of
    [train_offline]; an exception that escapes a collaborator keeps where
    it came from. *)
Inductive exn : Type :=
| SimulationError (msg : string)
| NotImplementedError (msg : string)
| ConfigurationError (msg : string)
| KeyError (key : string)
| ValueError (msg : string)
| AttributeError (msg : string)
| TypeError (msg : string)
| ArithmeticError (msg : string)
| CollaboratorError (who : collaborator) (e : py_exception).

(** [str(err)] *)
Definition str (err : exn) : string :=
  match err with
  | SimulationError msg => msg
  | NotImplementedError msg => msg
  | ConfigurationError msg => msg
  | KeyError key => "'" ++ key ++ "'"
  | ValueError msg => msg
  | AttributeError msg => msg
  | TypeError msg => msg
  | ArithmeticError msg => msg
  | CollaboratorError _ e => exc_text e
  end.

Definition is_SimulationError (err : exn) : bool :=
  match err with
  | SimulationError _ => true
  | _ => false
  end.

Definition is_NotImplementedError (err : exn) : bool :=
  match err with
  | NotImplementedError _ => true
  | _ => false
  end.

(** [isinstance(err, Exception)]: the exceptions the trainer raises itself
    and those of the dictionary operations, of [np.concatenate] and of the
    division all derive from [Exception]; what escaped from a collaborator
    is of the class it was raised with. *)
Definition is_Exception (err : exn) : bool :=
  match err with
  | CollaboratorError _ e => derives_from_Exception e
  | _ => true
  end.

End Exceptions.

Export Exceptions.

Module TrainerModel.

Section Model.
Context {World obj : Type}.

(** ** The state *)

(** A reference to a dictionary: its position among the dictionaries
    created so far. *)
Definition ref : Type := nat.

(** What a computation runs in: the world of the collaborators and the
    dictionaries that exist, oldest first. *)
Record state : Type := mk_state {
  world : World;
  heap : list (dict obj)
}.

(** The dictionary a reference stands for ([None] when it stands for
    something that is no dictionary). *)
Definition contents (s : state) (d : ref) : option (dict obj) :=
  nth_error (heap s) d.

Fixpoint replace_nth {A} (n : nat) (x : A) (l : list A) : list A :=
  match l, n with
  | [], _ => []
  | _ :: l', O => x :: l'
  | y :: l', S n' => y :: replace_nth n' x l'
  end.

(** ** Collaborators *)

(** A call into code outside the trainer: it sees and changes the state
    and either returns or raises. *)
Definition ext (A : Type) : Type := state -> (py_exception + A) * state.

(** [generative_model(n_sim, **kwargs) -> dict] *)
Definition GenerativeModel : Type := nat -> keywords -> ext ref.

(** [configurator(forward_dict, **kwargs) -> input_dict] *)
Definition ConfiguratorFun : Type := ref -> keywords -> ext obj.

Inductive amortizer_class : Type :=
| AmortizedPosterior
| AmortizedLikelihood
| JointAmortizer
| OtherAmortizer (type_repr : string).

(** An amortizer: its type and [compute_loss(input_dict, **kwargs)]. *)
Record Amortizer : Type := mk_amortizer {
  amortizer_type : amortizer_class;
  compute_loss : obj -> keywords -> ext obj
}.

(** The classes of [bayesflow.configuration] that [_manage_configurator]
    instantiates. *)
Inductive config_class : Type :=
| DefaultPosteriorConfigurator
| DefaultLikelihoodConfigurator
| DefaultJointConfigurator.

Inductive component : Type :=
| DefaultPosteriorCombiner
| DefaultPosteriorTransformer
| DefaultLikelihoodCombiner
| DefaultLikelihoodTransformer
| DefaultJointCombiner
| DefaultJointTransformer
| VariableObservationsTransformer
| OneHotTransformer
| TransformerUnion (transformers : list component).

(** The value of [self.configurator]: the callable the user passed, or
    [default_config(transform_fun=..., combine_fun=...)]. *)
Inductive Configurator : Type :=
| UserConfigurator (f : ConfiguratorFun)
| DefaultConfigurator (cls : config_class) (transform_fun combine_fun : component).

(** The [configurator] argument of [Trainer.__init__]. *)
Inductive config_arg : Type :=
| ConfigCallable (f : ConfiguratorFun)
| ConfigNone
| ConfigStr (s : string)
| ConfigOther (type_repr : string).

(** What the trainer uses of TensorFlow and of the helper modules of
    the package:
    - [Adam(learning_rate)];
    - lines 110-116 of [__init__]: [tf.train.Checkpoint],
      [tf.train.CheckpointManager] and [checkpoint.restore], returning
      the checkpoint and its manager;
    - [manager.save()];
    - [SimulatedDataset(simulations_dict, batch_size)], its attribute
      [n_sim], and one pass of [for forward_dict in data_set], as the
      batches it yields, which are dictionaries;
    - lines 361-363 of [_backprop_step]: [tape.gradient] and
      [apply_gradients]; [loss.numpy()];
    - calling an instance of a default configurator class. *)
Record Env : Type := mk_env {
  Adam : Q -> ext obj;
  checkpoint_setup : obj -> Amortizer -> string -> nat -> ext (obj * obj);
  manager_save : obj -> ext unit;
  SimulatedDataset : ref -> nat -> ext obj;
  n_sim_of : obj -> nat;
  dataset_iter : obj -> ext (list ref);
  apply_gradients : obj -> Amortizer -> obj -> option Q -> string -> ext unit;
  numpy : obj -> obj;
  default_configurator_call :
    config_class -> component -> component -> ConfiguratorFun
}.

(** ** Calls and computations *)

(** One call to a collaborator, with what it was given.  A call to the
    generative model also records what came back and what the returned
    dictionary held then; a call to [SimulatedDataset] records what the
    dictionary it was given held then. *)
Inductive event : Type :=
| EvSimulate (n_sim : nat) (kwargs : keywords) (out : py_exception + ref)
             (returned : option (dict obj))
| EvConfigure (forward_dict : ref) (kwargs : keywords)
| EvComputeLoss (input_dict : obj) (kwargs : keywords)
| EvApplyGradients (loss : obj)
| EvDataset (simulations_dict : ref) (held : option (dict obj))
            (batch_size : nat)
| EvIterate
| EvSave
| EvOptimizer
| EvCheckpoint (path : string).

(** A trainer computation: from a state to a result or an exception, the
    state afterwards, and the calls made, oldest first. *)
Definition M (A : Type) : Type := state -> (exn + A) * state * list event.

Definition ret {A} (a : A) : M A := fun s => (inr a, s, []).

Definition raise {A} (e : exn) : M A := fun s => (inl e, s, []).

Definition bind {A B} (m : M A) (f : A -> M B) : M B :=
  fun w =>
    match m w with
    | (inl e, w1, t1) => (inl e, w1, t1)
    | (inr a, w1, t1) =>
        match f a w1 with
        | (r, w2, t2) => (r, w2, t1 ++ t2)
        end
    end.

(** [try: m  except Exception as err: handler err]: an exception that
    does not derive from [Exception] is not caught. *)
Definition try_except {A} (m : M A) (handler : exn -> M A) : M A :=
  fun w =>
    match m w with
    | (inl e, w1, t1) =>
        if is_Exception e
        then match handler e w1 with
             | (r, w2, t2) => (r, w2, t1 ++ t2)
             end
        else (inl e, w1, t1)
    | (inr a, w1, t1) => (inr a, w1, t1)
    end.

(** A pure step that may raise. *)
Definition lift {A} (r : exn + A) : M A := fun s => (r, s, []).

(** A call to a collaborator; the call recorded may tell of the states
    before and after. *)
Definition call {A} (who : collaborator) (f : ext A)
           (ev : state -> py_exception + A -> state -> event) : M A :=
  fun s =>
    match f s with
    | (inl e, s1) => (inl (CollaboratorError who e), s1, [ev s (inl e) s1])
    | (inr a, s1) => (inr a, s1, [ev s (inr a) s1])
    end.

(** ** Dictionary operations of the trainer *)

(** [d.keys()] *)
Definition dict_keys (d : ref) : M (list string) :=
  fun s =>
    match contents s d with
    | Some entries => (inr (keys entries), s, [])
    | None => (inl (AttributeError "object has no attribute 'keys'"), s, [])
    end.

(** [d[k]] *)
Definition getitem (d : ref) (k : string) : M (value obj) :=
  fun s =>
    match contents s d with
    | Some entries =>
        match lookup entries k with
        | Some v => (inr v, s, [])
        | None => (inl (KeyError k), s, [])
        end
    | None => (inl (TypeError "object is not subscriptable"), s, [])
    end.

(** [d[k] = v] *)
Definition setitem (d : ref) (k : string) (v : value obj) : M unit :=
  fun s =>
    match contents s d with
    | Some entries =>
        (inr tt,
         {| world := world s;
            heap := replace_nth d (set_value k v entries) (heap s) |},
         [])
    | None =>
        (inl (TypeError "object does not support item assignment"), s, [])
    end.

(** [for x in xs: body x], collecting what each iteration produces. *)
Fixpoint for_each {A B} (xs : list A) (body : A -> M B) : M (list B) :=
  match xs with
  | [] => ret []
  | x :: rest =>
      bind (body x) (fun b =>
      bind (for_each rest body) (fun bs =>
      ret (b :: bs)))
  end.

(** [range(1, n + 1)] *)
Definition range1 (n : nat) : list nat := seq 1 n.

End Model.

Arguments state : clear implicits.
Arguments ext : clear implicits.
Arguments GenerativeModel : clear implicits.
Arguments ConfiguratorFun : clear implicits.
Arguments Amortizer : clear implicits.
Arguments Configurator : clear implicits.
Arguments config_arg : clear implicits.
Arguments Env : clear implicits.
Arguments event : clear implicits.
Arguments M : clear implicits.

Declare Scope trainer_scope.
Delimit Scope trainer_scope with trainer.
Notation "x <- m ;; k" := (bind m (fun x => k))
  (at level 100, m at next level, right associativity) : trainer_scope.
Notation "m ;;; k" := (bind m (fun _ => k))
  (at level 100, right associativity) : trainer_scope.

End TrainerModel.

Export TrainerModel.

Module Trainer.

Local Open Scope trainer_scope.

(** [default_settings.STRING_CONFIGS], as it prints in the error message.
    Modelled from the spec: [bayesflow/default_settings.py] is not among
    the sources; the supported configurator names are the four strings
    that [_manage_configurator] compares against. *)
Definition STRING_CONFIGS : list string :=
  ["variable_num_obs"; "one_hot"; "variable_num_obs_one_hot";
   "one_hot_variable_num_obs"].

Definition repr_list (l : list string) : string :=
  ("[" ++ String.concat ", " (map (fun s => "'" ++ s ++ "'") l) ++ "]")%string.

Definition newline : string := String (ascii_of_nat 10) EmptyString.

Section Methods.
Context {World obj : Type}.

Notation M := (M World obj).
Notation Env := (Env World obj).
Notation Amortizer := (Amortizer World obj).
Notation GenerativeModel := (GenerativeModel World obj).
Notation Configurator := (Configurator World obj).
Notation config_arg := (config_arg World obj).

(** The attributes of a trainer instance. *)
Record Trainer : Type := mk_trainer {
  amortizer : Amortizer;
  generative_model : option GenerativeModel;
  configurator : Configurator;
  clip_method : string;
  clip_value : option Q;
  optimizer : obj;
  checkpoint : option obj;
  manager : option obj;
  checkpoint_path : option string
}.

(** The arguments of [Trainer.__init__]; [default_args] below gives the
    defaults of the signature. *)
Record init_args : Type := mk_init_args {
  arg_amortizer : Amortizer;
  arg_generative_model : option GenerativeModel;
  arg_configurator : config_arg;
  arg_optimizer : option (Q -> ext World obj obj);
  arg_learning_rate : Q;
  arg_checkpoint_path : option string;
  arg_max_to_keep : nat;
  arg_clip_method : string;
  arg_clip_value : option Q;
  arg_skip_checks : bool
}.

Definition default_args (a : Amortizer) : init_args :=
  {| arg_amortizer := a;
     arg_generative_model := None;
     arg_configurator := ConfigNone;
     arg_optimizer := None;
     arg_learning_rate := (5 # 10000)%Q;
     arg_checkpoint_path := None;
     arg_max_to_keep := 5;
     arg_clip_method := "global_norm";
     arg_clip_value := None;
     arg_skip_checks := false |}.

(** ** Calls to the collaborators *)

Definition call_generative_model (gm : GenerativeModel) (n_sim : nat)
           (kwargs : keywords) : M ref :=
  call TheGenerativeModel (gm n_sim kwargs)
       (fun _ out after =>
          EvSimulate n_sim kwargs out
                     match out with
                     | inr d => contents after d
                     | inl _ => None
                     end).

Definition configurator_fun (env : Env) (c : Configurator)
  : ConfiguratorFun World obj :=
  match c with
  | UserConfigurator f => f
  | DefaultConfigurator cls transform_fun combine_fun =>
      default_configurator_call env cls transform_fun combine_fun
  end.

Definition call_configurator (env : Env) (c : Configurator)
           (forward_dict : ref) (kwargs : keywords) : M obj :=
  call TheConfigurator (configurator_fun env c forward_dict kwargs)
       (fun _ _ _ => EvConfigure forward_dict kwargs).

Definition call_compute_loss (a : Amortizer) (input_dict : obj)
           (kwargs : keywords) : M obj :=
  call TheAmortizer (compute_loss a input_dict kwargs)
       (fun _ _ _ => EvComputeLoss input_dict kwargs).

(** ** [Trainer._forward_inference] *)
Definition _forward_inference (self : Trainer) (n_sim : nat)
           (kwargs : keywords) : M ref :=
  match generative_model self with
  | None =>
      raise (SimulationError
               "No generative model specified. Only offline learning is available!")
  | Some gm => call_generative_model gm n_sim kwargs
  end.

(** ** [Trainer._backprop_step] *)
Definition _backprop_step (env : Env) (self : Trainer) (input_dict : obj)
           (kwargs : keywords) : M obj :=
  loss <- call_compute_loss (amortizer self) input_dict kwargs ;;
  (call TheOptimizer
        (apply_gradients env (optimizer self) (amortizer self) loss
                         (clip_value self) (clip_method self))
        (fun _ _ _ => EvApplyGradients loss)) ;;;
  ret (numpy env loss).

(** ** [Trainer._train_step] *)
Definition _train_step (env : Env) (self : Trainer) (batch_size : nat)
           (forward_dict : option ref) (kwargs : train_kwargs) : M obj :=
  forward_dict <-
    match forward_dict with
    | None => _forward_inference self batch_size (pop_default (model_args kwargs))
    | Some d => ret d
    end ;;
  input_dict <- call_configurator env (configurator self) forward_dict
                                  (pop_default (conf_args kwargs)) ;;
  _backprop_step env self input_dict (pop_default (net_args kwargs)).

(** [if self.manager is not None and save_checkpoint: self.manager.save()] *)
Definition save_after_epoch (env : Env) (self : Trainer)
           (save_checkpoint : bool) : M unit :=
  match manager self with
  | Some m =>
      if save_checkpoint
      then call TheCheckpoint (manager_save env m) (fun _ _ _ => EvSave)
      else ret tt
  | None => ret tt
  end.

(** The losses dictionaries, [ep_num -> list of losses], in insertion
    order. *)
Definition losses_dict : Type := list (nat * list obj).

(** ** [Trainer.train_online] *)
Definition train_online (env : Env) (self : Trainer)
           (epochs iterations_per_epoch batch_size : nat)
           (save_checkpoint : bool) (kwargs : train_kwargs) : M losses_dict :=
  for_each (range1 epochs) (fun ep =>
    losses_ep <- for_each (range1 iterations_per_epoch) (fun it =>
                   _train_step env self batch_size None kwargs) ;;
    save_after_epoch env self save_checkpoint ;;;
    ret (ep, losses_ep)).

(** ** [Trainer.train_offline] *)

(** Line 242, the total of the progress bar,
    [int(np.ceil(data_set.n_sim / batch_size))]: the division fails for a
    batch size of zero. *)
Definition progress_total (n_sim batch_size : nat) : exn + nat :=
  if Nat.eqb batch_size 0 then inl (ArithmeticError "division by zero")
  else inr ((n_sim + batch_size - 1) / batch_size).

(** Lines 239-259: the loop over the epochs, each one pass over the data
    set. *)
Definition offline_epochs (env : Env) (self : Trainer) (data_set : obj)
           (epochs batch_size : nat) (save_checkpoint : bool)
           (kwargs : train_kwargs) : M losses_dict :=
  for_each (range1 epochs) (fun ep =>
    lift (progress_total (n_sim_of env data_set) batch_size) ;;;
    batches <- call TheDataset (dataset_iter env data_set)
                    (fun _ _ _ => EvIterate) ;;
    losses_ep <- for_each batches (fun forward_dict =>
                   _train_step env self batch_size (Some forward_dict) kwargs) ;;
    save_after_epoch env self save_checkpoint ;;;
    ret (ep, losses_ep)).

Definition train_offline (env : Env) (self : Trainer)
           (simulations_dict : ref) (epochs batch_size : nat)
           (save_checkpoint : bool) (kwargs : train_kwargs) : M losses_dict :=
  data_set <- call TheDataset (SimulatedDataset env simulations_dict batch_size)
                   (fun before _ _ =>
                      EvDataset simulations_dict
                                (contents before simulations_dict) batch_size) ;;
  offline_epochs env self data_set epochs batch_size save_checkpoint kwargs.

(** ** [Trainer.train_rounds] *)

(** [np.concatenate((a, b), axis=0)]: both have to be arrays, with entries
    of the same shape; otherwise numpy raises [ValueError].  The text of
    numpy's message depends on its version and on the dimensions and is
    not modelled: the two texts here only tell the two cases apart. *)
Definition np_concatenate (a b : value obj) : exn + value obj :=
  match a, b with
  | Array a', Array b' =>
      if list_eq_dec Nat.eq_dec (item_shape a') (item_shape b')
      then inr (Array {| item_shape := item_shape a';
                         items := items a' ++ items b' |})
      else inl (ValueError "the shapes of the entries differ")
  | _, _ => inl (ValueError "one of the two is not an array")
  end.

(** Lines 303-304, the body of the loop over the keys:
    [if simulations_dict[k] is not None:
         simulations_dict[k] = np.concatenate((simulations_dict[k], simulations_dict_r[k]), axis=0)] *)
Definition concatenate_key (k : string)
           (simulations_dict simulations_dict_r : ref) : M unit :=
  v <- getitem simulations_dict k ;;
  match v with
  | PyNone => ret tt
  | _ =>
      v_r <- getitem simulations_dict_r k ;;
      c <- lift (np_concatenate v v_r) ;;
      setitem simulations_dict k c
  end.

(** Line 302, [for k in simulations_dict.keys(): ...], over the keys
    [ks]. *)
Fixpoint concatenate_keys (ks : list string)
         (simulations_dict simulations_dict_r : ref) : M unit :=
  match ks with
  | [] => ret tt
  | k :: rest =>
      concatenate_key k simulations_dict simulations_dict_r ;;;
      concatenate_keys rest simulations_dict simulations_dict_r
  end.

(** Lines 296-304, the data generation step of a later round: simulate
    further data and append it to [simulations_dict], which stays the
    same object. *)
Definition simulate_further (self : Trainer) (sim_per_round : nat)
           (kwargs : train_kwargs) (simulations_dict : ref) : M ref :=
  simulations_dict_r <-
    _forward_inference self sim_per_round (as_keywords kwargs) ;;
  ks <- dict_keys simulations_dict ;;
  concatenate_keys ks simulations_dict simulations_dict_r ;;;
  ret simulations_dict.

(** The body of [for r in range(1, rounds + 1)] with the variables it
    updates: [first_round], [simulations_dict] (unbound while
    [first_round] holds, any reference here) and [losses]. *)
Fixpoint rounds_loop (env : Env) (self : Trainer) (rs : list nat)
         (first_round : bool) (simulations_dict : ref)
         (losses : list (nat * losses_dict))
         (sim_per_round epochs batch_size : nat) (save_checkpoint : bool)
         (kwargs : train_kwargs) : M (list (nat * losses_dict)) :=
  match rs with
  | [] => ret losses
  | r :: rest =>
      simulations_dict <-
        (if first_round
         then _forward_inference self sim_per_round (as_keywords kwargs)
         else simulate_further self sim_per_round kwargs simulations_dict) ;;
      losses_r <- train_offline env self simulations_dict epochs batch_size
                                save_checkpoint kwargs ;;
      rounds_loop env self rest false simulations_dict
                  (losses ++ [(r, losses_r)])
                  sim_per_round epochs batch_size save_checkpoint kwargs
  end.

Definition train_rounds (env : Env) (self : Trainer)
           (rounds sim_per_round epochs batch_size : nat)
           (save_checkpoint : bool) (kwargs : train_kwargs)
  : M (list (nat * losses_dict)) :=
  rounds_loop env self (range1 rounds) true 0 []
              sim_per_round epochs batch_size save_checkpoint kwargs.

(** ** [Trainer._manage_configurator] *)

(** [type(self.amortizer)] as it prints. *)
Definition type_repr_of (c : amortizer_class) : string :=
  match c with
  | AmortizedPosterior =>
      "<class 'bayesflow.amortized_inference.AmortizedPosterior'>"
  | AmortizedLikelihood =>
      "<class 'bayesflow.amortized_inference.AmortizedLikelihood'>"
  | JointAmortizer =>
      "<class 'bayesflow.amortized_inference.JointAmortizer'>"
  | OtherAmortizer r => r
  end.

(** Lines 378-398: the defaults that go with the amortizer's type, as
    [(default_config, default_combiner, default_transfomer)]. *)
Definition defaults_for (a : Amortizer)
  : exn + (config_class * component * component) :=
  match amortizer_type a with
  | AmortizedPosterior =>
      inr (DefaultPosteriorConfigurator,
           DefaultPosteriorCombiner, DefaultPosteriorTransformer)
  | AmortizedLikelihood =>
      inr (DefaultLikelihoodConfigurator,
           DefaultLikelihoodTransformer, DefaultLikelihoodCombiner)
  | JointAmortizer =>
      inr (DefaultJointConfigurator,
           DefaultJointTransformer, DefaultJointCombiner)
  | OtherAmortizer _ =>
      inl (NotImplementedError
             ("Could not initialize configurator based on " ++
              "amortizer type " ++ type_repr_of (amortizer_type a) ++ "!")%string)
  end.

Definition _manage_configurator (a : Amortizer) (config_fun : config_arg)
  : exn + Configurator :=
  match config_fun with
  | ConfigCallable f => inr (UserConfigurator f)
  | _ =>
      match defaults_for a with
      | inl e => inl e
      | inr (default_config, default_combiner, default_transfomer) =>
          match config_fun with
          | ConfigStr s =>
              if String.eqb s "variable_num_obs" then
                inr (DefaultConfigurator default_config
                       VariableObservationsTransformer default_combiner)
              else if String.eqb s "one_hot" then
                inr (DefaultConfigurator default_config
                       OneHotTransformer default_combiner)
              else if String.eqb s "variable_num_obs_one_hot" then
                inr (DefaultConfigurator default_config
                       (TransformerUnion
                          [VariableObservationsTransformer; OneHotTransformer])
                       default_combiner)
              else if String.eqb s "one_hot_variable_num_obs" then
                inr (DefaultConfigurator default_config
                       (TransformerUnion
                          [OneHotTransformer; VariableObservationsTransformer])
                       default_combiner)
              else
                inl (NotImplementedError
                       ("Could not initialize configurator based on string" ++
                        "argument should be in " ++ repr_list STRING_CONFIGS)%string)
          | ConfigNone =>
              inr (DefaultConfigurator default_config
                     default_transfomer default_combiner)
          | ConfigOther r =>
              inl (NotImplementedError
                     ("Could not infer configurator based on provided type: " ++ r)%string)
          | ConfigCallable f => inr (UserConfigurator f)
          end
      end
  end.

(** ** [Trainer._check_consistency] *)

Definition consistency_context : string :=
  ("Could not carry out computations of generative_model ->" ++
   "configurator -> amortizer -> loss! Error trace:" ++ newline ++ " ")%string.

(** The body of the [try] block, line 448. *)
Definition consistency_pipeline (env : Env) (self : Trainer)
           (gm : GenerativeModel) : M unit :=
  forward_dict <- call_generative_model gm 2 [] ;;
  input_dict <- call_configurator env (configurator self) forward_dict [] ;;
  call_compute_loss (amortizer self) input_dict [] ;;;
  ret tt.

Definition _check_consistency (env : Env) (self : Trainer) : M unit :=
  match generative_model self with
  | Some gm =>
      try_except (consistency_pipeline env self gm)
        (fun err =>
           raise (ConfigurationError (consistency_context ++ str err)%string))
  | None => ret tt
  end.

(** ** [Trainer.__init__] *)

(** Lines 92-120: the attributes, in the order they are set. *)
Definition init_attributes (env : Env) (args : init_args) : M Trainer :=
  configurator <- lift (_manage_configurator (arg_amortizer args)
                                             (arg_configurator args)) ;;
  optimizer <-
    call TheOptimizer
         (match arg_optimizer args with
          | None => Adam env (arg_learning_rate args)
          | Some make => make (arg_learning_rate args)
          end)
         (fun _ _ _ => EvOptimizer) ;;
  ckpt <-
    match arg_checkpoint_path args with
    | Some path =>
        cm <- call TheCheckpoint
                   (checkpoint_setup env optimizer (arg_amortizer args) path
                                     (arg_max_to_keep args))
                   (fun _ _ _ => EvCheckpoint path) ;;
        ret (Some (fst cm), Some (snd cm))
    | None => ret (None, None)
    end ;;
  ret {| amortizer := arg_amortizer args;
         generative_model := arg_generative_model args;
         configurator := configurator;
         clip_method := arg_clip_method args;
         clip_value := arg_clip_value args;
         optimizer := optimizer;
         checkpoint := fst ckpt;
         manager := snd ckpt;
         checkpoint_path := arg_checkpoint_path args |}.

Definition __init__ (env : Env) (args : init_args) : M Trainer :=
  self <- init_attributes env args ;;
  (if arg_skip_checks args then ret tt else _check_consistency env self) ;;;
  ret self.

End Methods.

Arguments Trainer : clear implicits.
Arguments init_args : clear implicits.

End Trainer.

(** ** Reading a run

    What the statements about the trainer speak of: the outcome of a run,
    the calls it made, and among those the simulations that came back from
    the generative model and the dictionaries handed to
    [SimulatedDataset], which is how [train_offline] begins. *)
Module TrainerRuns.

Section Runs.
Context {World obj : Type}.

Definition outcome {A} (run : (exn + A) * state World obj * list (event obj))
  : exn + A :=
  fst (fst run).

Definition state_after {A} (run : (exn + A) * state World obj * list (event obj))
  : state World obj :=
  snd (fst run).

Definition calls {A} (run : (exn + A) * state World obj * list (event obj))
  : list (event obj) :=
  snd run.

Definition is_simulate (ev : event obj) : bool :=
  match ev with
  | EvSimulate _ _ _ _ => true
  | _ => false
  end.

Definition is_dataset (ev : event obj) : bool :=
  match ev with
  | EvDataset _ _ _ => true
  | _ => false
  end.

(** The calls to the generative model. *)
Definition simulate_calls (t : list (event obj)) : list (event obj) :=
  filter is_simulate t.

(** What the dictionaries that the generative model returned held, in
    order. *)
Definition simulated (t : list (event obj)) : list (dict obj) :=
  flat_map (fun ev => match ev with
                      | EvSimulate _ _ (inr _) (Some d) => [d]
                      | _ => []
                      end) t.

(** What the dictionaries that [train_offline] was started on held, in
    order. *)
Definition datasets (t : list (event obj)) : list (dict obj) :=
  flat_map (fun ev => match ev with
                      | EvDataset _ (Some d) _ => [d]
                      | _ => []
                      end) t.

(** ** The concatenation loop as a function on dictionaries *)

(** What the loop of lines 302-304 makes of the entry [(k, v)] when the
    new simulation holds [b]. *)
Definition concatenate_entry (k : string) (v : value obj) (b : dict obj)
  : exn + value obj :=
  match v with
  | PyNone => inr PyNone
  | _ =>
      match lookup b k with
      | None => inl (KeyError k)
      | Some v_r => Trainer.np_concatenate v v_r
      end
  end.

(** What the loop makes of a dictionary: its entries one after the other,
    up to the first failure. *)
Fixpoint concatenate_dicts (d b : dict obj) : exn + dict obj :=
  match d with
  | [] => inr []
  | (k, v) :: rest =>
      match concatenate_entry k v b with
      | inl e => inl e
      | inr v' =>
          match concatenate_dicts rest b with
          | inl e => inl e
          | inr rest' => inr ((k, v') :: rest')
          end
      end
  end.

(** The dictionary after the loop ran once for each of [batches]. *)
Fixpoint accumulate (d : dict obj) (batches : list (dict obj))
  : exn + dict obj :=
  match batches with
  | [] => inr d
  | b :: rest =>
      match concatenate_dicts d b with
      | inl e => inl e
      | inr d' => accumulate d' rest
      end
  end.

(** ** What is asked of the collaborators *)

(** A collaborator call that returns, whatever the state is. *)
Definition succeeds {A} (f : ext World obj A) : Prop :=
  forall s, exists a s', f s = (inr a, s').

(** The collaborators [train_offline] relies on all return. *)
Definition offline_collaborators_succeed
           (env : Env World obj) (self : Trainer.Trainer World obj) : Prop :=
  (forall d n, succeeds (SimulatedDataset env d n)) /\
  (forall ds, succeeds (dataset_iter env ds)) /\
  (forall d kw,
      succeeds (Trainer.configurator_fun env (Trainer.configurator self) d kw)) /\
  (forall i kw, succeeds (compute_loss (Trainer.amortizer self) i kw)) /\
  (forall o a l cv cm, succeeds (apply_gradients env o a l cv cm)) /\
  (forall m, succeeds (manager_save env m)).

(** A collaborator call that leaves the dictionaries that exist as they
    are; it may create new ones. *)
Definition keeps_dicts {A} (f : ext World obj A) : Prop :=
  forall s, exists new, heap (snd (f s)) = heap s ++ new.

(** The collaborators [train_offline] relies on do not change the
    dictionaries they are handed. *)
Definition offline_collaborators_keep_dicts
           (env : Env World obj) (self : Trainer.Trainer World obj) : Prop :=
  (forall d n, keeps_dicts (SimulatedDataset env d n)) /\
  (forall ds, keeps_dicts (dataset_iter env ds)) /\
  (forall d kw,
      keeps_dicts (Trainer.configurator_fun env (Trainer.configurator self) d kw)) /\
  (forall i kw, keeps_dicts (compute_loss (Trainer.amortizer self) i kw)) /\
  (forall o a l cv cm, keeps_dicts (apply_gradients env o a l cv cm)) /\
  (forall m, keeps_dicts (manager_save env m)).

(** A generative model that returns a dictionary (with distinct keys) it
    has just created, and leaves those that exist as they are. *)
Definition returns_new_dict (gm : GenerativeModel World obj) : Prop :=
  forall n kw s,
    exists new,
      heap (snd (gm n kw s)) = heap s ++ new /\
      forall d,
        fst (gm n kw s) = inr d ->
        length (heap s) <= d /\
        exists entries,
          contents (snd (gm n kw s)) d = Some entries /\ NoDup (keys entries).

(** A generative model that returns [n_sim] simulations in every array of
    its output. *)
Definition simulates_n_sim (gm : GenerativeModel World obj) : Prop :=
  forall n kw s d entries,
    fst (gm n kw s) = inr d ->
    contents (snd (gm n kw s)) d = Some entries ->
    forall k a, lookup entries k = Some (Array a) -> n_samples a = n.

(** A generative model that returns at every call. *)
Definition always_returns (gm : GenerativeModel World obj) : Prop :=
  forall n kw, succeeds (gm n kw).

(** What a value of a simulations dict is for the concatenation: [None],
    or an array with entries of some shape; a number is neither. *)
Definition entry_layout (v : value obj) : option (option (list nat)) :=
  match v with
  | PyNone => Some None
  | Array a => Some (Some (item_shape a))
  | Scalar _ => None
  end.

(** The layout of the output of a generative model: its keys in order,
    each with [None] or the shape of the entries of its array. *)
Definition layout : Type := list (string * option (list nat)).

Definition has_layout (L : layout) (d : dict obj) : Prop :=
  map (fun entry => (fst entry, entry_layout (snd entry))) d
  = map (fun l => (fst l, Some (snd l))) L.

(** A generative model whose output has the same layout at every call. *)
Definition simulates_layout (gm : GenerativeModel World obj) (L : layout)
  : Prop :=
  forall n kw s d entries,
    fst (gm n kw s) = inr d ->
    contents (snd (gm n kw s)) d = Some entries ->
    has_layout L entries.

(** ** Properties of computations *)

(** A computation that only makes calls satisfying [P] and only raises
    exceptions satisfying [Q]. *)
Definition confined {A} (P : event obj -> Prop) (Q : exn -> Prop)
           (m : M World obj A) : Prop :=
  forall s,
    Forall P (calls (m s)) /\ (forall e, outcome (m s) = inl e -> Q e).

(** A computation that returns, with a result satisfying [R]. *)
Definition returns {A} (R : A -> Prop) (m : M World obj A) : Prop :=
  forall s, exists a, outcome (m s) = inr a /\ R a.

(** A computation that leaves the dictionaries that exist as they are. *)
Definition keeps {A} (m : M World obj A) : Prop :=
  forall s, exists new, heap (state_after (m s)) = heap s ++ new.

(** A call to generative model [gm] that asked for [n] simulations, when
    the call is a simulation at all. *)
Definition asked_of (gm : GenerativeModel World obj) (n : nat)
           (ev : event obj) : Prop :=
  match ev with
  | EvSimulate n' kw out returned =>
      n' = n /\
      exists s,
        out = fst (gm n' kw s) /\
        returned = match out with
                   | inr d => contents (snd (gm n' kw s)) d
                   | inl _ => None
                   end
  | _ => True
  end.

End Runs.

End TrainerRuns.

Export TrainerRuns.

(** ** Concrete collaborators

    The world is a counter of simulator runs; Python objects are numbers. *)
Module TrainerExamples.

Definition no_kwargs : train_kwargs :=
  {| model_args := None; conf_args := None; net_args := None |}.

Definition start : state nat nat := {| world := 0; heap := [] |}.

(** What run number [w] of the simulator returns: [n_sim] prior draws and
    data sets, and no context. *)
Definition simulation (w n_sim : nat) : dict nat :=
  [("prior_draws", Array {| item_shape := [2]; items := repeat w n_sim |});
   ("sim_data", Array {| item_shape := [3]; items := repeat (w + 100) n_sim |});
   ("sim_context", PyNone)].

(** A simulator: every run returns a new dictionary. *)
Definition simulator : GenerativeModel nat nat :=
  fun n_sim kwargs s =>
    (inr (length (heap s)),
     {| world := S (world s);
        heap := heap s ++ [simulation (world s) n_sim] |}).

(** A simulator that keeps one dictionary, refills it in every run and
    returns it again. *)
Definition reusing_simulator : GenerativeModel nat nat :=
  fun n_sim kwargs s =>
    match heap s with
    | [] => (inr 0, {| world := S (world s);
                       heap := [simulation (world s) n_sim] |})
    | _ :: others =>
        (inr 0, {| world := S (world s);
                   heap := simulation (world s) n_sim :: others |})
    end.

Definition crash : py_exception :=
  {| exc_class := "RuntimeError"; exc_text := "simulator crashed";
     derives_from_Exception := true |}.

(** A simulator that raises. *)
Definition broken_simulator : GenerativeModel nat nat :=
  fun n_sim kwargs s => (inl crash, s).

(** Ctrl-C during a simulation: [KeyboardInterrupt] derives from
    [BaseException], not from [Exception]. *)
Definition interrupt : py_exception :=
  {| exc_class := "KeyboardInterrupt"; exc_text := EmptyString;
     derives_from_Exception := false |}.

Definition interrupted_simulator : GenerativeModel nat nat :=
  fun n_sim kwargs s => (inl interrupt, s).

Definition posterior_amortizer : Amortizer nat nat :=
  {| amortizer_type := AmortizedPosterior;
     compute_loss := fun input_dict kwargs s => (inr 1, s) |}.

Definition custom_amortizer : Amortizer nat nat :=
  {| amortizer_type := OtherAmortizer "<class 'CustomAmortizer'>";
     compute_loss := fun input_dict kwargs s => (inr 1, s) |}.

(** The data set yields one batch per pass, a new dictionary. *)
Definition tf_env : Env nat nat :=
  {| Adam := fun lr s => (inr 0, s);
     checkpoint_setup := fun opt a path keep s => (inr (0, 0), s);
     manager_save := fun m s => (inr tt, s);
     SimulatedDataset := fun d batch_size s => (inr d, s);
     n_sim_of := fun ds => 3;
     dataset_iter :=
       fun ds s =>
         (inr [length (heap s)],
          {| world := world s;
             heap := heap s ++ [[("prior_draws", PyNone)]] |});
     apply_gradients := fun opt a loss cv cm s => (inr tt, s);
     numpy := fun loss => loss;
     default_configurator_call := fun cls tf cf d kwargs s => (inr 0, s) |}.

Definition trainer_with (gm : option (GenerativeModel nat nat))
  : Trainer.Trainer nat nat :=
  {| Trainer.amortizer := posterior_amortizer;
     Trainer.generative_model := gm;
     Trainer.configurator :=
       DefaultConfigurator DefaultPosteriorConfigurator
                           DefaultPosteriorTransformer DefaultPosteriorCombiner;
     Trainer.clip_method := "global_norm";
     Trainer.clip_value := None;
     Trainer.optimizer := 0;
     Trainer.checkpoint := None;
     Trainer.manager := None;
     Trainer.checkpoint_path := None |}.

(** A trainer without a generative model, and one with the simulator. *)
Definition offline_trainer : Trainer.Trainer nat nat := trainer_with None.
Definition online_trainer : Trainer.Trainer nat nat := trainer_with (Some simulator).

(** A state in which a pre-simulated data set exists, as dictionary 0. *)
Definition presimulated : dict nat :=
  [("prior_draws", Array {| item_shape := [2]; items := [1; 2; 3] |});
   ("sim_data", Array {| item_shape := [3]; items := [4; 5; 6] |})].

Definition with_presimulated : state nat nat :=
  {| world := 0; heap := [presimulated] |}.

(** Arguments of [Trainer(...)]: a posterior amortizer with the simulator
    that raises; a string that is no configurator; an unknown amortizer. *)
Definition broken_args : Trainer.init_args nat nat :=
  {| Trainer.arg_amortizer := posterior_amortizer;
     Trainer.arg_generative_model := Some broken_simulator;
     Trainer.arg_configurator := ConfigNone;
     Trainer.arg_optimizer := None;
     Trainer.arg_learning_rate := (5 # 10000)%Q;
     Trainer.arg_checkpoint_path := None;
     Trainer.arg_max_to_keep := 5;
     Trainer.arg_clip_method := "global_norm";
     Trainer.arg_clip_value := None;
     Trainer.arg_skip_checks := false |}.

(** The same arguments with the simulator that is interrupted. *)
Definition interrupted_args : Trainer.init_args nat nat :=
  {| Trainer.arg_amortizer := posterior_amortizer;
     Trainer.arg_generative_model := Some interrupted_simulator;
     Trainer.arg_configurator := ConfigNone;
     Trainer.arg_optimizer := None;
     Trainer.arg_learning_rate := (5 # 10000)%Q;
     Trainer.arg_checkpoint_path := None;
     Trainer.arg_max_to_keep := 5;
     Trainer.arg_clip_method := "global_norm";
     Trainer.arg_clip_value := None;
     Trainer.arg_skip_checks := false |}.

Definition misspelled_args : Trainer.init_args nat nat :=
  {| Trainer.arg_amortizer := posterior_amortizer;
     Trainer.arg_generative_model := Some simulator;
     Trainer.arg_configurator := ConfigStr "onehot";
     Trainer.arg_optimizer := None;
     Trainer.arg_learning_rate := (5 # 10000)%Q;
     Trainer.arg_checkpoint_path := None;
     Trainer.arg_max_to_keep := 5;
     Trainer.arg_clip_method := "global_norm";
     Trainer.arg_clip_value := None;
     Trainer.arg_skip_checks := false |}.

Definition custom_args : Trainer.init_args nat nat :=
  Trainer.default_args custom_amortizer.

End TrainerExamples.

(** ** The affine coupling layer

    [bayesflow/coupling_networks.py] is not among the sources; the layer is
    modelled from the component contract of the specification, over the
    real numbers.  A sample is a vector of reals, a batch a list of samples.
    The two sub-networks are arbitrary functions: nothing below depends on
    what they compute, only on the dimension of what they return. *)
Module Coupling.

Local Open Scope R_scope.

Definition vec : Type := list R.

(** Modelled from the spec: the settings the layer is built from;
    [n_params] is the declared input dimension, [condition_dim] the
    declared condition dimension ([None]: the layer is unconditional),
    and the two flags enable the optional sub-layers. *)
Record meta : Type := mk_meta {
  n_params : nat;
  condition_dim : option nat;
  use_permutation : bool;
  use_act_norm : bool
}.

(** Modelled from the spec: the trainable state the layer is initialised
    with: the scale and translation predictors (taking the untouched half
    and the optional condition), the soft clamp applied to predicted
    scales, the permutation of the dimensions and the per-channel scale
    and bias of the activation normalisation. *)
Record weights : Type := mk_weights {
  init_s : vec -> option vec -> vec;
  init_t : vec -> option vec -> vec;
  init_clamp : R -> R;
  init_perm : list nat;
  init_scale : vec;
  init_bias : vec
}.

Record ActNorm : Type := mk_act_norm {
  scale : vec;
  bias : vec
}.

Record Layer : Type := mk_layer {
  settings : meta;
  network_s : vec -> option vec -> vec;
  network_t : vec -> option vec -> vec;
  clamp : R -> R;
  permutation : option (list nat);
  act_norm : option ActNorm
}.

(** Modelled from the spec: [AffineCouplingLayer(meta)].  A sub-layer is
    present exactly when its flag is set. *)
Definition AffineCouplingLayer (m : meta) (w : weights) : Layer :=
  {| settings := m;
     network_s := init_s w;
     network_t := init_t w;
     clamp := init_clamp w;
     permutation := if use_permutation m then Some (init_perm w) else None;
     act_norm := if use_act_norm m
                 then Some {| scale := init_scale w; bias := init_bias w |}
                 else None |}.

Definition dim (L : Layer) : nat := n_params (settings L).

(** The fixed split: the first half has [D / 2] dimensions. *)
Definition half (L : Layer) : nat := Nat.div2 (dim L).

(** The sum of the components of a vector. *)
Definition total (v : vec) : R := fold_right Rplus 0 v.

(** ** The three bijections, on one sample *)

(** [x .* exp(s) + t], component by component. *)
Fixpoint affine (x s t : vec) : vec :=
  match x, s, t with
  | xi :: x', si :: s', ti :: t' => (xi * exp si + ti) :: affine x' s' t'
  | _, _, _ => []
  end.

(** [(z - t) .* exp(-s)] *)
Fixpoint affine_inv (z s t : vec) : vec :=
  match z, s, t with
  | zi :: z', si :: s', ti :: t' => ((zi - ti) * exp (- si)) :: affine_inv z' s' t'
  | _, _, _ => []
  end.

(** Modelled from the spec: the coupling transform.  The first half is
    left as it is and both predictors read only that half, so the inverse
    computes the same [s] and [t]. *)
Definition coupling_forward (L : Layer) (x : vec) (c : option vec) : vec * R :=
  let x1 := firstn (half L) x in
  let x2 := skipn (half L) x in
  let s := map (clamp L) (network_s L x1 c) in
  let t := network_t L x1 c in
  (x1 ++ affine x2 s t, total s).

Definition coupling_inverse (L : Layer) (z : vec) (c : option vec) : vec :=
  let z1 := firstn (half L) z in
  let z2 := skipn (half L) z in
  let s := map (clamp L) (network_s L z1 c) in
  let t := network_t L z1 c in
  z1 ++ affine_inv z2 s t.

(** Position of [j] in [p] ([length p] when it does not occur). *)
Fixpoint index_of (j : nat) (p : list nat) : nat :=
  match p with
  | [] => O
  | i :: p' => if Nat.eqb i j then O else S (index_of j p')
  end.

(** Modelled from the spec: a fixed permutation of the dimensions; output
    dimension [i] is input dimension [p[i]].  Its log-determinant is 0. *)
Definition permute (p : list nat) (x : vec) : vec :=
  map (fun i => nth i x 0) p.

Definition unpermute (p : list nat) (z : vec) : vec :=
  map (fun j => nth (index_of j p) z 0) (seq 0 (length p)).

(** Modelled from the spec: activation normalisation, a per-channel
    affine map [scale .* x + bias] with log-determinant
    [sum (log |scale|)]. *)
Fixpoint act_norm_forward (sc b x : vec) : vec :=
  match sc, b, x with
  | si :: sc', bi :: b', xi :: x' => (si * xi + bi) :: act_norm_forward sc' b' x'
  | _, _, _ => []
  end.

Fixpoint act_norm_inverse (sc b z : vec) : vec :=
  match sc, b, z with
  | si :: sc', bi :: b', zi :: z' => ((zi - bi) / si) :: act_norm_inverse sc' b' z'
  | _, _, _ => []
  end.

Definition act_norm_ldj (sc : vec) : R :=
  total (map (fun s => ln (Rabs s)) sc).

(** ** The layer on one sample *)

Inductive shape_error : Type :=
| InputDimension (expected got : nat)
| ConditionDimension (expected got : nat)
| UnexpectedCondition
| MissingCondition
| BatchSize (inputs conditions : nat).

(** Modelled from the spec: the error conditions of the contract: the
    input has [n_params] dimensions, and a condition is given exactly
    when the layer is conditional, with the declared dimension. *)
Definition check_shapes (L : Layer) (x : vec) (c : option vec)
  : option shape_error :=
  if negb (Nat.eqb (length x) (dim L)) then
    Some (InputDimension (dim L) (length x))
  else
    match condition_dim (settings L), c with
    | None, None => None
    | None, Some _ => Some UnexpectedCondition
    | Some _, None => Some MissingCondition
    | Some d, Some cv =>
        if Nat.eqb (length cv) d then None
        else Some (ConditionDimension d (length cv))
    end.

(** Modelled from the spec: the stages of the forward pass: activation
    normalisation, permutation, coupling; each adds its log-determinant
    to the total. *)
Definition forward_stages (L : Layer) (x : vec) (c : option vec) : vec * R :=
  let '(x_a, ldj_a) :=
    match act_norm L with
    | Some a => (act_norm_forward (scale a) (bias a) x, act_norm_ldj (scale a))
    | None => (x, 0)
    end in
  let x_p :=
    match permutation L with
    | Some p => permute p x_a
    | None => x_a
    end in
  let '(z, ldj_c) := coupling_forward L x_p c in
  (z, ldj_a + ldj_c).

Definition inverse_stages (L : Layer) (z : vec) (c : option vec) : vec :=
  let x_p := coupling_inverse L z c in
  let x_a :=
    match permutation L with
    | Some p => unpermute p x_p
    | None => x_p
    end in
  match act_norm L with
  | Some a => act_norm_inverse (scale a) (bias a) x_a
  | None => x_a
  end.

(** [forward(x, condition) -> (z, log_det_jacobian)] *)
Definition forward (L : Layer) (x : vec) (c : option vec)
  : shape_error + (vec * R) :=
  match check_shapes L x c with
  | Some e => inl e
  | None => inr (forward_stages L x c)
  end.

(** [inverse(z, condition) -> x] *)
Definition inverse (L : Layer) (z : vec) (c : option vec)
  : shape_error + vec :=
  match check_shapes L z c with
  | Some e => inl e
  | None => inr (inverse_stages L z c)
  end.

(** ** The layer on a batch *)

(** The condition of each sample of a batch of [n] samples. *)
Definition condition_rows (n : nat) (C : option (list vec))
  : shape_error + list (option vec) :=
  match C with
  | None => inr (repeat None n)
  | Some rows =>
      if Nat.eqb (length rows) n then inr (map Some rows)
      else inl (BatchSize n (length rows))
  end.

Fixpoint forward_rows (L : Layer) (X : list vec) (C : list (option vec))
  : shape_error + (list vec * list R) :=
  match X, C with
  | x :: X', c :: C' =>
      match forward L x c with
      | inl e => inl e
      | inr (z, ldj) =>
          match forward_rows L X' C' with
          | inl e => inl e
          | inr (Z, ldjs) => inr (z :: Z, ldj :: ldjs)
          end
      end
  | _, _ => inr ([], [])
  end.

Fixpoint inverse_rows (L : Layer) (Z : list vec) (C : list (option vec))
  : shape_error + list vec :=
  match Z, C with
  | z :: Z', c :: C' =>
      match inverse L z c with
      | inl e => inl e
      | inr x =>
          match inverse_rows L Z' C' with
          | inl e => inl e
          | inr X => inr (x :: X)
          end
      end
  | _, _ => inr []
  end.

(** Modelled from the spec: the batched passes: sample [i] of the batch
    is transformed with condition [i]. *)
Definition forward_batch (L : Layer) (X : list vec) (C : option (list vec))
  : shape_error + (list vec * list R) :=
  match condition_rows (length X) C with
  | inl e => inl e
  | inr rows => forward_rows L X rows
  end.

Definition inverse_batch (L : Layer) (Z : list vec) (C : option (list vec))
  : shape_error + list vec :=
  match condition_rows (length Z) C with
  | inl e => inl e
  | inr rows => inverse_rows L Z rows
  end.

(** The condition that goes with sample [i] of a batch. *)
Definition condition_of (C : option (list vec)) (i : nat) : option vec :=
  match C with
  | None => None
  | Some rows => nth_error rows i
  end.

(** ** Well-formed layers and valid inputs *)

(** The predictors return one scale and one translation per transformed
    dimension. *)
Definition networks_fit (L : Layer) : Prop :=
  forall x1 c,
    length (network_s L x1 c) = (dim L - half L)%nat /\
    length (network_t L x1 c) = (dim L - half L)%nat.

Definition permutation_fits (L : Layer) : Prop :=
  match permutation L with
  | Some p => Permutation p (seq 0 (dim L))
  | None => True
  end.

Definition act_norm_fits (L : Layer) : Prop :=
  match act_norm L with
  | Some a =>
      length (scale a) = dim L /\ length (bias a) = dim L /\
      Forall (fun s => s <> 0) (scale a)
  | None => True
  end.

Definition well_formed (L : Layer) : Prop :=
  networks_fit L /\ permutation_fits L /\ act_norm_fits L.

(** A sample and its condition have the declared dimensions. *)
Definition valid_sample (L : Layer) (x : vec) (c : option vec) : Prop :=
  check_shapes L x c = None.

(** A batch and its conditions: one condition per sample when the layer
    is conditional, all of the declared dimensions. *)
Definition valid_batch (L : Layer) (X : list vec) (C : option (list vec)) : Prop :=
  exists rows,
    condition_rows (length X) C = inr rows /\
    Forall2 (valid_sample L) X rows.

End Coupling.

(** ** Concrete layers and batches *)
Module CouplingExamples.
Import Coupling.
Local Open Scope R_scope.

(** A conditional layer on two dimensions with both optional sub-layers:
    the predictors return one scale and one translation, the permutation
    swaps the two dimensions, the normalisation doubles and shifts. *)
Definition meta2 : meta :=
  {| n_params := 2; condition_dim := Some 1%nat;
     use_permutation := true; use_act_norm := true |}.

Definition weights2 : weights :=
  {| init_s := fun x1 c => [hd 0 x1];
     init_t := fun x1 c => match c with Some cv => [hd 0 cv] | None => [1] end;
     init_clamp := fun s => s;
     init_perm := [1%nat; 0%nat];
     init_scale := [2; 2];
     init_bias := [1; 0] |}.

Definition layer2 : Layer := AffineCouplingLayer meta2 weights2.

Definition batch2 : list vec := [[1; 2]; [3; 4]].
Definition batch2' : list vec := [[1; 2]; [7; 8]].
Definition conditions2 : option (list vec) := Some [[5]; [6]].

End CouplingExamples.

(** ** More of the trainer

    The method of [Trainer] that the training regimes do not use, and what
    further statements about runs speak of: how often a kind of call was
    made, and what a call was given. *)
Module TrainerMore.

Import Trainer.
Local Open Scope trainer_scope.

Section More.
Context {World obj : Type}.

(** ** [Trainer.load_pretrained_network] *)

(** Lines 129-132.  [restore_latest checkpoint manager] stands for
    [checkpoint.restore(manager.latest_checkpoint)]; the method returns
    [False] or the status of the restore.  The call is recorded as a
    checkpoint call on the trainer's path. *)
Definition load_pretrained_network
           (restore_latest : obj -> obj -> ext World obj obj)
           (self : Trainer World obj) : M World obj (bool + obj) :=
  match manager self, checkpoint self with
  | Some m, Some c =>
      status <- call TheCheckpoint (restore_latest c m)
                     (fun _ _ _ =>
                        EvCheckpoint match checkpoint_path self with
                                     | Some path => path
                                     | None => EmptyString
                                     end) ;;
      ret (inr status)
  | _, _ => ret (inl false)
  end.

(** ** Kinds of calls *)

Inductive call_kind : Type :=
| KSimulate
| KConfigure
| KComputeLoss
| KApplyGradients
| KDataset
| KIterate
| KSave
| KOptimizer
| KCheckpoint.

Definition kind_of (ev : event obj) : call_kind :=
  match ev with
  | EvSimulate _ _ _ _ => KSimulate
  | EvConfigure _ _ => KConfigure
  | EvComputeLoss _ _ => KComputeLoss
  | EvApplyGradients _ => KApplyGradients
  | EvDataset _ _ _ => KDataset
  | EvIterate => KIterate
  | EvSave => KSave
  | EvOptimizer => KOptimizer
  | EvCheckpoint _ => KCheckpoint
  end.

Definition same_kind (k k' : call_kind) : bool :=
  match k, k' with
  | KSimulate, KSimulate | KConfigure, KConfigure
  | KComputeLoss, KComputeLoss | KApplyGradients, KApplyGradients
  | KDataset, KDataset | KIterate, KIterate | KSave, KSave
  | KOptimizer, KOptimizer | KCheckpoint, KCheckpoint => true
  | _, _ => false
  end.

(** How many of the calls are of a kind. *)
Definition count (k : call_kind) (t : list (event obj)) : nat :=
  length (filter (fun ev => same_kind (kind_of ev) k) t).

(** The calls of one training step that returns, by kind: one to the
    configurator, one to [compute_loss], one application of gradients,
    and one simulation when no [forward_dict] is given. *)
Definition step_calls (simulates : bool) (k : call_kind) : nat :=
  match k with
  | KSimulate => if simulates then 1 else 0
  | KConfigure | KComputeLoss | KApplyGradients => 1
  | _ => 0
  end.

(** The calls at the end of an epoch, by kind: one [manager.save()] when
    there is a manager and [save_checkpoint] is on. *)
Definition epoch_end_calls (self : Trainer World obj) (save_checkpoint : bool)
           (k : call_kind) : nat :=
  match k with
  | KSave =>
      match manager self with
      | Some _ => if save_checkpoint then 1 else 0
      | None => 0
      end
  | _ => 0
  end.

(** One for the kind [k0], nothing for the others. *)
Definition one_for (k0 k : call_kind) : nat :=
  if same_kind k0 k then 1 else 0.

(** The number of losses in a losses dictionary. *)
Definition total_losses (losses : losses_dict (obj := obj)) : nat :=
  list_sum (map (fun p => length (snd p)) losses).

(** The references [SimulatedDataset] was given, and those the generative
    model returned, in order. *)
Definition dataset_refs (t : list (event obj)) : list ref :=
  flat_map (fun ev => match ev with
                      | EvDataset d _ _ => [d]
                      | _ => []
                      end) t.

Definition returned_refs (t : list (event obj)) : list ref :=
  flat_map (fun ev => match ev with
                      | EvSimulate _ _ (inr d) _ => [d]
                      | _ => []
                      end) t.

(** ** What calls are given *)

(** A call of the construction that is no part of the consistency
    check. *)
Definition setup_call (ev : event obj) : Prop :=
  match ev with
  | EvOptimizer | EvCheckpoint _ => True
  | _ => False
  end.

(** A call of the consistency check: two simulations, and no keyword
    arguments anywhere. *)
Definition check_call (ev : event obj) : Prop :=
  match ev with
  | EvSimulate n_sim kwargs _ _ => n_sim = 2 /\ kwargs = []
  | EvConfigure _ kwargs => kwargs = []
  | EvComputeLoss _ kwargs => kwargs = []
  | _ => False
  end.

(** A call of a training step that was given [sim_args] for the
    generative model (asked for [n_sim] simulations) and the entries
    [conf_args] and [net_args] of [kwargs] for the configurator and the
    amortizer. *)
Definition routed (n_sim : nat) (sim_args : keywords) (kwargs : train_kwargs)
           (ev : event obj) : Prop :=
  match ev with
  | EvSimulate n kw _ _ => n = n_sim /\ kw = sim_args
  | EvConfigure _ kw => kw = pop_default (conf_args kwargs)
  | EvComputeLoss _ kw => kw = pop_default (net_args kwargs)
  | _ => True
  end.

(** ** The configurator *)

Definition known_amortizer (a : Amortizer World obj) : Prop :=
  match amortizer_type a with
  | OtherAmortizer _ => False
  | _ => True
  end.

(** What the name of a class of [bayesflow.configuration] says it is. *)
Definition named_transformer (c : component) : bool :=
  match c with
  | DefaultPosteriorTransformer | DefaultLikelihoodTransformer
  | DefaultJointTransformer | VariableObservationsTransformer
  | OneHotTransformer | TransformerUnion _ => true
  | _ => false
  end.

Definition named_combiner (c : component) : bool :=
  match c with
  | DefaultPosteriorCombiner | DefaultLikelihoodCombiner
  | DefaultJointCombiner => true
  | _ => false
  end.

(** ** The concatenation loop *)

(** An entry that the loop can handle when the new simulation holds [b]:
    it is [None], or an array for whose key [b] has an array with entries
    of the same shape. *)
Definition concatenable (b : dict obj) (entry : string * value obj) : Prop :=
  match snd entry with
  | PyNone => True
  | Array a =>
      exists a', lookup b (fst entry) = Some (Array a') /\
                 item_shape a' = item_shape a
  | Scalar _ => False
  end.

(** An entry concatenated with itself. *)
Definition doubled (entry : string * value obj) : string * value obj :=
  match snd entry with
  | Array a =>
      (fst entry, Array {| item_shape := item_shape a;
                           items := items a ++ items a |})
  | _ => entry
  end.

Definition none_or_array (entry : string * value obj) : Prop :=
  match snd entry with
  | Scalar _ => False
  | _ => True
  end.

(** The state [s'] differs from [s] at most in the values that
    dictionary [sd] holds for its keys. *)
Definition written_only (sd : ref) (s s' : state World obj) : Prop :=
  world s' = world s /\
  length (heap s') = length (heap s) /\
  (forall d, d <> sd -> contents s' d = contents s d) /\
  option_map keys (contents s' sd) = option_map keys (contents s sd).

(** What leaves the consistency check as it is: an exception of one of
    the three collaborators of the check that does not derive from
    [Exception]. *)
Definition escapes_check (e : exn) : Prop :=
  match e with
  | CollaboratorError (TheGenerativeModel | TheConfigurator | TheAmortizer) pe =>
      derives_from_Exception pe = false
  | _ => False
  end.


(** A call that is no [SimulatedDataset] on a dictionary other than
    [sd]. *)
Definition dataset_on (sd : ref) (ev : event obj) : Prop :=
  match ev with
  | EvDataset d _ _ => d = sd
  | _ => True
  end.

(** ** Failures *)

(** A computation that stops at a simulation that raised: such a call is
    the last one, and its exception is the outcome. *)
Definition stops_at_failed_simulation {A} (m : M World obj A) : Prop :=
  forall s t1 n_sim kwargs pe held t2,
    calls (m s) = t1 ++ EvSimulate n_sim kwargs (inl pe) held :: t2 ->
    t2 = [] /\
    outcome (m s) = inl (CollaboratorError TheGenerativeModel pe).

(** A call that is no simulation that raised. *)
Definition no_failed_simulation (ev : event obj) : Prop :=
  match ev with
  | EvSimulate _ _ (inl _) _ => False
  | _ => True
  end.

(** A list of calls in which the configurator is only called on the
    dictionary that the call just before, a simulation, returned. *)
Definition configured_after_simulation (t : list (event obj)) : Prop :=
  forall t1 forward_dict kwargs t2,
    t = t1 ++ EvConfigure forward_dict kwargs :: t2 ->
    exists t0 n_sim sim_args held,
      t1 = t0 ++ [EvSimulate n_sim sim_args (inr forward_dict) held].

End More.

End TrainerMore.

Export TrainerMore.

(** ** More concrete collaborators *)
Module TrainerMoreExamples.

Import TrainerExamples.

(** The trainer that [Trainer(...)] makes of [checkpointed_args] below. *)
Definition checkpointed_trainer : Trainer.Trainer nat nat :=
  {| Trainer.amortizer := posterior_amortizer;
     Trainer.generative_model := Some simulator;
     Trainer.configurator :=
       DefaultConfigurator DefaultPosteriorConfigurator
                           OneHotTransformer DefaultPosteriorCombiner;
     Trainer.clip_method := "global_norm";
     Trainer.clip_value := None;
     Trainer.optimizer := 0;
     Trainer.checkpoint := Some 0;
     Trainer.manager := Some 0;
     Trainer.checkpoint_path := Some "checkpoints" |}.

(** Arguments of [Trainer(...)] with a checkpoint path and the
    simulator. *)
Definition checkpointed_args : Trainer.init_args nat nat :=
  {| Trainer.arg_amortizer := posterior_amortizer;
     Trainer.arg_generative_model := Some simulator;
     Trainer.arg_configurator := ConfigStr "one_hot";
     Trainer.arg_optimizer := None;
     Trainer.arg_learning_rate := (5 # 10000)%Q;
     Trainer.arg_checkpoint_path := Some "checkpoints";
     Trainer.arg_max_to_keep := 5;
     Trainer.arg_clip_method := "global_norm";
     Trainer.arg_clip_value := None;
     Trainer.arg_skip_checks := false |}.

Definition likelihood_amortizer : Amortizer nat nat :=
  {| amortizer_type := AmortizedLikelihood;
     compute_loss := fun input_dict kwargs s => (inr 1, s) |}.

(** [checkpoint.restore(manager.latest_checkpoint)] returning a status. *)
Definition restore_ok : nat -> nat -> ext nat nat nat :=
  fun c m s => (inr (c + m), s).

(** A simulator that raises from its third run on. *)
Definition tiring_simulator : GenerativeModel nat nat :=
  fun n_sim kwargs s =>
    if Nat.ltb (world s) 2 then simulator n_sim kwargs s else (inl crash, s).

(** Keyword arguments for each of the three collaborators. *)
Definition some_kwargs : train_kwargs :=
  {| model_args := Some [("noise", PyLit "0.1")];
     conf_args := Some [("scale", PyLit "True")];
     net_args := Some [("training", PyLit "True")] |}.

(** A later simulation that lacks the data. *)
Definition without_data : dict nat :=
  [("prior_draws", Array {| item_shape := [2]; items := [9] |});
   ("sim_context", PyNone)].

(** A state with a first simulation (dictionary 0) and a later one that
    lacks the data (dictionary 1), and one with two full simulations. *)
Definition incomplete_second : state nat nat :=
  {| world := 2; heap := [simulation 0 2; without_data] |}.

Definition two_simulations : state nat nat :=
  {| world := 2; heap := [simulation 0 2; simulation 1 2] |}.

End TrainerMoreExamples.

(* ===================================================================== *)
(** * Part II: properties                                                  *)
(* ===================================================================== *)

Module CouplingFacts.
Import Coupling.
Local Open Scope R_scope.

(** ** The affine map and its inverse *)

Lemma affine_length (x s t : vec) :
  length s = length x -> length t = length x ->
  length (affine x s t) = length x.
Proof.
  revert s t; induction x as [|xi x IH]; intros [|si s] [|ti t]; simpl;
    try discriminate; auto.
Qed.

Lemma affine_inv_affine (x s t : vec) :
  length s = length x -> length t = length x ->
  affine_inv (affine x s t) s t = x.
Proof.
  revert s t; induction x as [|xi x IH]; intros [|si s] [|ti t]; simpl;
    try discriminate; auto.
  intros Hs Ht. f_equal.
  - rewrite exp_Ropp. field. apply Rgt_not_eq, exp_pos.
  - apply IH; congruence.
Qed.

Lemma half_le (L : Layer) : (half L <= dim L)%nat.
Proof.
  unfold half. generalize (dim L) as n.
  fix rec 1. intros [|[|n]]; simpl; auto.
  specialize (rec n). lia.
Qed.

Lemma coupling_forward_length (L : Layer) (x : vec) (c : option vec) :
  networks_fit L -> length x = dim L ->
  length (fst (coupling_forward L x c)) = dim L.
Proof.
  intros Hn Hx. unfold coupling_forward; simpl.
  destruct (Hn (firstn (half L) x) c) as [Hs Ht].
  rewrite length_app, affine_length, length_firstn, length_skipn.
  - pose proof (half_le L). lia.
  - rewrite length_map, length_skipn. lia.
  - rewrite length_skipn. lia.
Qed.

Lemma coupling_inverse_forward (L : Layer) (x : vec) (c : option vec) :
  networks_fit L -> length x = dim L ->
  coupling_inverse L (fst (coupling_forward L x c)) c = x.
Proof.
  intros Hn Hx. unfold coupling_forward, coupling_inverse; simpl.
  pose proof (half_le L) as Hh.
  assert (Hl : length (firstn (half L) x) = half L)
    by (rewrite length_firstn; lia).
  rewrite firstn_app, Hl, Nat.sub_diag, firstn_0, app_nil_r.
  rewrite firstn_all2 by lia.
  rewrite skipn_app, Hl, Nat.sub_diag, skipn_0.
  rewrite skipn_all2 by lia. simpl.
  destruct (Hn (firstn (half L) x) c) as [Hs Ht].
  rewrite affine_inv_affine.
  - apply firstn_skipn.
  - rewrite length_map, length_skipn. lia.
  - rewrite length_skipn. lia.
Qed.

(** ** Activation normalisation *)

Lemma act_norm_forward_length (sc b x : vec) :
  length sc = length x -> length b = length x ->
  length (act_norm_forward sc b x) = length x.
Proof.
  revert sc b; induction x as [|xi x IH]; intros [|si sc] [|bi b]; simpl;
    try discriminate; auto.
Qed.

Lemma act_norm_inverse_forward (sc b x : vec) :
  length sc = length x -> length b = length x ->
  Forall (fun s => s <> 0) sc ->
  act_norm_inverse sc b (act_norm_forward sc b x) = x.
Proof.
  revert sc b; induction x as [|xi x IH]; intros [|si sc] [|bi b]; simpl;
    try discriminate; auto.
  intros Hs Hb Hnz. inversion Hnz; subst. f_equal.
  - field. assumption.
  - apply IH; auto.
Qed.

(** ** Permutation of the dimensions *)

Lemma index_of_In (j : nat) (p : list nat) :
  In j p -> (index_of j p < length p)%nat /\ nth (index_of j p) p O = j.
Proof.
  induction p as [|i p IH]; simpl; [tauto|].
  intros Hin. destruct (Nat.eqb_spec i j) as [->|Hne].
  - split; [lia | reflexivity].
  - destruct Hin as [Heq|Hin]; [contradiction|].
    destruct (IH Hin). split; [lia | assumption].
Qed.

Lemma map_nth_seq (x : vec) :
  map (fun j => nth j x 0) (seq 0 (length x)) = x.
Proof.
  induction x as [|xi x IH]; simpl; [reflexivity|].
  f_equal. rewrite <- seq_shift, map_map. exact IH.
Qed.

Lemma permute_length (p : list nat) (x : vec) :
  length (permute p x) = length p.
Proof. apply length_map. Qed.

Lemma unpermute_permute (p : list nat) (x : vec) :
  Permutation p (seq 0 (length x)) ->
  unpermute p (permute p x) = x.
Proof.
  intros Hp. unfold unpermute.
  assert (Hlen : length p = length x).
  { rewrite (Permutation_length Hp). apply length_seq. }
  rewrite Hlen.
  transitivity (map (fun j => nth j x 0) (seq 0 (length x)));
    [|apply map_nth_seq].
  apply map_ext_in. intros j Hj.
  assert (Hin : In j p) by (apply (Permutation_in _ (Permutation_sym Hp)), Hj).
  destruct (index_of_In j p Hin) as [Hlt Hnth].
  unfold permute.
  rewrite (nth_indep _ 0 (nth O x 0)) by (rewrite length_map; exact Hlt).
  rewrite (map_nth (fun i => nth i x 0) p O). rewrite Hnth. reflexivity.
Qed.

(** ** The layer on one sample *)

Lemma check_shapes_length (L : Layer) (x z : vec) (c : option vec) :
  length z = length x -> check_shapes L z c = check_shapes L x c.
Proof. intros H. unfold check_shapes. rewrite H. reflexivity. Qed.

Lemma valid_sample_length (L : Layer) (x : vec) (c : option vec) :
  valid_sample L x c -> length x = dim L.
Proof.
  unfold valid_sample, check_shapes.
  destruct (Nat.eqb_spec (length x) (dim L)); simpl; [auto | discriminate].
Qed.

Lemma forward_stages_length (L : Layer) (x : vec) (c : option vec) :
  well_formed L -> length x = dim L ->
  length (fst (forward_stages L x c)) = dim L.
Proof.
  intros (Hn & Hp & Ha) Hx. unfold forward_stages.
  unfold permutation_fits, act_norm_fits in *.
  destruct (act_norm L) as [a|]; destruct (permutation L) as [p|];
    match goal with
       | |- context [coupling_forward L ?y c] =>
           pose proof (coupling_forward_length L y c Hn) as Hc;
           destruct (coupling_forward L y c) as [z l]; simpl in *; apply Hc
       end.
  - rewrite permute_length, (Permutation_length Hp). apply length_seq.
  - destruct Ha as (Hs & Hb & _). rewrite act_norm_forward_length; congruence.
  - rewrite permute_length, (Permutation_length Hp). apply length_seq.
  - exact Hx.
Qed.

Lemma inverse_forward_stages (L : Layer) (x : vec) (c : option vec) :
  well_formed L -> length x = dim L ->
  inverse_stages L (fst (forward_stages L x c)) c = x.
Proof.
  intros (Hn & Hp & Ha) Hx. unfold forward_stages, inverse_stages.
  unfold permutation_fits, act_norm_fits in *.
  destruct (act_norm L) as [a|]; destruct (permutation L) as [p|];
    match goal with
       | |- context [coupling_forward L ?y c] =>
           pose proof (coupling_inverse_forward L y c Hn) as Hc;
           destruct (coupling_forward L y c) as [z l]; simpl in *
       end.
  - destruct Ha as (Hs & Hb & Hnz).
    assert (Hl : length (act_norm_forward (scale a) (bias a) x) = dim L)
      by (rewrite act_norm_forward_length; congruence).
    rewrite Hc by (rewrite permute_length, (Permutation_length Hp); apply length_seq).
    rewrite unpermute_permute by (rewrite Hl; exact Hp).
    apply act_norm_inverse_forward; congruence.
  - destruct Ha as (Hs & Hb & Hnz).
    rewrite Hc by (rewrite act_norm_forward_length; congruence).
    apply act_norm_inverse_forward; congruence.
  - rewrite Hc by (rewrite permute_length, (Permutation_length Hp); apply length_seq).
    apply unpermute_permute. rewrite Hx. exact Hp.
  - apply Hc, Hx.
Qed.

(** On a valid sample the forward pass succeeds, keeps the dimension, and
    the inverse pass undoes it. *)
Lemma forward_sample (L : Layer) (x : vec) (c : option vec) :
  well_formed L -> valid_sample L x c ->
  exists z ldj,
    forward L x c = inr (z, ldj) /\ length z = length x /\
    inverse L z c = inr x.
Proof.
  intros Hwf Hv. pose proof (valid_sample_length L x c Hv) as Hx.
  pose proof (forward_stages_length L x c Hwf Hx) as Hlen.
  pose proof (inverse_forward_stages L x c Hwf Hx) as Hinv.
  unfold forward, inverse. unfold valid_sample in Hv. rewrite Hv.
  destruct (forward_stages L x c) as [z ldj]; simpl in *.
  exists z, ldj. split; [reflexivity|]. split; [congruence|].
  rewrite (check_shapes_length L x z c) by congruence.
  rewrite Hv. congruence.
Qed.

Lemma forward_dimension (L : Layer) (x z : vec) (c : option vec) (ldj : R) :
  well_formed L -> forward L x c = inr (z, ldj) -> length z = length x.
Proof.
  intros Hwf Hf.
  assert (Hv : valid_sample L x c).
  { unfold valid_sample. unfold forward in Hf.
    destruct (check_shapes L x c); [discriminate | reflexivity]. }
  destruct (forward_sample L x c Hwf Hv) as (z' & l' & Hf' & Hlen & _).
  congruence.
Qed.

(** ** The layer on a batch *)

Lemma condition_rows_length (n : nat) (C : option (list vec)) rows :
  condition_rows n C = inr rows -> length rows = n.
Proof.
  unfold condition_rows. destruct C as [cs|].
  - destruct (Nat.eqb_spec (length cs) n); [|discriminate].
    intros [= <-]. rewrite length_map. assumption.
  - intros [= <-]. apply repeat_length.
Qed.

Lemma condition_rows_nth (n : nat) (C : option (list vec)) rows (i : nat) :
  condition_rows n C = inr rows -> (i < n)%nat ->
  nth_error rows i = Some (condition_of C i).
Proof.
  unfold condition_rows, condition_of. destruct C as [cs|].
  - destruct (Nat.eqb_spec (length cs) n) as [Hl|]; [|discriminate].
    intros [= <-] Hi. rewrite nth_error_map.
    destruct (nth_error cs i) eqn:E; [reflexivity|].
    apply nth_error_None in E. lia.
  - intros [= <-] Hi. apply nth_error_repeat. exact Hi.
Qed.

Lemma forward_rows_valid (L : Layer) (X : list vec) (rows : list (option vec)) :
  well_formed L -> Forall2 (valid_sample L) X rows ->
  exists Z ldjs,
    forward_rows L X rows = inr (Z, ldjs) /\ inverse_rows L Z rows = inr X.
Proof.
  intros Hwf HF. induction HF as [|x c X rows Hv HF IH]; simpl.
  - exists [], []. split; reflexivity.
  - destruct (forward_sample L x c Hwf Hv) as (z & l & Hf & _ & Hi).
    destruct IH as (Z & ldjs & HZ & HI).
    exists (z :: Z), (l :: ldjs). rewrite Hf, HZ. split; [reflexivity|].
    simpl. rewrite Hi, HI. reflexivity.
Qed.

Lemma forward_rows_shape (L : Layer) (X : list vec) (rows : list (option vec))
      (Z : list vec) (ldjs : list R) :
  well_formed L -> length rows = length X ->
  forward_rows L X rows = inr (Z, ldjs) ->
  length Z = length X /\ length ldjs = length X /\
  Forall2 (fun x z => length z = length x) X Z.
Proof.
  intros Hwf. revert rows Z ldjs.
  induction X as [|x X IH]; intros [|c rows] Z ldjs Hlen; simpl in *;
    try discriminate.
  - intros [= <- <-]. repeat split; constructor.
  - destruct (forward L x c) as [e|[z l]] eqn:Hf; [discriminate|].
    destruct (forward_rows L X rows) as [e|[Z' ldjs']] eqn:HZ; [discriminate|].
    intros [= <- <-].
    destruct (IH rows Z' ldjs' ltac:(lia) HZ) as (H1 & H2 & H3).
    simpl. repeat split; try lia.
    constructor; [|exact H3]. eapply forward_dimension; eauto.
Qed.

Lemma forward_rows_nth (L : Layer) (X : list vec) (rows : list (option vec))
      (Z : list vec) (ldjs : list R) (i : nat) (x : vec) (c : option vec) :
  forward_rows L X rows = inr (Z, ldjs) ->
  nth_error X i = Some x -> nth_error rows i = Some c ->
  exists z l,
    forward L x c = inr (z, l) /\
    nth_error Z i = Some z /\ nth_error ldjs i = Some l.
Proof.
  revert rows Z ldjs i.
  induction X as [|x0 X IH]; intros [|c0 rows] Z ldjs [|i]; simpl;
    try discriminate.
  - destruct (forward L x0 c0) as [e|[z l]] eqn:Hf; [discriminate|].
    destruct (forward_rows L X rows) as [e|[Z' ldjs']]; [discriminate|].
    intros [= <- <-] [= <-] [= <-]. exists z, l. simpl. auto.
  - destruct (forward L x0 c0) as [e|[z l]] eqn:Hf; [discriminate|].
    destruct (forward_rows L X rows) as [e|[Z' ldjs']] eqn:HZ; [discriminate|].
    intros [= <- <-] Hx Hc. simpl. eapply IH; eauto.
Qed.

Lemma inverse_rows_nth (L : Layer) (Z : list vec) (rows : list (option vec))
      (X : list vec) (i : nat) (z : vec) (c : option vec) :
  inverse_rows L Z rows = inr X ->
  nth_error Z i = Some z -> nth_error rows i = Some c ->
  exists x, inverse L z c = inr x /\ nth_error X i = Some x.
Proof.
  revert rows X i.
  induction Z as [|z0 Z IH]; intros [|c0 rows] X [|i]; simpl;
    try discriminate.
  - destruct (inverse L z0 c0) as [e|x] eqn:Hf; [discriminate|].
    destruct (inverse_rows L Z rows) as [e|X']; [discriminate|].
    intros [= <-] [= <-] [= <-]. exists x. simpl. auto.
  - destruct (inverse L z0 c0) as [e|x] eqn:Hf; [discriminate|].
    destruct (inverse_rows L Z rows) as [e|X'] eqn:HZ; [discriminate|].
    intros [= <-] Hx Hc. simpl. eapply IH; eauto.
Qed.

(** Row [i] of the output of a batched forward pass is the forward pass
    of row [i] with condition [i]. *)
Lemma forward_batch_row (L : Layer) (X : list vec) (C : option (list vec))
      (Z : list vec) (ldjs : list R) (i : nat) (x : vec) :
  forward_batch L X C = inr (Z, ldjs) -> nth_error X i = Some x ->
  exists z l,
    forward L x (condition_of C i) = inr (z, l) /\
    nth_error Z i = Some z /\ nth_error ldjs i = Some l.
Proof.
  unfold forward_batch. intros H Hx.
  destruct (condition_rows (length X) C) as [e|rows] eqn:HC; [discriminate|].
  assert (Hi : (i < length X)%nat)
    by (apply nth_error_Some; congruence).
  eapply forward_rows_nth; eauto.
  eapply condition_rows_nth; eauto.
Qed.

Lemma inverse_batch_row (L : Layer) (Z : list vec) (C : option (list vec))
      (X : list vec) (i : nat) (z : vec) :
  inverse_batch L Z C = inr X -> nth_error Z i = Some z ->
  exists x,
    inverse L z (condition_of C i) = inr x /\ nth_error X i = Some x.
Proof.
  unfold inverse_batch. intros H Hz.
  destruct (condition_rows (length Z) C) as [e|rows] eqn:HC; [discriminate|].
  assert (Hi : (i < length Z)%nat)
    by (apply nth_error_Some; congruence).
  eapply inverse_rows_nth; eauto.
  eapply condition_rows_nth; eauto.
Qed.

Lemma forward_rows_accepts (L : Layer) (X : list vec) (rows : list (option vec)) :
  Forall2 (valid_sample L) X rows ->
  (exists Z ldjs, forward_rows L X rows = inr (Z, ldjs)) /\
  (exists X', inverse_rows L X rows = inr X').
Proof.
  intros HF. induction HF as [|x c X rows Hv HF [(Z & ldjs & HZ) (X' & HX)]]; simpl.
  - split; repeat eexists.
  - unfold forward, inverse. unfold valid_sample in Hv. rewrite Hv, HZ, HX.
    destruct (forward_stages L x c). split; repeat eexists.
Qed.

(** ** The layer as a bijection on batches *)

(** C1: for a well-formed layer and every batch of samples of the declared
    dimension, with matching conditions (or none when the layer is
    unconditional), the forward pass succeeds and the inverse pass applied
    to its output with the same conditions gives back the input.  The
    model computes over the reals, where the recovery is exact. *)
Theorem inverse_recovers_forward_input
        (L : Layer) (X : list vec) (C : option (list vec)) :
  well_formed L -> valid_batch L X C ->
  exists Z ldj,
    forward_batch L X C = inr (Z, ldj) /\ inverse_batch L Z C = inr X.
Proof.
  intros Hwf (rows & HC & HF).
  destruct (forward_rows_valid L X rows Hwf HF) as (Z & ldjs & HZ & HI).
  exists Z, ldjs. unfold forward_batch, inverse_batch. rewrite HC.
  split; [exact HZ|].
  pose proof (condition_rows_length _ _ _ HC) as Hlen.
  destruct (forward_rows_shape L X rows Z ldjs Hwf Hlen HZ) as (HlZ & _).
  rewrite HlZ, HC. exact HI.
Qed.

(** C2: the output of a batched forward pass has as many samples as the
    input, each of the dimension of the input sample, and there is one
    log-determinant per sample. *)
Theorem forward_preserves_shape
        (L : Layer) (X : list vec) (C : option (list vec))
        (Z : list vec) (ldj : list R) :
  well_formed L -> forward_batch L X C = inr (Z, ldj) ->
  length Z = length X /\
  Forall2 (fun x z => length z = length x) X Z /\
  length ldj = length X.
Proof.
  intros Hwf. unfold forward_batch.
  destruct (condition_rows (length X) C) as [e|rows] eqn:HC; [discriminate|].
  intros HZ. pose proof (condition_rows_length _ _ _ HC) as Hlen.
  destruct (forward_rows_shape L X rows Z ldj Hwf Hlen HZ) as (H1 & H2 & H3).
  auto.
Qed.

(** C7: a layer built with the permutation enabled has a permutation, and
    a layer built with activation normalisation enabled has one. *)
Theorem enabled_sublayers_are_present (m : meta) (w : weights) :
  (use_permutation m = true -> permutation (AffineCouplingLayer m w) <> None) /\
  (use_act_norm m = true -> act_norm (AffineCouplingLayer m w) <> None).
Proof.
  unfold AffineCouplingLayer; simpl. split; intros ->; discriminate.
Qed.

(** C8: batches of any size are accepted, and sample [i] of the output of
    either pass (and its log-determinant) is determined by sample [i] of
    the input and its condition: two batches that agree there agree on
    output [i], whatever their other samples are. *)
Theorem samples_are_transformed_independently
        (L : Layer) (X X' : list vec) (C C' : option (list vec)) (i : nat) :
  (i < length X)%nat ->
  nth_error X' i = nth_error X i ->
  condition_of C' i = condition_of C i ->
  (valid_batch L X C ->
   (exists Z ldj, forward_batch L X C = inr (Z, ldj)) /\
   (exists Y, inverse_batch L X C = inr Y)) /\
  (forall Z ldj Z' ldj',
      forward_batch L X C = inr (Z, ldj) ->
      forward_batch L X' C' = inr (Z', ldj') ->
      nth_error Z' i = nth_error Z i /\ nth_error ldj' i = nth_error ldj i /\
      nth_error Z i <> None /\ nth_error ldj i <> None) /\
  (forall Y Y',
      inverse_batch L X C = inr Y ->
      inverse_batch L X' C' = inr Y' ->
      nth_error Y' i = nth_error Y i /\ nth_error Y i <> None).
Proof.
  intros Hi HX HC.
  destruct (nth_error X i) as [x|] eqn:Hx;
    [|apply nth_error_None in Hx; lia].
  split; [|split].
  - intros (rows & Hrows & HF).
    destruct (forward_rows_accepts L X rows HF) as [Hf Hinv].
    unfold forward_batch, inverse_batch. rewrite Hrows. auto.
  - intros Z ldj Z' ldj' H H'.
    destruct (forward_batch_row L X C Z ldj i x H Hx) as (z & l & Hf & Hz & Hl).
    destruct (forward_batch_row L X' C' Z' ldj' i x H' HX)
      as (z' & l' & Hf' & Hz' & Hl').
    rewrite HC in Hf'. rewrite Hf in Hf'. injection Hf' as <- <-.
    rewrite Hz, Hl, Hz', Hl'. repeat split; discriminate.
  - intros Y Y' H H'.
    destruct (inverse_batch_row L X C Y i x H Hx) as (y & Hf & Hy).
    destruct (inverse_batch_row L X' C' Y' i x H' HX) as (y' & Hf' & Hy').
    rewrite HC in Hf'. rewrite Hf in Hf'. injection Hf' as <-.
    rewrite Hy, Hy'. split; [reflexivity | discriminate].
Qed.

(** ** The properties at a concrete layer *)

Lemma layer2_well_formed : well_formed CouplingExamples.layer2.
Proof.
  split; [|split].
  - intros x1 [cv|]; split; reflexivity.
  - apply perm_swap.
  - split; [reflexivity|]. split; [reflexivity|].
    repeat constructor; apply Rgt_not_eq; lra.
Defined.

Lemma batch2_valid :
  valid_batch CouplingExamples.layer2 CouplingExamples.batch2
              CouplingExamples.conditions2.
Proof.
  eexists. split; [reflexivity|]. repeat constructor.
Defined.

Lemma inverse_recovers_forward_input_witness :
  exists Z ldj,
    forward_batch CouplingExamples.layer2 CouplingExamples.batch2
                  CouplingExamples.conditions2 = inr (Z, ldj) /\
    inverse_batch CouplingExamples.layer2 Z CouplingExamples.conditions2
    = inr CouplingExamples.batch2.
Proof.
  apply inverse_recovers_forward_input;
    [exact layer2_well_formed | exact batch2_valid].
Defined.

Lemma forward_preserves_shape_witness :
  exists Z ldj,
    forward_batch CouplingExamples.layer2 CouplingExamples.batch2
                  CouplingExamples.conditions2 = inr (Z, ldj) /\
    length Z = 2%nat /\
    Forall2 (fun x z => length z = length x) CouplingExamples.batch2 Z /\
    length ldj = 2%nat.
Proof.
  eexists. eexists. split; [reflexivity|].
  apply (forward_preserves_shape CouplingExamples.layer2
           CouplingExamples.batch2 CouplingExamples.conditions2);
    [exact layer2_well_formed | reflexivity].
Defined.

Lemma enabled_sublayers_are_present_witness :
  permutation CouplingExamples.layer2 <> None /\
  act_norm CouplingExamples.layer2 <> None.
Proof.
  destruct (enabled_sublayers_are_present CouplingExamples.meta2
              CouplingExamples.weights2) as [Hp Ha].
  split; [apply Hp | apply Ha]; reflexivity.
Defined.

Lemma samples_are_transformed_independently_witness :
  (valid_batch CouplingExamples.layer2 CouplingExamples.batch2
               CouplingExamples.conditions2 ->
   (exists Z ldj,
       forward_batch CouplingExamples.layer2 CouplingExamples.batch2
                     CouplingExamples.conditions2 = inr (Z, ldj)) /\
   (exists Y,
       inverse_batch CouplingExamples.layer2 CouplingExamples.batch2
                     CouplingExamples.conditions2 = inr Y)) /\
  (forall Z ldj Z' ldj',
      forward_batch CouplingExamples.layer2 CouplingExamples.batch2
                    CouplingExamples.conditions2 = inr (Z, ldj) ->
      forward_batch CouplingExamples.layer2 CouplingExamples.batch2'
                    CouplingExamples.conditions2 = inr (Z', ldj') ->
      nth_error Z' 0 = nth_error Z 0 /\ nth_error ldj' 0 = nth_error ldj 0 /\
      nth_error Z 0 <> None /\ nth_error ldj 0 <> None) /\
  (forall Y Y',
      inverse_batch CouplingExamples.layer2 CouplingExamples.batch2
                    CouplingExamples.conditions2 = inr Y ->
      inverse_batch CouplingExamples.layer2 CouplingExamples.batch2'
                    CouplingExamples.conditions2 = inr Y' ->
      nth_error Y' 0 = nth_error Y 0 /\ nth_error Y 0 <> None).
Proof.
  apply (samples_are_transformed_independently CouplingExamples.layer2
           CouplingExamples.batch2 CouplingExamples.batch2'
           CouplingExamples.conditions2 CouplingExamples.conditions2 0);
    [simpl; lia | reflexivity | reflexivity].
Defined.

End CouplingFacts.

Module TrainerFacts.
Import Trainer.
Local Open Scope trainer_scope.

Section Facts.
Context {World obj : Type}.

Notation M := (M World obj).
Notation Env := (Env World obj).
Notation Trainer := (Trainer World obj).
Notation state := (state World obj).

(** ** Running a computation *)

Lemma bind_run {A B} (m : M A) (f : A -> M B) (w : state) :
  bind m f w =
  match m w with
  | (inl e, w1, t1) => (inl e, w1, t1)
  | (inr a, w1, t1) =>
      match f a w1 with
      | (r, w2, t2) => (r, w2, t1 ++ t2)
      end
  end.
Proof. reflexivity. Qed.

Lemma confined_ret {A} (P : event obj -> Prop) (Q : exn -> Prop) (a : A) :
  confined P Q (ret (World := World) a).
Proof. intros w. split; [constructor | discriminate]. Qed.

Lemma confined_raise {A} (P : event obj -> Prop) (Q : exn -> Prop) (e : exn) :
  Q e -> confined P Q (raise (World := World) (A := A) e).
Proof.
  intros HQ w. split; [constructor|]. intros e' [= <-]. exact HQ.
Qed.

Lemma confined_lift {A} (P : event obj -> Prop) (Q : exn -> Prop) (r : exn + A) :
  (forall e, r = inl e -> Q e) -> confined P Q (lift (World := World) r).
Proof. intros HQ w. split; [constructor | exact HQ]. Qed.

Lemma confined_call {A} (P : event obj -> Prop) (Q : exn -> Prop)
      (who : collaborator) (f : ext World obj A) ev :
  (forall s r s', P (ev s r s')) -> (forall e, Q (CollaboratorError who e)) ->
  confined P Q (call who f ev).
Proof.
  intros HP HQ w. unfold call, calls, outcome.
  destruct (f w) as [[e|a] w1]; simpl.
  - split; [repeat constructor; apply HP|]. intros e' [= <-]. apply HQ.
  - split; [repeat constructor; apply HP | discriminate].
Qed.

Lemma confined_bind {A B} (P : event obj -> Prop) (Q : exn -> Prop)
      (m : M A) (f : A -> M B) :
  confined P Q m -> (forall a, confined P Q (f a)) -> confined P Q (bind m f).
Proof.
  intros Hm Hf w. unfold calls, outcome. rewrite bind_run.
  destruct (Hm w) as [Ht He]. unfold calls, outcome in Ht, He.
  destruct (m w) as [[[e|a] w1] t1]; simpl in *.
  - split; [exact Ht|]. intros e' [= <-]. apply He. reflexivity.
  - destruct (Hf a w1) as [Ht' He']. unfold calls, outcome in Ht', He'.
    destruct (f a w1) as [[r w2] t2]; simpl in *.
    split; [apply Forall_app; split; assumption | exact He'].
Qed.

Lemma confined_for_each {A B} (P : event obj -> Prop) (Q : exn -> Prop)
      (xs : list A) (body : A -> M B) :
  (forall x, confined P Q (body x)) -> confined P Q (for_each xs body).
Proof.
  intros Hb. induction xs as [|x xs IH]; simpl.
  - apply confined_ret.
  - apply confined_bind; [apply Hb|]. intros b.
    apply confined_bind; [exact IH|]. intros bs. apply confined_ret.
Qed.

Lemma returns_ret {A} (R : A -> Prop) (a : A) :
  R a -> returns R (ret (World := World) (obj := obj) a).
Proof. intros HR w. exists a. split; [reflexivity | exact HR]. Qed.

Lemma returns_call {A} (who : collaborator) (f : ext World obj A)
      (ev : state -> py_exception + A -> state -> event obj) :
  succeeds f -> returns (fun _ => True) (call who f ev).
Proof.
  intros Hf w. destruct (Hf w) as (a & w' & E). exists a.
  unfold call, outcome. rewrite E. simpl. auto.
Qed.

Lemma returns_bind {A B} (R : B -> Prop) (m : M A) (f : A -> M B) :
  returns (fun _ => True) m -> (forall a, returns R (f a)) ->
  returns R (bind m f).
Proof.
  intros Hm Hf w. unfold outcome. rewrite bind_run.
  destruct (Hm w) as (a & Ea & _). unfold outcome in Ea.
  destruct (m w) as [[r w1] t1]; simpl in Ea; subst r.
  destruct (Hf a w1) as (b & Eb & HR). unfold outcome in Eb.
  destruct (f a w1) as [[r w2] t2]; simpl in *. eauto.
Qed.

Lemma returns_weaken {A} (R R' : A -> Prop) (m : M A) :
  (forall a, R a -> R' a) -> returns R m -> returns R' m.
Proof.
  intros HR Hm w. destruct (Hm w) as (a & E & Ha). eauto.
Qed.

Lemma returns_for_each {A B} (xs : list A) (body : A -> M B) :
  (forall x, returns (fun _ => True) (body x)) ->
  returns (fun bs => length bs = length xs) (for_each xs body).
Proof.
  intros Hb. induction xs as [|x xs IH]; simpl.
  - apply returns_ret. reflexivity.
  - apply returns_bind; [apply Hb|]. intros b w.
    destruct (IH w) as (bs & E & Hlen). unfold outcome in *. rewrite bind_run.
    destruct (for_each xs body w) as [[r w1] t1]; simpl in E; subst r.
    exists (b :: bs). simpl. auto.
Qed.

(** ** Offline training *)

(** A training step on a given [forward_dict] calls the configurator, the
    amortizer and the optimizer, and nothing else. *)
Lemma train_step_given_confined (P : event obj -> Prop) (Q : exn -> Prop)
      (env : Env) (self : Trainer) (batch_size : nat) (d : ref)
      (kwargs : train_kwargs) :
  (forall ev, is_simulate ev = false -> is_dataset ev = false -> P ev) ->
  (forall who e, who <> TheGenerativeModel -> Q (CollaboratorError who e)) ->
  confined P Q (_train_step env self batch_size (Some d) kwargs).
Proof.
  intros HP HQ. unfold _train_step.
  apply confined_bind; [apply confined_ret|]. intros fd.
  apply confined_bind.
  { apply confined_call; [intros; apply HP; reflexivity|].
    intros; apply HQ; discriminate. }
  intros input_dict. unfold _backprop_step.
  apply confined_bind.
  { apply confined_call; [intros; apply HP; reflexivity|].
    intros; apply HQ; discriminate. }
  intros loss. apply confined_bind; [|intros; apply confined_ret].
  apply confined_call; [intros; apply HP; reflexivity|].
  intros; apply HQ; discriminate.
Qed.

Lemma save_after_epoch_confined (P : event obj -> Prop) (Q : exn -> Prop)
      (env : Env) (self : Trainer) (save_checkpoint : bool) :
  (forall ev, is_simulate ev = false -> is_dataset ev = false -> P ev) ->
  (forall who e, who <> TheGenerativeModel -> Q (CollaboratorError who e)) ->
  confined P Q (save_after_epoch env self save_checkpoint).
Proof.
  intros HP HQ. unfold save_after_epoch.
  destruct (manager self); [destruct save_checkpoint|]; try apply confined_ret.
  apply confined_call; [intros; apply HP; reflexivity|].
  intros; apply HQ; discriminate.
Qed.

Lemma offline_epochs_confined (P : event obj -> Prop) (Q : exn -> Prop)
      (env : Env) (self : Trainer) (data_set : obj) (epochs batch_size : nat)
      (save_checkpoint : bool) (kwargs : train_kwargs) :
  (forall ev, is_simulate ev = false -> is_dataset ev = false -> P ev) ->
  (forall who e, who <> TheGenerativeModel -> Q (CollaboratorError who e)) ->
  (forall msg, Q (ArithmeticError msg)) ->
  confined P Q (offline_epochs env self data_set epochs batch_size
                               save_checkpoint kwargs).
Proof.
  intros HP HQ HA. unfold offline_epochs.
  apply confined_for_each. intros ep.
  apply confined_bind.
  { apply confined_lift. unfold progress_total.
    destruct (Nat.eqb batch_size 0); [|discriminate].
    intros e [= <-]. apply HA. }
  intros _. apply confined_bind.
  { apply confined_call; [intros; apply HP; reflexivity|].
    intros; apply HQ; discriminate. }
  intros batches. apply confined_bind.
  { apply confined_for_each. intros d.
    apply train_step_given_confined; assumption. }
  intros losses_ep. apply confined_bind; [|intros; apply confined_ret].
  apply save_after_epoch_confined; assumption.
Qed.

(** The calls of [train_offline]: [SimulatedDataset] on the dictionary it
    was given, then neither a simulation nor another data set. *)
Lemma train_offline_calls (env : Env) (self : Trainer) (sd : ref)
      (epochs batch_size : nat) (save_checkpoint : bool)
      (kwargs : train_kwargs) (w : state) :
  exists t,
    calls (train_offline env self sd epochs batch_size save_checkpoint kwargs w)
    = EvDataset sd (contents w sd) batch_size :: t /\
    Forall (fun ev => is_simulate ev = false /\ is_dataset ev = false) t.
Proof.
  unfold train_offline, calls. rewrite bind_run. unfold call at 1.
  destruct (SimulatedDataset env sd batch_size w) as [[e|ds] w1].
  - exists []. split; [reflexivity | constructor].
  - pose proof (offline_epochs_confined
                  (fun ev => is_simulate ev = false /\ is_dataset ev = false)
                  (fun _ => True) env self ds epochs batch_size
                  save_checkpoint kwargs) as H.
    destruct (H (fun ev H1 H2 => conj H1 H2) (fun _ _ _ => I) (fun _ => I) w1)
      as [Ht _].
    unfold calls in Ht.
    destruct (offline_epochs env self ds epochs batch_size save_checkpoint
                             kwargs w1) as [[r w2] t2].
    exists t2. split; [reflexivity | exact Ht].
Qed.

Lemma train_offline_raises (env : Env) (self : Trainer) (sd : ref)
      (epochs batch_size : nat) (save_checkpoint : bool)
      (kwargs : train_kwargs) (w : state) (e : exn) :
  outcome (train_offline env self sd epochs batch_size save_checkpoint kwargs w)
  = inl e ->
  (exists who pe, e = CollaboratorError who pe /\ who <> TheGenerativeModel) \/
  (exists msg, e = ArithmeticError msg).
Proof.
  pose (Q := fun e =>
               (exists who pe,
                   e = CollaboratorError who pe /\ who <> TheGenerativeModel) \/
               (exists msg, e = ArithmeticError msg)).
  assert (H : confined (fun _ => True) Q
                (train_offline env self sd epochs batch_size save_checkpoint kwargs)).
  { unfold train_offline. apply confined_bind.
    - apply confined_call; [auto|]. intros pe. left. exists TheDataset, pe.
      split; [reflexivity | discriminate].
    - intros ds. apply offline_epochs_confined; [auto| |].
      + intros who pe Hw. left. exists who, pe. auto.
      + intros msg. right. eauto. }
  intros E. destruct (H w) as [_ He]. apply He, E.
Qed.

Lemma train_step_given_returns (env : Env) (self : Trainer) (batch_size : nat)
      (d : ref) (kwargs : train_kwargs) :
  offline_collaborators_succeed env self ->
  returns (fun _ => True) (_train_step env self batch_size (Some d) kwargs).
Proof.
  intros (_ & _ & Hc & Hl & Hg & _). unfold _train_step.
  apply returns_bind; [apply returns_ret; exact I|]. intros fd.
  apply returns_bind; [apply returns_call, Hc|]. intros input_dict.
  unfold _backprop_step.
  apply returns_bind; [apply returns_call, Hl|]. intros loss.
  apply returns_bind; [apply returns_call, Hg|]. intros _.
  apply returns_ret. exact I.
Qed.

Lemma train_offline_returns (env : Env) (self : Trainer) (sd : ref)
      (epochs batch_size : nat) (save_checkpoint : bool)
      (kwargs : train_kwargs) :
  offline_collaborators_succeed env self -> 0 < batch_size ->
  returns (fun losses => length losses = epochs)
          (train_offline env self sd epochs batch_size save_checkpoint kwargs).
Proof.
  intros Hok Hpos. pose proof Hok as (Hd & Hi & _ & _ & _ & Hs).
  unfold train_offline.
  apply returns_bind; [apply returns_call, Hd|]. intros ds.
  unfold offline_epochs.
  eapply returns_weaken; [|apply returns_for_each].
  - intros losses ->. unfold range1. apply length_seq.
  - intros ep. apply returns_bind.
    { intros s. unfold lift, outcome, progress_total. simpl.
      destruct (Nat.eqb_spec batch_size 0); [lia|]. eauto. }
    intros _. apply returns_bind; [apply returns_call, Hi|]. intros batches.
    apply returns_bind.
    + eapply returns_weaken; [|apply returns_for_each]; [auto|].
      intros d. apply train_step_given_returns, Hok.
    + intros losses_ep. apply returns_bind; [|intros; apply returns_ret; exact I].
      unfold save_after_epoch.
      destruct (manager self); [destruct save_checkpoint|];
        try (apply returns_ret; exact I).
      apply returns_call, Hs.
Qed.

(** C9: offline training makes no call to the generative model and does
    not raise [SimulationError], whatever the trainer's generative model
    is (also when there is none): an exception it raises escaped from the
    data set, the configurator, the amortizer, the optimizer or the
    checkpoint manager, or is the division by a batch size of zero.  When
    those collaborators all return and the batch size is positive, it
    returns the losses of every epoch. *)
Theorem train_offline_never_simulates
        (env : Env) (self : Trainer) (simulations_dict : ref)
        (epochs batch_size : nat) (save_checkpoint : bool)
        (kwargs : train_kwargs) (w : state) :
  let run := train_offline env self simulations_dict epochs batch_size
                           save_checkpoint kwargs w in
  simulate_calls (calls run) = [] /\
  (forall e, outcome run = inl e ->
             is_SimulationError e = false /\
             ((exists who pe, e = CollaboratorError who pe /\
                              who <> TheGenerativeModel) \/
              (exists msg, e = ArithmeticError msg))) /\
  (offline_collaborators_succeed env self -> 0 < batch_size ->
   exists losses, outcome run = inr losses /\ length losses = epochs).
Proof.
  intros run. subst run. split; [|split].
  - destruct (train_offline_calls env self simulations_dict epochs batch_size
                                  save_checkpoint kwargs w) as (t & -> & Ht).
    unfold simulate_calls. simpl.
    induction Ht as [|ev t [Hs _] _ IH]; simpl; [reflexivity|].
    rewrite Hs. exact IH.
  - intros e E.
    destruct (train_offline_raises _ _ _ _ _ _ _ _ _ E)
      as [(who & pe & -> & Hw)|(msg & ->)].
    + split; [reflexivity|]. left. eauto.
    + split; [reflexivity|]. right. eauto.
  - intros Hok Hpos. apply (train_offline_returns _ _ _ _ _ _ _ Hok Hpos w).
Qed.

(** ** Construction *)

Lemma defaults_for_raises (a : Amortizer World obj) (e : exn) :
  defaults_for a = inl e -> is_NotImplementedError e = true.
Proof.
  unfold defaults_for. destruct (amortizer_type a); try discriminate.
  intros [= <-]. reflexivity.
Qed.

Lemma manage_configurator_unknown_amortizer
      (a : Amortizer World obj) (c : config_arg World obj) (r : string) :
  amortizer_type a = OtherAmortizer r ->
  (forall f, c <> ConfigCallable f) ->
  exists msg, _manage_configurator a c = inl (NotImplementedError msg).
Proof.
  intros Ha Hc. unfold _manage_configurator, defaults_for. rewrite Ha.
  destruct c as [f| |s|t]; eauto. destruct (Hc f eq_refl).
Qed.

Lemma manage_configurator_unsupported_string
      (a : Amortizer World obj) (s : string) :
  ~ In s STRING_CONFIGS ->
  exists msg, _manage_configurator a (ConfigStr s) = inl (NotImplementedError msg).
Proof.
  intros Hs. unfold _manage_configurator.
  destruct (defaults_for a) as [e|[[cls cmb] trf]] eqn:Hd.
  - pose proof (defaults_for_raises a e Hd) as He.
    destruct e; try discriminate. eauto.
  - unfold STRING_CONFIGS in Hs. simpl in Hs.
    destruct (String.eqb_spec s "variable_num_obs"); [subst; tauto|].
    destruct (String.eqb_spec s "one_hot"); [subst; tauto|].
    destruct (String.eqb_spec s "variable_num_obs_one_hot"); [subst; tauto|].
    destruct (String.eqb_spec s "one_hot_variable_num_obs"); [subst; tauto|].
    eauto.
Qed.

Lemma init_fails_with_configurator (env : Env) (args : init_args World obj)
      (e : exn) (w : state) :
  _manage_configurator (arg_amortizer args) (arg_configurator args) = inl e ->
  __init__ env args w = (inl e, w, []).
Proof.
  intros H. unfold __init__, init_attributes.
  rewrite bind_run, bind_run. unfold lift. rewrite H. reflexivity.
Qed.

(** C4: construction raises [NotImplementedError], before any collaborator
    is called and without returning a trainer, when the configurator is a
    string outside the supported ones, and when it is [None] or a string
    and the amortizer is none of the three known types. *)
Theorem unsupported_configuration_fails_at_construction
        (env : Env) (args : init_args World obj) (w : state) :
  (forall s,
      arg_configurator args = ConfigStr s -> ~ In s STRING_CONFIGS ->
      exists msg, __init__ env args w = (inl (NotImplementedError msg), w, [])) /\
  (forall r,
      amortizer_type (arg_amortizer args) = OtherAmortizer r ->
      arg_configurator args = ConfigNone \/
      (exists s, arg_configurator args = ConfigStr s) ->
      exists msg, __init__ env args w = (inl (NotImplementedError msg), w, [])).
Proof.
  split.
  - intros s Hc Hs.
    destruct (manage_configurator_unsupported_string (arg_amortizer args) s Hs)
      as (msg & Hm).
    exists msg. apply init_fails_with_configurator. rewrite Hc. exact Hm.
  - intros r Ha Hc.
    destruct (manage_configurator_unknown_amortizer
                (arg_amortizer args) (arg_configurator args) r Ha) as (msg & Hm).
    + intros f Hf. destruct Hc as [Hc|(s & Hc)]; congruence.
    + exists msg. apply init_fails_with_configurator. exact Hm.
Qed.

Lemma init_attributes_fields (env : Env) (args : init_args World obj)
      (self : Trainer) (w w0 : state) (t0 : list (event obj)) :
  init_attributes env args w = (inr self, w0, t0) ->
  generative_model self = arg_generative_model args /\
  amortizer self = arg_amortizer args.
Proof.
  unfold init_attributes. rewrite bind_run. unfold lift at 1.
  destruct (_manage_configurator _ _) as [e|c]; [discriminate|].
  rewrite bind_run.
  destruct (call TheOptimizer _ _ w) as [[[e|o] w1] t1]; [discriminate|].
  rewrite bind_run.
  destruct (arg_checkpoint_path args) as [path|].
  - rewrite bind_run.
    destruct (call TheCheckpoint _ _ w1) as [[[e|cm] w2] t2]; [discriminate|].
    simpl. intros [= <- _ _]. auto.
  - simpl. intros [= <- _ _]. auto.
Qed.

Lemma consistency_pipeline_raises (env : Env) (self : Trainer)
      (gm : GenerativeModel World obj) (w : state) (e : exn) :
  outcome (consistency_pipeline env self gm w) = inl e ->
  exists who pe, e = CollaboratorError who pe.
Proof.
  pose (Q := fun e => exists who pe, e = CollaboratorError who pe).
  assert (H : confined (fun _ => True) Q (consistency_pipeline env self gm)).
  { unfold consistency_pipeline, call_generative_model, call_configurator,
      call_compute_loss.
    repeat (apply confined_bind; [|intros ?]);
      try apply confined_ret;
      (apply confined_call; [auto | intros pe; unfold Q; eauto]). }
  intros E. destruct (H w) as [_ He]. apply He, E.
Qed.

(** C5: at construction with [skip_checks] off and a generative model,
    once the attributes are set, an exception raised by the run
    generative_model -> configurator -> amortizer -> loss that derives
    from [Exception] is caught, and construction raises
    [ConfigurationError] with the context followed by the text of that
    exception.  An exception that does not derive from [Exception] (a
    [KeyboardInterrupt], a [SystemExit]) is not caught by
    [except Exception]: it leaves the check and the constructor as it
    is. *)
Theorem consistency_failure_raises_ConfigurationError
        (env : Env) (args : init_args World obj) (gm : GenerativeModel World obj)
        (self : Trainer) (w w0 w1 : state) (t0 t1 : list (event obj)) (e : exn) :
  arg_skip_checks args = false ->
  arg_generative_model args = Some gm ->
  init_attributes env args w = (inr self, w0, t0) ->
  consistency_pipeline env self gm w0 = (inl e, w1, t1) ->
  exists who pe,
    e = CollaboratorError who pe /\
    let raised :=
      if derives_from_Exception pe
      then ConfigurationError (consistency_context ++ exc_text pe)
      else CollaboratorError who pe in
    _check_consistency env self w0 = (inl raised, w1, t1) /\
    __init__ env args w = (inl raised, w1, t0 ++ t1).
Proof.
  intros Hskip Hgm Hattr Hpipe.
  destruct (consistency_pipeline_raises env self gm w0 e) as (who & pe & ->).
  { unfold outcome. rewrite Hpipe. reflexivity. }
  destruct (init_attributes_fields env args self w w0 t0 Hattr) as [Hg _].
  exists who, pe. split; [reflexivity|]. cbv zeta.
  assert (Hcheck :
            _check_consistency env self w0 =
            (inl (if derives_from_Exception pe
                  then ConfigurationError (consistency_context ++ exc_text pe)
                  else CollaboratorError who pe), w1, t1)).
  { unfold _check_consistency. rewrite Hg, Hgm. unfold try_except.
    rewrite Hpipe. simpl is_Exception.
    destruct (derives_from_Exception pe); [|reflexivity].
    unfold raise. simpl. rewrite app_nil_r. reflexivity. }
  split; [exact Hcheck|].
  unfold __init__. rewrite bind_run, Hattr, Hskip, bind_run, Hcheck.
  reflexivity.
Qed.

(** ** Simulation without a generative model *)

Lemma init_generative_model (env : Env) (args : init_args World obj)
      (self : Trainer) (w w1 : state) (t : list (event obj)) :
  __init__ env args w = (inr self, w1, t) ->
  generative_model self = arg_generative_model args.
Proof.
  unfold __init__. rewrite bind_run.
  destruct (init_attributes env args w) as [[[e|self0] w0] t0] eqn:Hattr;
    [discriminate|].
  destruct (init_attributes_fields env args self0 w w0 t0 Hattr) as [Hg _].
  rewrite bind_run.
  destruct ((if arg_skip_checks args then ret tt
             else _check_consistency env self0) w0) as [[[e|u] w2] t2];
    [discriminate|].
  simpl. intros [= <- _ _]. exact Hg.
Qed.

(** C3: on a trainer constructed without a generative model,
    [_forward_inference] raises [SimulationError] with its message, and so
    do online training (with at least one epoch and one iteration) and
    round-based training (with at least one round), which reach it; no
    collaborator is called and the world is as before. *)
Theorem forward_inference_without_model_raises
        (env : Env) (args : init_args World obj) (self : Trainer)
        (w0 w1 : state) (t0 : list (event obj)) :
  arg_generative_model args = None ->
  __init__ env args w0 = (inr self, w1, t0) ->
  let err : exn :=
    SimulationError
      "No generative model specified. Only offline learning is available!" in
  (forall n_sim kwargs w,
      _forward_inference self n_sim kwargs w = (inl err, w, [])) /\
  (forall epochs iterations_per_epoch batch_size save_checkpoint kwargs w,
      0 < epochs -> 0 < iterations_per_epoch ->
      train_online env self epochs iterations_per_epoch batch_size
                   save_checkpoint kwargs w = (inl err, w, [])) /\
  (forall rounds sim_per_round epochs batch_size save_checkpoint kwargs w,
      0 < rounds ->
      train_rounds env self rounds sim_per_round epochs batch_size
                   save_checkpoint kwargs w = (inl err, w, [])).
Proof.
  intros Hargs Hinit err.
  assert (Hnone : generative_model self = None).
  { rewrite (init_generative_model env args self w0 w1 t0 Hinit). exact Hargs. }
  assert (Hf : forall n_sim kwargs w,
             _forward_inference self n_sim kwargs w = (inl err, w, [])).
  { intros. unfold _forward_inference. rewrite Hnone. reflexivity. }
  split; [exact Hf|]. split.
  - intros [|epochs] [|its] batch_size save_checkpoint kwargs w He Hi; try lia.
    unfold train_online, range1. simpl seq. simpl for_each.
    rewrite bind_run, bind_run, bind_run. unfold _train_step at 1.
    rewrite bind_run, Hf. reflexivity.
  - intros [|rounds] sim_per_round epochs batch_size save_checkpoint kwargs w Hr;
      try lia.
    unfold train_rounds, range1. simpl seq. simpl rounds_loop.
    rewrite bind_run, Hf. reflexivity.
Qed.

(** ** The concatenation loop, on dictionaries *)

Lemma concatenate_entry_inv (k : string) (v v' : value obj) (b : dict obj) :
  concatenate_entry k v b = inr v' ->
  match v with
  | PyNone => v' = PyNone
  | Array a =>
      exists a', lookup b k = Some (Array a') /\
                 item_shape a' = item_shape a /\
                 v' = Array {| item_shape := item_shape a;
                               items := items a ++ items a' |}
  | Scalar _ => False
  end.
Proof.
  unfold concatenate_entry, np_concatenate. destruct v as [|a|o].
  - intros [= <-]. reflexivity.
  - destruct (lookup b k) as [[|a'|o]|]; simpl; try discriminate.
    destruct (list_eq_dec Nat.eq_dec (item_shape a) (item_shape a'));
      [|discriminate].
    intros [= <-]. exists a'. auto.
  - destruct (lookup b k) as [[|a'|o']|]; discriminate.
Qed.

Lemma concatenate_dicts_keys (sd b d : dict obj) :
  concatenate_dicts sd b = inr d -> keys d = keys sd.
Proof.
  revert d. induction sd as [|[k v] sd IH]; simpl; intros d.
  - intros [= <-]. reflexivity.
  - destruct (concatenate_entry k v b) as [e|v']; [discriminate|].
    destruct (concatenate_dicts sd b) as [e|rest]; [discriminate|].
    intros [= <-]. simpl. f_equal. apply IH. reflexivity.
Qed.

(** What one pass of the loop does to the entry of a key. *)
Lemma concatenate_dicts_lookup (sd b d : dict obj) (k : string) :
  concatenate_dicts sd b = inr d ->
  match lookup sd k with
  | None => lookup d k = None
  | Some PyNone => lookup d k = Some PyNone
  | Some (Array a) =>
      exists a', lookup b k = Some (Array a') /\
                 item_shape a' = item_shape a /\
                 lookup d k = Some (Array {| item_shape := item_shape a;
                                             items := items a ++ items a' |})
  | Some (Scalar _) => False
  end.
Proof.
  revert d. induction sd as [|[k0 v] sd IH]; simpl; intros d.
  - intros [= <-]. reflexivity.
  - destruct (concatenate_entry k0 v b) as [e|v'] eqn:Ev; [discriminate|].
    destruct (concatenate_dicts sd b) as [e|rest]; [discriminate|].
    intros [= <-]. simpl.
    destruct (String.eqb_spec k0 k) as [->|Hne].
    + apply concatenate_entry_inv in Ev. destruct v as [|a|o].
      * subst. reflexivity.
      * destruct Ev as (a' & Hb & Hs & ->). exists a'. auto.
      * exact Ev.
    + apply IH. reflexivity.
Qed.

Lemma accumulate_snoc (sd : dict obj) (batches : list (dict obj)) (b : dict obj) :
  accumulate sd (batches ++ [b]) =
  match accumulate sd batches with
  | inl e => inl e
  | inr d => concatenate_dicts d b
  end.
Proof.
  revert sd. induction batches as [|b0 batches IH]; simpl; intros sd.
  - destruct (concatenate_dicts sd b); reflexivity.
  - destruct (concatenate_dicts sd b0); [reflexivity | apply IH].
Qed.

Lemma accumulate_keys (sd : dict obj) (batches : list (dict obj)) (d : dict obj) :
  accumulate sd batches = inr d -> keys d = keys sd.
Proof.
  revert sd. induction batches as [|b batches IH]; simpl; intros sd.
  - intros [= <-]. reflexivity.
  - destruct (concatenate_dicts sd b) as [e|sd'] eqn:E; [discriminate|].
    intros H. rewrite (IH _ H). eapply concatenate_dicts_keys, E.
Qed.

(** What the passes over [batches] do to the entry of a key. *)
Lemma accumulate_lookup (sd : dict obj) (batches : list (dict obj))
      (d : dict obj) (k : string) :
  accumulate sd batches = inr d ->
  match lookup sd k with
  | None => lookup d k = None
  | Some PyNone => lookup d k = Some PyNone
  | Some (Array a) =>
      Forall (fun b => exists a', lookup b k = Some (Array a')) batches /\
      exists a', lookup d k = Some (Array a') /\
                 items a' = items a ++ flat_map (samples_at k) batches
  | Some (Scalar o) => batches = [] /\ lookup d k = Some (Scalar o)
  end.
Proof.
  revert sd. induction batches as [|b batches IH]; simpl; intros sd.
  - intros [= <-]. destruct (lookup sd k) as [[|a|o]|]; auto.
    split; [constructor|]. exists a. rewrite app_nil_r. auto.
  - destruct (concatenate_dicts sd b) as [e|sd'] eqn:E; [discriminate|].
    intros H. specialize (IH _ H).
    pose proof (concatenate_dicts_lookup sd b sd' k E) as Hstep.
    destruct (lookup sd k) as [[|a|o]|].
    + rewrite Hstep in IH. exact IH.
    + destruct Hstep as (a' & Hb & _ & Hd). rewrite Hd in IH. simpl in IH.
      destruct IH as (HF & a'' & Hl & Hi). split.
      * constructor; [eauto | exact HF].
      * exists a''. split; [exact Hl|]. rewrite Hi.
        unfold samples_at at 2. rewrite Hb. apply eq_sym, app_assoc.
    + destruct Hstep.
    + rewrite Hstep in IH. exact IH.
Qed.

(** An array of the accumulated dictionary holds the samples of all the
    batches, in order. *)
Lemma accumulate_array (first : dict obj) (rest : list (dict obj))
      (d : dict obj) (k : string) (a : ndarray obj) :
  accumulate first rest = inr d -> lookup d k = Some (Array a) ->
  Forall (fun b => exists a', lookup b k = Some (Array a')) (first :: rest) /\
  items a = flat_map (samples_at k) (first :: rest).
Proof.
  intros Hacc Hd. pose proof (accumulate_lookup first rest d k Hacc) as H.
  simpl. unfold samples_at at 1.
  destruct (lookup first k) as [[|a1|o]|] eqn:Hf; try congruence.
  - destruct H as (HF & a' & Hl & Hi).
    assert (a' = a) by congruence. subst a'.
    split; [constructor; eauto | exact Hi].
  - destruct H as [_ H]. congruence.
Qed.

Lemma accumulate_none (first : dict obj) (rest : list (dict obj))
      (d : dict obj) (k : string) :
  accumulate first rest = inr d -> lookup first k = Some PyNone ->
  lookup d k = Some PyNone.
Proof.
  intros Hacc Hk. pose proof (accumulate_lookup first rest d k Hacc) as H.
  rewrite Hk in H. exact H.
Qed.

Lemma flat_map_samples_length (k : string) (batches : list (dict obj)) (n : nat) :
  Forall (fun b => forall a, lookup b k = Some (Array a) -> n_samples a = n)
         batches ->
  Forall (fun b => exists a', lookup b k = Some (Array a')) batches ->
  length (flat_map (samples_at k) batches) = length batches * n.
Proof.
  induction 1 as [|b batches Hb _ IH]; intros HF; [reflexivity|].
  inversion HF as [|? ? (a' & Ha') HF']; subst. simpl.
  rewrite length_app, (IH HF'). unfold samples_at. rewrite Ha'.
  specialize (Hb a' Ha'). unfold n_samples in Hb. lia.
Qed.

(** ** The concatenation loop, in place *)

Lemma lookup_app_notin (front back : dict obj) (k : string) :
  ~ In k (keys front) -> lookup (front ++ back) k = lookup back k.
Proof.
  induction front as [|[k0 v0] front IH]; simpl; intros Hk; [reflexivity|].
  destruct (String.eqb_spec k0 k) as [->|Hne]; [tauto|]. apply IH. tauto.
Qed.

Lemma set_value_app_notin (front back : dict obj) (k : string) (v v' : value obj) :
  ~ In k (keys front) ->
  set_value k v' (front ++ (k, v) :: back) = front ++ (k, v') :: back.
Proof.
  induction front as [|[k0 v0] front IH]; simpl; intros Hk.
  - rewrite String.eqb_refl. reflexivity.
  - destruct (String.eqb_spec k0 k) as [->|Hne]; [tauto|].
    f_equal. apply IH. tauto.
Qed.

Lemma NoDup_keys_front (front back : dict obj) (k : string) (v : value obj) :
  NoDup (keys (front ++ (k, v) :: back)) -> ~ In k (keys front).
Proof.
  unfold keys. rewrite map_app. simpl. intros H Hin.
  apply NoDup_remove_2 in H. apply H. apply in_or_app. auto.
Qed.

Lemma keys_replace_value (front back : dict obj) (k : string) (v v' : value obj) :
  keys (front ++ (k, v') :: back) = keys (front ++ (k, v) :: back).
Proof. unfold keys. rewrite !map_app. reflexivity. Qed.

Lemma nth_error_replace_nth_same {A} (n : nat) (x y : A) (l : list A) :
  nth_error l n = Some y -> nth_error (replace_nth n x l) n = Some x.
Proof.
  revert n. induction l as [|z l IH]; intros [|n]; simpl; try discriminate; auto.
Qed.

Lemma nth_error_replace_nth_other {A} (n m : nat) (x : A) (l : list A) :
  n <> m -> nth_error (replace_nth n x l) m = nth_error l m.
Proof.
  revert n m. induction l as [|z l IH]; intros [|n] [|m] Hne; simpl; auto;
    try contradiction.
Qed.

Lemma replace_nth_twice {A} (n : nat) (x y : A) (l : list A) :
  replace_nth n x (replace_nth n y l) = replace_nth n x l.
Proof.
  revert n. induction l as [|z l IH]; intros [|n]; simpl; auto.
  f_equal. apply IH.
Qed.

Lemma replace_nth_same {A} (n : nat) (x : A) (l : list A) :
  nth_error l n = Some x -> replace_nth n x l = l.
Proof.
  revert n. induction l as [|z l IH]; intros [|n]; simpl; try discriminate.
  - intros [= ->]. reflexivity.
  - intros H. f_equal. apply IH, H.
Qed.

Lemma bind_returned {A B} (m : M A) (f : A -> M B) (s s1 : state) (a : A) :
  m s = (inr a, s1, []) -> bind m f s = f a s1.
Proof.
  intros H. rewrite bind_run, H. destruct (f a s1) as [[r s2] t2]. reflexivity.
Qed.

Lemma bind_raised {A B} (m : M A) (f : A -> M B) (s s1 : state) (e : exn) t :
  m s = (inl e, s1, t) -> bind m f s = (inl e, s1, t).
Proof. intros H. rewrite bind_run, H. reflexivity. Qed.

(** One key of a dictionary with distinct keys. *)
Lemma concatenate_key_run (sd r : ref) (b : dict obj) (k : string)
      (v : value obj) (front back : dict obj) (s : state) :
  sd <> r ->
  contents s sd = Some (front ++ (k, v) :: back) ->
  contents s r = Some b ->
  ~ In k (keys front) ->
  match concatenate_entry k v b with
  | inr v' =>
      concatenate_key k sd r s =
      (inr tt,
       {| world := world s;
          heap := replace_nth sd (front ++ (k, v') :: back) (heap s) |},
       [])
  | inl e => concatenate_key k sd r s = (inl e, s, [])
  end.
Proof.
  intros Hne Hsd Hr Hk.
  assert (Hget : getitem sd k s = (inr v, s, [])).
  { unfold getitem. rewrite Hsd, lookup_app_notin by exact Hk.
    simpl. rewrite String.eqb_refl. reflexivity. }
  assert (Hset : forall c,
             setitem sd k c s =
             (inr tt,
              {| world := world s;
                 heap := replace_nth sd (front ++ (k, c) :: back) (heap s) |},
              [])).
  { intros c. unfold setitem.
    rewrite Hsd, set_value_app_notin by exact Hk. reflexivity. }
  assert (Hother :
            forall v0,
              (v_r <- getitem r k ;;
               c <- lift (np_concatenate v0 v_r) ;;
               setitem sd k c)%trainer s =
              match lookup b k with
              | None => (inl (KeyError k), s, [])
              | Some v_r =>
                  match np_concatenate v0 v_r with
                  | inl e => (inl e, s, [])
                  | inr c =>
                      (inr tt,
                       {| world := world s;
                          heap := replace_nth sd (front ++ (k, c) :: back)
                                              (heap s) |},
                       [])
                  end
              end).
  { intros v0. unfold getitem at 1. rewrite bind_run, Hr.
    destruct (lookup b k) as [v_r|]; [|reflexivity].
    rewrite bind_run. unfold lift.
    destruct (np_concatenate v0 v_r) as [e|c]; [reflexivity|].
    rewrite Hset. reflexivity. }
  unfold concatenate_key. rewrite (bind_returned _ _ s s v Hget).
  unfold concatenate_entry. destruct v as [|a|o].
  - unfold ret. rewrite replace_nth_same by exact Hsd. destruct s; reflexivity.
  - rewrite Hother. destruct (lookup b k) as [v_r|]; [|reflexivity].
    destruct (np_concatenate (Array a) v_r); reflexivity.
  - rewrite Hother. destruct (lookup b k) as [v_r|]; [|reflexivity].
    destruct (np_concatenate (Scalar o) v_r); reflexivity.
Qed.

(** On a dictionary with distinct keys, and with the new simulation in
    another dictionary [b], the loop over the keys not yet visited leaves
    in their place what [concatenate_dicts] makes of them, and fails when
    [concatenate_dicts] fails, with the same exception. *)
Lemma concatenate_keys_run (sd r : ref) (b : dict obj) :
  sd <> r ->
  forall (todo done : dict obj) (s : state),
    contents s sd = Some (done ++ todo) ->
    contents s r = Some b ->
    NoDup (keys (done ++ todo)) ->
    match concatenate_dicts todo b with
    | inr todo' =>
        concatenate_keys (World := World) (keys todo) sd r s =
        (inr tt,
         {| world := world s;
            heap := replace_nth sd (done ++ todo') (heap s) |},
         [])
    | inl e =>
        exists s', concatenate_keys (World := World) (keys todo) sd r s
                   = (inl e, s', [])
    end.
Proof.
  intros Hne. induction todo as [|[k v] todo IH]; intros done s Hsd Hr Hnd.
  - simpl. unfold ret. rewrite replace_nth_same by exact Hsd.
    destruct s; reflexivity.
  - assert (Hk : ~ In k (keys done)) by (eapply NoDup_keys_front, Hnd).
    pose proof (concatenate_key_run sd r b k v done todo s Hne Hsd Hr Hk) as Hkey.
    simpl keys. simpl concatenate_keys. simpl concatenate_dicts.
    destruct (concatenate_entry k v b) as [e|v'].
    + exists s. apply bind_raised, Hkey.
    + rewrite (bind_returned _ _ _ _ _ Hkey).
      specialize (IH (done ++ [(k, v')])
                     {| world := world s;
                        heap := replace_nth sd (done ++ (k, v') :: todo)
                                            (heap s) |}).
      rewrite <- !app_assoc in IH. simpl in IH.
      unfold contents in IH. simpl in IH.
      rewrite (nth_error_replace_nth_same sd _ _ _ Hsd) in IH.
      rewrite nth_error_replace_nth_other in IH by exact Hne.
      specialize (IH eq_refl Hr).
      rewrite (keys_replace_value done todo k v v') in IH.
      specialize (IH Hnd).
      destruct (concatenate_dicts todo b) as [e|todo']; [exact IH|].
      rewrite replace_nth_twice, <- app_assoc in IH. exact IH.
Qed.

(** ** Dictionaries that exist are left alone *)

Lemma keeps_ret {A} (a : A) : keeps (ret (World := World) (obj := obj) a).
Proof. intros s. exists []. simpl. rewrite app_nil_r. reflexivity. Qed.

Lemma keeps_call {A} (who : collaborator) (f : ext World obj A)
      (ev : state -> py_exception + A -> state -> event obj) :
  keeps_dicts f -> keeps (call who f ev).
Proof.
  intros Hf s. destruct (Hf s) as (new & Hnew). exists new.
  unfold call, state_after. destruct (f s) as [[e|a] s1]; exact Hnew.
Qed.

Lemma keeps_bind {A B} (m : M A) (f : A -> M B) :
  keeps m -> (forall a, keeps (f a)) -> keeps (bind m f).
Proof.
  intros Hm Hf s. unfold state_after. rewrite bind_run.
  destruct (Hm s) as (new & Hnew). unfold state_after in Hnew.
  destruct (m s) as [[[e|a] s1] t1]; simpl in *.
  - exists new. exact Hnew.
  - destruct (Hf a s1) as (new' & Hnew'). unfold state_after in Hnew'.
    destruct (f a s1) as [[r s2] t2]; simpl in *.
    exists (new ++ new'). rewrite Hnew', Hnew. apply eq_sym, app_assoc.
Qed.

Lemma keeps_for_each {A B} (xs : list A) (body : A -> M B) :
  (forall x, keeps (body x)) -> keeps (for_each xs body).
Proof.
  intros Hb. induction xs as [|x xs IH]; simpl.
  - apply keeps_ret.
  - apply keeps_bind; [apply Hb|]. intros b.
    apply keeps_bind; [exact IH|]. intros bs. apply keeps_ret.
Qed.

Lemma train_offline_keeps (env : Env) (self : Trainer) (sd : ref)
      (epochs batch_size : nat) (save_checkpoint : bool)
      (kwargs : train_kwargs) :
  offline_collaborators_keep_dicts env self ->
  keeps (train_offline env self sd epochs batch_size save_checkpoint kwargs).
Proof.
  intros (Hd & Hi & Hc & Hl & Hg & Hs). unfold train_offline.
  apply keeps_bind; [apply keeps_call, Hd|]. intros ds.
  unfold offline_epochs. apply keeps_for_each. intros ep.
  apply keeps_bind.
  { intros s. exists []. unfold lift, state_after. simpl.
    rewrite app_nil_r. reflexivity. }
  intros _. apply keeps_bind; [apply keeps_call, Hi|]. intros batches.
  apply keeps_bind.
  - apply keeps_for_each. intros d. unfold _train_step.
    apply keeps_bind; [apply keeps_ret|]. intros fd.
    apply keeps_bind; [apply keeps_call, Hc|]. intros input_dict.
    unfold _backprop_step.
    apply keeps_bind; [apply keeps_call, Hl|]. intros loss.
    apply keeps_bind; [apply keeps_call, Hg|]. intros _. apply keeps_ret.
  - intros losses_ep. apply keeps_bind; [|intros; apply keeps_ret].
    unfold save_after_epoch.
    destruct (manager self); [destruct save_checkpoint|]; try apply keeps_ret.
    apply keeps_call, Hs.
Qed.

Lemma contents_kept (s s' : state) (new : list (dict obj)) (d : ref) (x : dict obj) :
  heap s' = heap s ++ new -> contents s d = Some x -> contents s' d = Some x.
Proof.
  unfold contents. intros -> H. rewrite nth_error_app1; [exact H|].
  apply nth_error_Some. congruence.
Qed.

(** ** Round-based training *)

Lemma confined_call_result {A} (P : event obj -> Prop) (Q : exn -> Prop)
      (who : collaborator) (f : ext World obj A) ev :
  (forall s, P (ev s (fst (f s)) (snd (f s)))) ->
  (forall e, Q (CollaboratorError who e)) ->
  confined P Q (call who f ev).
Proof.
  intros HP HQ s. unfold call, calls, outcome. specialize (HP s).
  destruct (f s) as [[e|a] s1]; simpl in *.
  - split; [repeat constructor; exact HP|]. intros e' [= <-]. apply HQ.
  - split; [repeat constructor; exact HP | discriminate].
Qed.

Lemma train_offline_confined (P : event obj -> Prop)
      (env : Env) (self : Trainer) (sd : ref) (epochs batch_size : nat)
      (save_checkpoint : bool) (kwargs : train_kwargs) :
  (forall ev, is_simulate ev = false -> P ev) ->
  confined P (fun _ => True)
           (train_offline env self sd epochs batch_size save_checkpoint kwargs).
Proof.
  intros HP. unfold train_offline. apply confined_bind.
  - apply confined_call; [intros; apply HP; reflexivity | auto].
  - intros ds. apply offline_epochs_confined; auto.
Qed.

Lemma quiet_calls (t : list (event obj)) :
  Forall (fun ev => is_simulate ev = false /\ is_dataset ev = false) t ->
  datasets t = [] /\ simulated t = [].
Proof.
  induction 1 as [|ev t [Hs Hd] _ [IH1 IH2]]; [split; reflexivity|].
  unfold datasets, simulated in *.
  destruct ev; simpl in *; try discriminate; auto.
Qed.

Lemma datasets_app (t1 t2 : list (event obj)) :
  datasets (t1 ++ t2) = datasets t1 ++ datasets t2.
Proof. apply flat_map_app. Qed.

Lemma simulated_app (t1 t2 : list (event obj)) :
  simulated (t1 ++ t2) = simulated t1 ++ simulated t2.
Proof. apply flat_map_app. Qed.

(** [train_offline] on a dictionary: the one data set it is started on is
    what the dictionary holds, and the dictionary holds the same
    afterwards. *)
Lemma train_offline_step (env : Env) (self : Trainer) (sd : ref) (d : dict obj)
      (epochs batch_size : nat) (save_checkpoint : bool)
      (kwargs : train_kwargs) (s : state) :
  offline_collaborators_keep_dicts env self ->
  contents s sd = Some d ->
  let run := train_offline env self sd epochs batch_size save_checkpoint kwargs s in
  datasets (calls run) = [d] /\ simulated (calls run) = [] /\
  contents (state_after run) sd = Some d.
Proof.
  intros Hkeep Hsd run. subst run.
  destruct (train_offline_calls env self sd epochs batch_size save_checkpoint
                                kwargs s) as (t & -> & Ht).
  destruct (quiet_calls t Ht) as [Hd Hs]. unfold datasets, simulated in *.
  simpl. rewrite Hsd, Hd, Hs. split; [reflexivity|]. split; [reflexivity|].
  destruct (train_offline_keeps env self sd epochs batch_size save_checkpoint
                                kwargs Hkeep s) as (new & Hnew).
  eapply contents_kept; eauto.
Qed.

(** A simulation by a generative model that returns new dictionaries. *)
Lemma forward_inference_step (self : Trainer) (gm : GenerativeModel World obj)
      (n_sim : nat) (kwargs : keywords) (s : state) :
  generative_model self = Some gm -> returns_new_dict gm ->
  let run := _forward_inference self n_sim kwargs s in
  datasets (calls run) = [] /\
  (exists new, heap (state_after run) = heap s ++ new) /\
  match outcome run with
  | inl _ => True
  | inr r =>
      length (heap s) <= r /\
      exists b, simulated (calls run) = [b] /\
                contents (state_after run) r = Some b /\ NoDup (keys b)
  end.
Proof.
  intros Hgm Hnew run. subst run.
  unfold _forward_inference. rewrite Hgm.
  unfold call_generative_model, call, calls, outcome, state_after.
  destruct (Hnew n_sim kwargs s) as (new & Hheap & Hout).
  destruct (gm n_sim kwargs s) as [[pe|r] s1]; simpl in *.
  - split; [reflexivity|]. split; [eauto | exact I].
  - split; [reflexivity|]. split; [eauto|].
    destruct (Hout r eq_refl) as (Hle & b & Hb & Hnd).
    split; [exact Hle|]. exists b. unfold simulated. simpl. rewrite Hb. auto.
Qed.

(** The data generation step of a later round. *)
Lemma simulate_further_step (self : Trainer) (gm : GenerativeModel World obj)
      (sim_per_round : nat) (kwargs : train_kwargs) (sd : ref) (d : dict obj)
      (s : state) :
  generative_model self = Some gm -> returns_new_dict gm ->
  contents s sd = Some d -> NoDup (keys d) ->
  let run := simulate_further self sim_per_round kwargs sd s in
  datasets (calls run) = [] /\
  match outcome run with
  | inl _ => True
  | inr sd' =>
      sd' = sd /\
      exists b d',
        simulated (calls run) = [b] /\
        concatenate_dicts d b = inr d' /\
        contents (state_after run) sd = Some d'
  end.
Proof.
  intros Hgm Hnew Hsd Hnd run. subst run. unfold simulate_further.
  pose proof (forward_inference_step self gm sim_per_round (as_keywords kwargs)
                                     s Hgm Hnew) as (Hds & (new & Hheap) & Hout).
  unfold calls, outcome, state_after in *. rewrite bind_run.
  destruct (_forward_inference self sim_per_round (as_keywords kwargs) s)
    as [[[e|r] s1] t1]; simpl in *; [auto|].
  destruct Hout as (Hle & b & Hsim & Hb & Hndb).
  assert (Hsd1 : contents s1 sd = Some d) by (eapply contents_kept; eauto).
  assert (Hne : sd <> r).
  { assert (sd < length (heap s)) by (apply nth_error_Some; unfold contents in Hsd; congruence).
    lia. }
  assert (Hkeys : dict_keys sd s1 = (inr (keys d), s1, [])).
  { unfold dict_keys. rewrite Hsd1. reflexivity. }
  rewrite (bind_returned _ _ _ _ _ Hkeys).
  pose proof (concatenate_keys_run sd r b Hne d [] s1 Hsd1 Hb Hnd) as Hrun.
  destruct (concatenate_dicts d b) as [e|d'] eqn:Ec.
  - destruct Hrun as (s' & Hrun). rewrite (bind_raised _ _ _ _ _ _ Hrun).
    rewrite app_nil_r. simpl. auto.
  - rewrite (bind_returned _ _ _ _ _ Hrun). unfold ret. simpl.
    rewrite app_nil_r. split; [exact Hds|]. split; [reflexivity|].
    exists b, d'. split; [exact Hsim|]. split; [exact Ec|].
    unfold contents. simpl.
    eapply nth_error_replace_nth_same. exact Hsd1.
Qed.

(** The rounds after the first: the dictionary of each round is the
    current one after the concatenation loop went over the simulations
    that came back since. *)
Lemma rounds_loop_datasets (env : Env) (self : Trainer)
      (gm : GenerativeModel World obj)
      (sim_per_round epochs batch_size : nat) (save_checkpoint : bool)
      (kwargs : train_kwargs) (rs : list nat) :
  generative_model self = Some gm ->
  returns_new_dict gm ->
  offline_collaborators_keep_dicts env self ->
  forall (sd : ref) (d0 : dict obj) (losses : list (nat * losses_dict))
         (s : state),
    contents s sd = Some d0 -> NoDup (keys d0) ->
    let run := rounds_loop env self rs false sd losses sim_per_round epochs
                           batch_size save_checkpoint kwargs s in
    (forall i d,
        nth_error (datasets (calls run)) i = Some d ->
        i < length (simulated (calls run)) /\
        accumulate d0 (firstn (S i) (simulated (calls run))) = inr d) /\
    (forall l,
        outcome run = inr l ->
        length (datasets (calls run)) = length rs /\
        length (simulated (calls run)) = length rs /\
        map fst l = map fst losses ++ rs).
Proof.
  intros Hgm Hnew Hkeep.
  induction rs as [|n rs IH]; intros sd d0 losses s Hsd Hnd run; subst run.
  - simpl. split.
    + intros [|i] d H; discriminate.
    + intros l [= <-]. rewrite app_nil_r. auto.
  - simpl rounds_loop. rewrite bind_run.
    pose proof (simulate_further_step self gm sim_per_round kwargs sd d0 s
                                      Hgm Hnew Hsd Hnd) as [Hds Hout].
    unfold calls, outcome, state_after in Hds, Hout.
    destruct (simulate_further self sim_per_round kwargs sd s)
      as [[[e|sd'] s1] t1]; simpl in Hds, Hout.
    { unfold calls, outcome. simpl. rewrite Hds.
      split; [intros [|i] d H; discriminate | intros l H; discriminate]. }
    destruct Hout as (-> & b & d1 & Hsim & Ec & Hsd1).
    rewrite bind_run.
    pose proof (train_offline_step env self sd d1 epochs batch_size
                  save_checkpoint kwargs s1 Hkeep Hsd1) as (Hd & Hs & Hsd2).
    unfold calls, state_after in Hd, Hs, Hsd2.
    destruct (train_offline env self sd epochs batch_size save_checkpoint
                            kwargs s1) as [[[e|losses_r] s2] t2];
      simpl in Hd, Hs, Hsd2.
    + unfold calls, outcome. simpl.
      rewrite datasets_app, simulated_app, Hds, Hsim, Hd, Hs. simpl. split.
      * intros [|[|i]] d H; try discriminate. injection H as <-.
        rewrite Ec. split; [lia | reflexivity].
      * intros l H. discriminate.
    + assert (Hnd1 : NoDup (keys d1))
        by (rewrite (concatenate_dicts_keys d0 b d1 Ec); exact Hnd).
      specialize (IH sd d1 (losses ++ [(n, losses_r)]) s2 Hsd2 Hnd1).
      destruct (rounds_loop env self rs false sd (losses ++ [(n, losses_r)])
                            sim_per_round epochs batch_size save_checkpoint
                            kwargs s2) as [[r3 s3] t3].
      destruct IH as [IH1 IH2].
      unfold calls, outcome in *. simpl in IH1, IH2. simpl.
      rewrite !datasets_app, !simulated_app, Hds, Hsim, Hd, Hs. simpl. split.
      * intros [|i] d H.
        -- injection H as <-. rewrite Ec. split; [lia | reflexivity].
        -- simpl in H. destruct (IH1 i d H) as [Hlt Hacc].
           split; [lia|]. rewrite Ec. exact Hacc.
      * intros l H. destruct (IH2 l H) as (H1 & H2 & H3).
        rewrite H1, H2, H3, map_app, <- app_assoc. auto.
Qed.

(** The dictionary of round [i + 1] is the first simulation after the
    concatenation loop went over the [i] simulations that followed. *)
Lemma train_rounds_datasets (env : Env) (self : Trainer)
      (gm : GenerativeModel World obj)
      (rounds sim_per_round epochs batch_size : nat) (save_checkpoint : bool)
      (kwargs : train_kwargs) (s : state) :
  generative_model self = Some gm ->
  returns_new_dict gm ->
  offline_collaborators_keep_dicts env self ->
  let run := train_rounds env self rounds sim_per_round epochs batch_size
                          save_checkpoint kwargs s in
  (forall i d,
      nth_error (datasets (calls run)) i = Some d ->
      i < length (simulated (calls run)) /\
      exists first rest,
        firstn (S i) (simulated (calls run)) = first :: rest /\
        accumulate first rest = inr d) /\
  (forall l,
      outcome run = inr l ->
      length (datasets (calls run)) = rounds /\
      length (simulated (calls run)) = rounds /\
      map fst l = range1 rounds).
Proof.
  intros Hgm Hnew Hkeep run. subst run. unfold train_rounds, range1.
  destruct rounds as [|rounds].
  - simpl. split.
    + intros [|i] d H; discriminate.
    + intros l [= <-]. auto.
  - simpl seq. simpl rounds_loop. rewrite bind_run.
    pose proof (forward_inference_step self gm sim_per_round
                  (as_keywords kwargs) s Hgm Hnew) as (Hds & _ & Hout).
    unfold calls, outcome, state_after in Hds, Hout.
    destruct (_forward_inference self sim_per_round (as_keywords kwargs) s)
      as [[[e|sd] s1] t1]; simpl in Hds, Hout.
    { unfold calls, outcome. simpl. rewrite Hds.
      split; [intros [|i] d H; discriminate | intros l H; discriminate]. }
    destruct Hout as (_ & b & Hsim & Hsd1 & Hnd).
    rewrite bind_run.
    pose proof (train_offline_step env self sd b epochs batch_size
                  save_checkpoint kwargs s1 Hkeep Hsd1) as (Hd & Hs & Hsd2).
    unfold calls, state_after in Hd, Hs, Hsd2.
    destruct (train_offline env self sd epochs batch_size save_checkpoint
                            kwargs s1) as [[[e|losses_r] s2] t2];
      simpl in Hd, Hs, Hsd2.
    + unfold calls, outcome. simpl.
      rewrite datasets_app, simulated_app, Hds, Hsim, Hd, Hs. simpl. split.
      * intros [|[|i]] d H; try discriminate. injection H as <-.
        split; [lia|]. exists b, []. auto.
      * intros l H. discriminate.
    + pose proof (rounds_loop_datasets env self gm sim_per_round epochs
                    batch_size save_checkpoint kwargs (seq 2 rounds)
                    Hgm Hnew Hkeep sd b [(1, losses_r)] s2 Hsd2 Hnd) as IH.
      destruct (rounds_loop env self (seq 2 rounds) false sd [(1, losses_r)]
                            sim_per_round epochs batch_size save_checkpoint
                            kwargs s2) as [[r3 s3] t3].
      destruct IH as [IH1 IH2].
      unfold calls, outcome in *. simpl in IH1, IH2. simpl.
      rewrite !datasets_app, !simulated_app, Hds, Hsim, Hd, Hs. simpl. split.
      * intros [|i] d H.
        -- injection H as <-. split; [lia|]. exists b, []. auto.
        -- simpl in H. destruct (IH1 i d H) as [Hlt Hacc].
           split; [lia|]. eauto.
      * intros l H. destruct (IH2 l H) as (H1 & H2 & H3).
        rewrite H1, H2, H3, length_seq. auto.
Qed.

(** ** How many simulations a batch holds *)

Lemma silent_confined {A} (P : event obj -> Prop) (m : M A) :
  (forall s, calls (m s) = []) -> confined P (fun _ => True) m.
Proof. intros H s. rewrite H. split; [constructor | auto]. Qed.

Lemma concatenate_key_confined (P : event obj -> Prop) (k : string)
      (sd sd_r : ref) :
  confined P (fun _ => True) (concatenate_key (World := World) k sd sd_r).
Proof.
  unfold concatenate_key.
  apply confined_bind.
  { apply silent_confined. intros s. unfold getitem, calls.
    destruct (contents s sd) as [d|]; [destruct (lookup d k)|]; reflexivity. }
  intros v.
  assert (H : confined P (fun _ => True)
                (v_r <- getitem (World := World) sd_r k ;;
                 c <- lift (np_concatenate v v_r) ;;
                 setitem sd k c)%trainer).
  { apply confined_bind.
    { apply silent_confined. intros s. unfold getitem, calls.
      destruct (contents s sd_r) as [d|]; [destruct (lookup d k)|]; reflexivity. }
    intros v_r. apply confined_bind; [apply confined_lift; auto|].
    intros c. apply silent_confined. intros s. unfold setitem, calls.
    destruct (contents s sd); reflexivity. }
  destruct v; [apply confined_ret | exact H | exact H].
Qed.

Lemma concatenate_keys_confined (P : event obj -> Prop) (ks : list string)
      (sd sd_r : ref) :
  confined P (fun _ => True) (concatenate_keys (World := World) ks sd sd_r).
Proof.
  induction ks as [|k ks IH]; simpl; [apply confined_ret|].
  apply confined_bind; [apply concatenate_key_confined | intros; exact IH].
Qed.

Lemma forward_inference_asked (self : Trainer) (gm : GenerativeModel World obj)
      (n_sim : nat) (kwargs : keywords) :
  generative_model self = Some gm ->
  confined (asked_of gm n_sim) (fun _ => True)
           (_forward_inference self n_sim kwargs).
Proof.
  intros Hgm. unfold _forward_inference. rewrite Hgm.
  apply confined_call_result; [|auto].
  intros s. split; [reflexivity|]. exists s. auto.
Qed.

Lemma rounds_loop_asked (env : Env) (self : Trainer)
      (gm : GenerativeModel World obj)
      (sim_per_round epochs batch_size : nat) (save_checkpoint : bool)
      (kwargs : train_kwargs) (rs : list nat) :
  generative_model self = Some gm ->
  forall first_round sd losses,
    confined (asked_of gm sim_per_round) (fun _ => True)
             (rounds_loop env self rs first_round sd losses sim_per_round
                          epochs batch_size save_checkpoint kwargs).
Proof.
  intros Hgm. induction rs as [|r rs IH]; intros first_round sd losses; simpl.
  - apply confined_ret.
  - apply confined_bind.
    + destruct first_round.
      * apply forward_inference_asked, Hgm.
      * unfold simulate_further.
        apply confined_bind; [apply forward_inference_asked, Hgm|].
        intros b. apply confined_bind.
        { apply silent_confined. intros s. unfold dict_keys, calls.
          destruct (contents s sd); reflexivity. }
        intros ks. apply confined_bind; [apply concatenate_keys_confined|].
        intros _. apply confined_ret.
    + intros sd'. apply confined_bind; [|intros; apply IH].
      apply train_offline_confined.
      intros ev Hev. destruct ev; simpl in *; auto; discriminate.
Qed.

Lemma asked_simulated (gm : GenerativeModel World obj) (n : nat)
      (t : list (event obj)) :
  simulates_n_sim gm -> Forall (asked_of gm n) t ->
  Forall (fun b => forall k a, lookup b k = Some (Array a) -> n_samples a = n)
         (simulated t).
Proof.
  intros Hgm. induction 1 as [|ev t Hev _ IH]; [constructor|].
  destruct ev as [n' kw [pe|d] [b|]| | | | | | | |]; try exact IH.
  change (simulated (EvSimulate n' kw (inr d) (Some b) :: t))
    with (b :: simulated t).
  constructor; [|exact IH].
  destruct Hev as (-> & s & Hout & Hret). intros k a.
  eapply (Hgm n kw s d b); [congruence | congruence].
Qed.

Lemma Forall_firstn {A} (P : A -> Prop) (n : nat) (l : list A) :
  Forall P l -> Forall P (firstn n l).
Proof.
  intros H. rewrite <- (firstn_skipn n l) in H.
  apply Forall_app in H. tauto.
Qed.

Lemma firstn_succ_nth {A} (n : nat) (l : list A) :
  n < length l ->
  exists x, nth_error l n = Some x /\ firstn (S n) l = firstn n l ++ [x].
Proof.
  revert l. induction n as [|n IH]; intros [|y l] Hn; simpl in *; try lia.
  - exists y. auto.
  - destruct (IH l ltac:(lia)) as (x & Hx & Hf). exists x.
    split; [exact Hx|]. f_equal. exact Hf.
Qed.

(** ** Rounds that train *)

Lemma has_layout_keys (L : layout) (d : dict obj) :
  has_layout L d -> keys d = map fst L.
Proof.
  unfold has_layout, keys. intros H.
  apply (f_equal (map fst)) in H. rewrite !map_map in H. exact H.
Qed.

(** An array of layout [L] is found under its key. *)
Lemma layout_lookup (L : layout) (b : dict obj) :
  has_layout L b -> NoDup (map fst L) ->
  forall k shape,
    In (k, Some shape) L ->
    exists a, lookup b k = Some (Array a) /\ item_shape a = shape.
Proof.
  unfold has_layout. revert L.
  induction b as [|[k0 v0] b IH]; intros [|[k1 l1] L]; simpl;
    try discriminate; intros H Hnd k shape Hin; [contradiction|].
  injection H as <- Hv Hrest. inversion Hnd as [|? ? Hnotin Hnd']. subst.
  destruct Hin as [[= <- ->]|Hin].
  - rewrite String.eqb_refl. destruct v0 as [|a|o]; try discriminate.
    injection Hv as <-. eauto.
  - destruct (String.eqb_spec k0 k) as [->|Hne].
    + exfalso. apply Hnotin. apply (in_map fst) in Hin. exact Hin.
    + eapply IH; eauto.
Qed.

(** The loop leaves the layout as it is. *)
Lemma concatenate_dicts_layout (d b d' : dict obj) :
  concatenate_dicts d b = inr d' ->
  map (fun entry => (fst entry, entry_layout (snd entry))) d'
  = map (fun entry => (fst entry, entry_layout (snd entry))) d.
Proof.
  revert d'. induction d as [|[k v] d IH]; simpl; intros d'.
  - intros [= <-]. reflexivity.
  - destruct (concatenate_entry k v b) as [e|v'] eqn:Ev; [discriminate|].
    destruct (concatenate_dicts d b) as [e|rest]; [discriminate|].
    intros [= <-]. simpl. rewrite (IH rest eq_refl). f_equal. f_equal.
    apply concatenate_entry_inv in Ev. destruct v as [|a|o].
    + subst. reflexivity.
    + destruct Ev as (a' & _ & _ & ->). reflexivity.
    + contradiction.
Qed.

Lemma accumulate_layout (first : dict obj) (rest : list (dict obj))
      (d : dict obj) (L : layout) :
  accumulate first rest = inr d -> has_layout L first -> has_layout L d.
Proof.
  revert first. induction rest as [|b rest IH]; simpl; intros first.
  - intros [= <-]. auto.
  - destruct (concatenate_dicts first b) as [e|d1] eqn:E; [discriminate|].
    intros H Hfirst. apply (IH d1 H). unfold has_layout in *.
    rewrite (concatenate_dicts_layout first b d1 E). exact Hfirst.
Qed.

(** A dictionary can be concatenated with one that holds an array of
    the right shape for each of its arrays. *)
Lemma concatenate_dicts_fitting (b : dict obj) :
  forall (d : dict obj) (L : layout),
    has_layout L d ->
    (forall k shape,
        In (k, Some shape) L ->
        exists a, lookup b k = Some (Array a) /\ item_shape a = shape) ->
    exists d', concatenate_dicts d b = inr d'.
Proof.
  unfold has_layout.
  induction d as [|[k v] d IH]; intros [|[k1 l1] L]; simpl;
    try discriminate; [eauto|].
  intros H Hfind. injection H as <- Hv Hrest.
  destruct (IH L Hrest) as [rest Erest].
  { intros k0 shape Hin. apply Hfind. right. exact Hin. }
  rewrite Erest. unfold concatenate_entry. destruct v as [|a|o].
  - eauto.
  - injection Hv as <-.
    destruct (Hfind k (item_shape a) (or_introl eq_refl))
      as (a' & -> & Hshape).
    unfold np_concatenate.
    destruct (list_eq_dec Nat.eq_dec (item_shape a) (item_shape a'));
      [eauto | congruence].
  - discriminate.
Qed.

(** Two dictionaries of one layout can be concatenated. *)
Lemma concatenate_dicts_returns (L : layout) (d b : dict obj) :
  has_layout L d -> has_layout L b -> NoDup (keys d) ->
  exists d', concatenate_dicts d b = inr d'.
Proof.
  intros Hd Hb Hnd.
  assert (HndL : NoDup (map fst L))
    by (rewrite <- (has_layout_keys L d Hd); exact Hnd).
  apply (concatenate_dicts_fitting b d L Hd).
  apply layout_lookup; assumption.
Qed.

(** What every simulation of a run returned has what the generative
    model's output always has. *)
Lemma asked_simulated_all (gm : GenerativeModel World obj) (n : nat)
      (P : dict obj -> Prop) (t : list (event obj)) :
  (forall n kw s d entries,
      fst (gm n kw s) = inr d ->
      contents (snd (gm n kw s)) d = Some entries -> P entries) ->
  Forall (asked_of gm n) t -> Forall P (simulated t).
Proof.
  intros Hgm. induction 1 as [|ev t Hev _ IH]; [constructor|].
  destruct ev as [n' kw [pe|d] [b|]| | | | | | | |]; try exact IH.
  change (simulated (EvSimulate n' kw (inr d) (Some b) :: t))
    with (b :: simulated t).
  constructor; [|exact IH].
  destruct Hev as (-> & s & Hout & Hret).
  eapply (Hgm n kw s d b); congruence.
Qed.

(** A simulation by a generative model that returns. *)
Lemma forward_inference_returns (self : Trainer)
      (gm : GenerativeModel World obj) (L : layout) (n_sim : nat)
      (kwargs : keywords) (s : state) :
  generative_model self = Some gm -> returns_new_dict gm ->
  always_returns gm -> simulates_layout gm L ->
  exists r s1 t b,
    _forward_inference self n_sim kwargs s = (inr r, s1, t) /\
    (exists new, heap s1 = heap s ++ new) /\
    length (heap s) <= r /\
    contents s1 r = Some b /\ NoDup (keys b) /\ has_layout L b.
Proof.
  intros Hgm Hnew Hret Hlay.
  destruct (Hret n_sim kwargs s) as (r & s1 & Hrun).
  destruct (Hnew n_sim kwargs s) as (new & Hheap & Hout).
  specialize (Hlay n_sim kwargs s r). rewrite Hrun in Hheap, Hout, Hlay.
  simpl in Hheap, Hout, Hlay.
  destruct (Hout r eq_refl) as (Hle & b & Hb & Hnd).
  exists r, s1. eexists. exists b.
  split.
  { unfold _forward_inference. rewrite Hgm.
    unfold call_generative_model, call. rewrite Hrun. reflexivity. }
  split; [eauto|]. split; [exact Hle|]. split; [exact Hb|].
  split; [exact Hnd|]. apply Hlay; [reflexivity | exact Hb].
Qed.

(** The data generation step of a later round returns. *)
Lemma simulate_further_returns (self : Trainer)
      (gm : GenerativeModel World obj) (L : layout)
      (sim_per_round : nat) (kwargs : train_kwargs) (sd : ref) (d : dict obj)
      (s : state) :
  generative_model self = Some gm -> returns_new_dict gm ->
  always_returns gm -> simulates_layout gm L ->
  contents s sd = Some d -> NoDup (keys d) -> has_layout L d ->
  exists s1 t d',
    simulate_further self sim_per_round kwargs sd s = (inr sd, s1, t) /\
    contents s1 sd = Some d' /\ NoDup (keys d') /\ has_layout L d'.
Proof.
  intros Hgm Hnew Hret Hlay Hsd Hnd Hd.
  destruct (forward_inference_returns self gm L sim_per_round
              (as_keywords kwargs) s Hgm Hnew Hret Hlay)
    as (r & s1 & t1 & b & Hrun & (new & Hheap) & Hle & Hb & Hndb & Hlb).
  assert (Hsd1 : contents s1 sd = Some d) by (eapply contents_kept; eauto).
  assert (Hne : sd <> r).
  { assert (sd < length (heap s))
      by (apply nth_error_Some; unfold contents in Hsd; congruence).
    lia. }
  destruct (concatenate_dicts_returns L d b Hd Hlb Hnd) as [d' Ec].
  pose proof (concatenate_keys_run sd r b Hne d [] s1 Hsd1 Hb Hnd) as Hcat.
  rewrite Ec in Hcat. simpl in Hcat.
  assert (Hkeys : dict_keys sd s1 = (inr (keys d), s1, [])).
  { unfold dict_keys. rewrite Hsd1. reflexivity. }
  eexists. eexists. exists d'. split.
  { unfold simulate_further. rewrite bind_run, Hrun.
    rewrite (bind_returned _ _ _ _ _ Hkeys).
    rewrite (bind_returned _ _ _ _ _ Hcat). unfold ret. reflexivity. }
  split.
  { unfold contents. simpl. eapply nth_error_replace_nth_same. exact Hsd1. }
  split; [rewrite (concatenate_dicts_keys d b d' Ec); exact Hnd|].
  unfold has_layout in *. rewrite (concatenate_dicts_layout d b d' Ec).
  exact Hd.
Qed.

Lemma rounds_loop_returns (env : Env) (self : Trainer)
      (gm : GenerativeModel World obj) (L : layout)
      (sim_per_round epochs batch_size : nat) (save_checkpoint : bool)
      (kwargs : train_kwargs) (rs : list nat) :
  generative_model self = Some gm -> returns_new_dict gm ->
  always_returns gm -> simulates_layout gm L ->
  offline_collaborators_keep_dicts env self ->
  offline_collaborators_succeed env self -> 0 < batch_size ->
  forall (sd : ref) (d : dict obj) (losses : list (nat * losses_dict))
         (s : state),
    contents s sd = Some d -> NoDup (keys d) -> has_layout L d ->
    exists l,
      outcome (rounds_loop env self rs false sd losses sim_per_round epochs
                           batch_size save_checkpoint kwargs s) = inr l.
Proof.
  intros Hgm Hnew Hret Hlay Hkeep Hok Hpos.
  induction rs as [|n rs IH]; intros sd d losses s Hsd Hnd Hd.
  - exists losses. reflexivity.
  - simpl rounds_loop. unfold outcome. rewrite bind_run.
    destruct (simulate_further_returns self gm L sim_per_round kwargs sd d s
                Hgm Hnew Hret Hlay Hsd Hnd Hd)
      as (s1 & t1 & d1 & -> & Hsd1 & Hnd1 & Hd1).
    rewrite bind_run.
    pose proof (train_offline_step env self sd d1 epochs batch_size
                  save_checkpoint kwargs s1 Hkeep Hsd1) as (_ & _ & Hsd2).
    destruct (train_offline_returns env self sd epochs batch_size
                save_checkpoint kwargs Hok Hpos s1) as (losses_r & Hout & _).
    unfold outcome, state_after in Hout, Hsd2.
    destruct (train_offline env self sd epochs batch_size save_checkpoint
                            kwargs s1) as [[res s2] t2].
    simpl in Hout, Hsd2. subst res.
    match goal with
    | |- context [rounds_loop env self rs false sd ?ls _ _ _ _ _ s2] =>
        destruct (IH sd d1 ls s2 Hsd2 Hnd1 Hd1) as [l Hl];
        unfold outcome in Hl;
        destruct (rounds_loop env self rs false sd ls sim_per_round epochs
                              batch_size save_checkpoint kwargs s2)
          as [[res3 s3] t3]
    end.
    simpl in *. eauto.
Qed.

Lemma train_rounds_returns (env : Env) (self : Trainer)
      (gm : GenerativeModel World obj) (L : layout)
      (rounds sim_per_round epochs batch_size : nat) (save_checkpoint : bool)
      (kwargs : train_kwargs) (s : state) :
  generative_model self = Some gm -> returns_new_dict gm ->
  always_returns gm -> simulates_layout gm L ->
  offline_collaborators_keep_dicts env self ->
  offline_collaborators_succeed env self -> 0 < batch_size ->
  exists l,
    outcome (train_rounds env self rounds sim_per_round epochs batch_size
                          save_checkpoint kwargs s) = inr l.
Proof.
  intros Hgm Hnew Hret Hlay Hkeep Hok Hpos. unfold train_rounds, range1.
  destruct rounds as [|rounds]; [exists []; reflexivity|].
  simpl seq. simpl rounds_loop. unfold outcome. rewrite bind_run.
  destruct (forward_inference_returns self gm L sim_per_round
              (as_keywords kwargs) s Hgm Hnew Hret Hlay)
    as (sd & s1 & t1 & b & -> & _ & _ & Hb & Hndb & Hlb).
  rewrite bind_run.
  pose proof (train_offline_step env self sd b epochs batch_size
                save_checkpoint kwargs s1 Hkeep Hb) as (_ & _ & Hsd2).
  destruct (train_offline_returns env self sd epochs batch_size
              save_checkpoint kwargs Hok Hpos s1) as (losses_r & Hout & _).
  unfold outcome, state_after in Hout, Hsd2.
  destruct (train_offline env self sd epochs batch_size save_checkpoint
                          kwargs s1) as [[res s2] t2].
  simpl in Hout, Hsd2. subst res.
  match goal with
  | |- context [rounds_loop env self ?rs false sd ?ls _ _ _ _ _ s2] =>
      destruct (rounds_loop_returns env self gm L sim_per_round epochs
                  batch_size save_checkpoint kwargs rs
                  Hgm Hnew Hret Hlay Hkeep Hok Hpos sd b ls s2
                  Hsd2 Hndb Hlb) as [l Hl];
      unfold outcome in Hl;
      destruct (rounds_loop env self rs false sd ls sim_per_round epochs
                            batch_size save_checkpoint kwargs s2)
        as [[res3 s3] t3]
  end.
  simpl in *. eauto.
Qed.

(** C6: in round-based training, with a generative model that returns a
    new dictionary holding [n_sim] simulations per array at every call and
    collaborators that leave the dictionaries they are handed alone, the
    dictionary that round [r + 1] trains on holds, in each of its arrays,
    the simulations of the first [r + 1] batches in order, which are
    [(r + 1) * sim_per_round]; when the training returns, every one of the
    [rounds] rounds simulated once and started [train_offline] once.  And
    the rounds do train: when moreover the generative model returns at
    every call a dictionary of one layout (the same keys, each [None] or
    an array with entries of one shape), the collaborators return and the
    batch size is positive, the training returns, and every round
    [r + 1] of the [rounds] rounds trained on a dictionary of that layout
    in which the array of each key holds the [(r + 1) * sim_per_round]
    simulations of the first [r + 1] batches. *)
Theorem rounds_train_on_all_simulations
        (env : Env) (self : Trainer) (gm : GenerativeModel World obj)
        (rounds sim_per_round epochs batch_size : nat) (save_checkpoint : bool)
        (kwargs : train_kwargs) (s : state) :
  generative_model self = Some gm ->
  returns_new_dict gm ->
  simulates_n_sim gm ->
  offline_collaborators_keep_dicts env self ->
  let run := train_rounds env self rounds sim_per_round epochs batch_size
                          save_checkpoint kwargs s in
  let batches := simulated (calls run) in
  let trained_on := datasets (calls run) in
  (forall r d,
      nth_error trained_on r = Some d ->
      r < length batches /\
      forall k a,
        lookup d k = Some (Array a) ->
        Forall (fun b => exists a', lookup b k = Some (Array a'))
               (firstn (S r) batches) /\
        items a = flat_map (samples_at k) (firstn (S r) batches) /\
        n_samples a = S r * sim_per_round) /\
  (forall losses,
      outcome run = inr losses ->
      length trained_on = rounds /\ length batches = rounds /\
      map fst losses = range1 rounds) /\
  (forall L,
      always_returns gm -> simulates_layout gm L ->
      offline_collaborators_succeed env self -> 0 < batch_size ->
      (exists losses, outcome run = inr losses) /\
      length trained_on = rounds /\ length batches = rounds /\
      forall r,
        r < rounds ->
        exists d,
          nth_error trained_on r = Some d /\
          has_layout L d /\
          forall k shape,
            In (k, Some shape) L ->
            exists a,
              lookup d k = Some (Array a) /\ item_shape a = shape /\
              items a = flat_map (samples_at k) (firstn (S r) batches) /\
              n_samples a = S r * sim_per_round).
Proof.
  intros Hgm Hnew Hsized Hkeep run batches trained_on.
  subst run batches trained_on.
  destruct (train_rounds_datasets env self gm rounds sim_per_round epochs
              batch_size save_checkpoint kwargs s Hgm Hnew Hkeep) as [Hds Hok].
  pose proof (rounds_loop_asked env self gm sim_per_round epochs batch_size
                save_checkpoint kwargs (range1 rounds) Hgm true 0 [] s)
    as [Hasked _].
  fold (train_rounds env self rounds sim_per_round epochs batch_size
                     save_checkpoint kwargs) in Hasked.
  assert (Hfirst_part :
            forall r d,
              nth_error
                (datasets (calls (train_rounds env self rounds sim_per_round
                                    epochs batch_size save_checkpoint kwargs s)))
                r = Some d ->
              r < length (simulated
                            (calls (train_rounds env self rounds sim_per_round
                                      epochs batch_size save_checkpoint
                                      kwargs s))) /\
              forall k a,
                lookup d k = Some (Array a) ->
                Forall (fun b => exists a', lookup b k = Some (Array a'))
                       (firstn (S r)
                          (simulated
                             (calls (train_rounds env self rounds sim_per_round
                                       epochs batch_size save_checkpoint
                                       kwargs s)))) /\
                items a
                = flat_map (samples_at k)
                    (firstn (S r)
                       (simulated
                          (calls (train_rounds env self rounds sim_per_round
                                    epochs batch_size save_checkpoint
                                    kwargs s)))) /\
                n_samples a = S r * sim_per_round).
  { intros r d Hd.
    destruct (Hds r d Hd) as (Hlt & first & rest & Hfirst & Hacc).
    split; [exact Hlt|]. intros k a Hk.
    destruct (accumulate_array first rest d k a Hacc Hk) as [HF Hitems].
    rewrite Hfirst. split; [exact HF|]. split; [exact Hitems|].
    unfold n_samples. rewrite Hitems, <- Hfirst.
    rewrite (flat_map_samples_length k _ sim_per_round).
    - rewrite length_firstn. f_equal. lia.
    - apply Forall_firstn.
      eapply Forall_impl;
        [|apply (asked_simulated gm sim_per_round _ Hsized Hasked)].
      intros b Hb a0. apply Hb.
    - rewrite Hfirst. exact HF. }
  split; [exact Hfirst_part|]. split; [exact Hok|].
  intros L Hret Hlay Hsucceed Hpos.
  destruct (train_rounds_returns env self gm L rounds sim_per_round epochs
              batch_size save_checkpoint kwargs s Hgm Hnew Hret Hlay Hkeep
              Hsucceed Hpos) as [losses Hlosses].
  destruct (Hok losses Hlosses) as (Hlen_d & Hlen_b & _).
  split; [eauto|]. split; [exact Hlen_d|]. split; [exact Hlen_b|].
  intros r Hr.
  destruct (nth_error
              (datasets (calls (train_rounds env self rounds sim_per_round
                                  epochs batch_size save_checkpoint kwargs s)))
              r) as [d|] eqn:Hd;
    [|apply nth_error_None in Hd; lia].
  exists d. split; [reflexivity|].
  destruct (Hds r d Hd) as (Hlt & first & rest & Hfirst & Hacc).
  assert (Hin : In first
                   (simulated
                      (calls (train_rounds env self rounds sim_per_round
                                epochs batch_size save_checkpoint kwargs s)))).
  { rewrite <- (firstn_skipn (S r)), Hfirst. left. reflexivity. }
  assert (Hlf : has_layout L first).
  { pose proof (asked_simulated_all gm sim_per_round (has_layout L) _
                                    Hlay Hasked) as Hall.
    rewrite Forall_forall in Hall. apply Hall, Hin. }
  assert (Hnf : NoDup (keys first)).
  { assert (Hall : Forall (fun b => NoDup (keys b))
                          (simulated
                             (calls (train_rounds env self rounds sim_per_round
                                       epochs batch_size save_checkpoint
                                       kwargs s)))).
    { apply (asked_simulated_all gm sim_per_round); [|exact Hasked].
      intros n kw s0 d0 entries Hout Hc.
      destruct (Hnew n kw s0) as (new & _ & Hfresh).
      destruct (Hfresh d0 Hout) as (_ & entries' & Hc' & Hnd).
      congruence. }
    rewrite Forall_forall in Hall. apply Hall, Hin. }
  assert (Hld : has_layout L d) by (eapply accumulate_layout; eauto).
  split; [exact Hld|].
  assert (HndL : NoDup (map fst L)).
  { rewrite <- (has_layout_keys L first Hlf). exact Hnf. }
  intros k shape HinL.
  destruct (layout_lookup L d Hld HndL k shape HinL) as (a & Ha & Hshape).
  exists a. split; [exact Ha|]. split; [exact Hshape|].
  destruct (Hfirst_part r d Hd) as (_ & Harr).
  destruct (Harr k a Ha) as (_ & Hitems & Hn). auto.
Qed.

(** C10: in round-based training, with a generative model that returns a
    new dictionary at every call and collaborators that leave the
    dictionaries they are handed alone, a key whose value is [None] in the
    first simulation is [None] in the dictionary of every round, whatever
    the later simulations hold for it; from one round to the next the
    keys stay, and an array is the previous array followed by the new
    simulations of its key. *)
Theorem none_entries_stay_none
        (env : Env) (self : Trainer) (gm : GenerativeModel World obj)
        (rounds sim_per_round epochs batch_size : nat) (save_checkpoint : bool)
        (kwargs : train_kwargs) (s : state) :
  generative_model self = Some gm ->
  returns_new_dict gm ->
  offline_collaborators_keep_dicts env self ->
  let run := train_rounds env self rounds sim_per_round epochs batch_size
                          save_checkpoint kwargs s in
  let batches := simulated (calls run) in
  let trained_on := datasets (calls run) in
  (forall r d,
      nth_error trained_on r = Some d ->
      exists first,
        nth_error batches 0 = Some first /\
        keys d = keys first /\
        forall k, lookup first k = Some PyNone -> lookup d k = Some PyNone) /\
  (forall r d d',
      nth_error trained_on r = Some d ->
      nth_error trained_on (S r) = Some d' ->
      exists b,
        nth_error batches (S r) = Some b /\
        keys d' = keys d /\
        (forall k, lookup d k = Some PyNone -> lookup d' k = Some PyNone) /\
        (forall k a,
            lookup d k = Some (Array a) ->
            exists a', lookup d' k = Some (Array a') /\
                       items a' = items a ++ samples_at k b) /\
        (forall k, lookup d k = None -> lookup d' k = None)).
Proof.
  intros Hgm Hnew Hkeep run batches trained_on. subst run batches trained_on.
  destruct (train_rounds_datasets env self gm rounds sim_per_round epochs
              batch_size save_checkpoint kwargs s Hgm Hnew Hkeep) as [Hds _].
  split.
  - intros r d Hd. destruct (Hds r d Hd) as (Hlt & first & rest & Hfirst & Hacc).
    exists first. split; [|split].
    + destruct (simulated _) as [|b bs]; simpl in *; congruence.
    + eapply accumulate_keys, Hacc.
    + intros k Hk. eapply accumulate_none; eauto.
  - intros r d d' Hd Hd'.
    destruct (Hds r d Hd) as (_ & first & rest & Hfirst & Hacc).
    destruct (Hds (S r) d' Hd') as (Hlt & first' & rest' & Hfirst' & Hacc').
    destruct (firstn_succ_nth (S r) _ Hlt) as (b & Hb & Hsnoc).
    rewrite Hfirst in Hsnoc. rewrite Hsnoc in Hfirst'.
    injection Hfirst' as <- <-.
    rewrite accumulate_snoc, Hacc in Hacc'.
    exists b. split; [exact Hb|]. split; [eapply concatenate_dicts_keys, Hacc'|].
    split; [|split].
    + intros k Hk.
      pose proof (concatenate_dicts_lookup d b d' k Hacc') as H.
      rewrite Hk in H. exact H.
    + intros k a Hk.
      pose proof (concatenate_dicts_lookup d b d' k Hacc') as H.
      rewrite Hk in H. destruct H as (a' & Ha' & _ & Hl).
      eexists. split; [exact Hl|]. simpl. unfold samples_at. rewrite Ha'.
      reflexivity.
    + intros k Hk.
      pose proof (concatenate_dicts_lookup d b d' k Hacc') as H.
      rewrite Hk in H. exact H.
Qed.

End Facts.

(** ** The properties at concrete collaborators *)

Import TrainerExamples.

Lemma simulator_returns_new_dict : returns_new_dict simulator.
Proof.
  intros n kw s. exists [simulation (world s) n]. split; [reflexivity|].
  intros d [= <-]. split; [lia|].
  exists (simulation (world s) n). split.
  - unfold contents. simpl. rewrite nth_error_app2, Nat.sub_diag by lia.
    reflexivity.
  - simpl. repeat constructor; simpl; intuition discriminate.
Qed.

Lemma simulator_simulates_n_sim : simulates_n_sim simulator.
Proof.
  intros n kw s d entries [= <-]. unfold contents. simpl.
  rewrite nth_error_app2, Nat.sub_diag by lia. intros [= <-] k a Hk.
  cbn [lookup simulation] in Hk.
  destruct (String.eqb "prior_draws" k);
    [injection Hk as <-; apply repeat_length|].
  destruct (String.eqb "sim_data" k);
    [injection Hk as <-; apply repeat_length|].
  destruct (String.eqb "sim_context" k); discriminate.
Qed.

Lemma tf_env_succeeds (gm : option (GenerativeModel nat nat)) :
  offline_collaborators_succeed tf_env (trainer_with gm).
Proof.
  repeat split; intros; intros s; eexists; eexists; reflexivity.
Qed.

Lemma tf_env_keeps_dicts (gm : option (GenerativeModel nat nat)) :
  offline_collaborators_keep_dicts tf_env (trainer_with gm).
Proof.
  repeat split; intros; intros s;
    try (exists []; simpl; rewrite app_nil_r; reflexivity).
  eexists. reflexivity.
Qed.

(** Two rounds of two simulations each: the first round trains on the
    first batch, the second on both, and the context stays [None]. *)
Example two_rounds_trained_on :
  datasets (calls (train_rounds tf_env online_trainer 2 2 1 1 true no_kwargs
                                start)) =
  [ [("prior_draws", Array {| item_shape := [2]; items := [0; 0] |});
     ("sim_data", Array {| item_shape := [3]; items := [100; 100] |});
     ("sim_context", PyNone)];
    [("prior_draws", Array {| item_shape := [2]; items := [0; 0; 1; 1] |});
     ("sim_data", Array {| item_shape := [3]; items := [100; 100; 101; 101] |});
     ("sim_context", PyNone)] ].
Proof. reflexivity. Qed.

(** The dictionary of the first round is updated in place: with a
    simulator that refills and returns one and the same dictionary, the
    second round finds the second batch on both sides of the
    concatenation. *)
Example reused_dictionary_in_second_round :
  datasets (calls (train_rounds tf_env (trainer_with (Some reusing_simulator))
                                2 2 1 1 true no_kwargs start)) =
  [ [("prior_draws", Array {| item_shape := [2]; items := [0; 0] |});
     ("sim_data", Array {| item_shape := [3]; items := [100; 100] |});
     ("sim_context", PyNone)];
    [("prior_draws", Array {| item_shape := [2]; items := [1; 1; 1; 1] |});
     ("sim_data", Array {| item_shape := [3]; items := [101; 101; 101; 101] |});
     ("sim_context", PyNone)] ].
Proof. reflexivity. Qed.

Example offline_training_without_model :
  train_offline tf_env offline_trainer 0 2 1 true no_kwargs with_presimulated =
  (inr [(1, [1]); (2, [1])],
   {| world := 0;
      heap := [presimulated; [("prior_draws", PyNone)]; [("prior_draws", PyNone)]] |},
   [EvDataset 0 (Some presimulated) 1;
    EvIterate; EvConfigure 1 []; EvComputeLoss 0 []; EvApplyGradients 1;
    EvIterate; EvConfigure 2 []; EvComputeLoss 0 []; EvApplyGradients 1]).
Proof. reflexivity. Qed.

Example online_training_without_model :
  train_online tf_env offline_trainer 3 10 32 true no_kwargs start =
  (inl (SimulationError
          "No generative model specified. Only offline learning is available!"),
   start, []).
Proof. reflexivity. Qed.

Example no_rounds_no_simulation :
  train_rounds tf_env offline_trainer 0 10 1 32 true no_kwargs start
  = (inr [], start, []).
Proof. reflexivity. Qed.

Lemma forward_inference_without_model_raises_witness :
  let err : exn :=
    SimulationError
      "No generative model specified. Only offline learning is available!" in
  (forall n_sim kwargs w,
      _forward_inference offline_trainer n_sim kwargs w = (inl err, w, [])) /\
  (forall epochs iterations_per_epoch batch_size save_checkpoint kwargs w,
      0 < epochs -> 0 < iterations_per_epoch ->
      train_online tf_env offline_trainer epochs iterations_per_epoch batch_size
                   save_checkpoint kwargs w = (inl err, w, [])) /\
  (forall rounds sim_per_round epochs batch_size save_checkpoint kwargs w,
      0 < rounds ->
      train_rounds tf_env offline_trainer rounds sim_per_round epochs batch_size
                   save_checkpoint kwargs w = (inl err, w, [])).
Proof.
  apply (forward_inference_without_model_raises
           tf_env (default_args posterior_amortizer) offline_trainer
           start start [EvOptimizer]);
    reflexivity.
Defined.

Lemma unsupported_configuration_fails_at_construction_witness :
  (exists msg,
      __init__ tf_env misspelled_args start
      = (inl (NotImplementedError msg), start, [])) /\
  (exists msg,
      __init__ tf_env custom_args start
      = (inl (NotImplementedError msg), start, [])).
Proof.
  split.
  - destruct (unsupported_configuration_fails_at_construction
                tf_env misspelled_args start) as [H _].
    apply (H "onehot"); [reflexivity|].
    simpl. intros [H1|[H1|[H1|[H1|[]]]]]; discriminate.
  - destruct (unsupported_configuration_fails_at_construction
                tf_env custom_args start) as [_ H].
    apply (H "<class 'CustomAmortizer'>"); [reflexivity|].
    left. reflexivity.
Defined.

Lemma consistency_failure_raises_ConfigurationError_witness :
  exists who pe,
    CollaboratorError TheGenerativeModel crash = CollaboratorError who pe /\
    let raised :=
      if derives_from_Exception pe
      then ConfigurationError (consistency_context ++ exc_text pe)
      else CollaboratorError who pe in
    _check_consistency tf_env (trainer_with (Some broken_simulator)) start =
      (inl raised, start, [EvSimulate 2 [] (inl crash) None]) /\
    __init__ tf_env broken_args start =
      (inl raised, start, [EvOptimizer] ++ [EvSimulate 2 [] (inl crash) None]).
Proof.
  apply (consistency_failure_raises_ConfigurationError
           tf_env broken_args broken_simulator
           (trainer_with (Some broken_simulator)) start start start
           [EvOptimizer] [EvSimulate 2 [] (inl crash) None]
           (CollaboratorError TheGenerativeModel crash));
    reflexivity.
Defined.

(** Construction interrupted during the consistency check: the run of
    the check raises, and what the constructor raises is the interrupt
    itself, no [ConfigurationError]. *)
Lemma consistency_failure_raises_ConfigurationError_counterexample :
  arg_skip_checks interrupted_args = false /\
  consistency_pipeline tf_env (trainer_with (Some interrupted_simulator))
                       interrupted_simulator start
  = (inl (CollaboratorError TheGenerativeModel interrupt), start,
     [EvSimulate 2 [] (inl interrupt) None]) /\
  __init__ tf_env interrupted_args start
  = (inl (CollaboratorError TheGenerativeModel interrupt), start,
     [EvOptimizer; EvSimulate 2 [] (inl interrupt) None]) /\
  ~ exists msg,
      outcome (__init__ tf_env interrupted_args start)
      = inl (ConfigurationError msg).
Proof.
  split; [reflexivity|]. split; [reflexivity|]. split; [reflexivity|].
  intros [msg H]. discriminate.
Qed.

Lemma simulator_always_returns : always_returns simulator.
Proof. intros n kw s. eexists. eexists. reflexivity. Qed.

Lemma simulator_layout :
  simulates_layout simulator
                   [("prior_draws", Some [2]); ("sim_data", Some [3]);
                    ("sim_context", None)].
Proof.
  intros n kw s d entries [= <-]. unfold contents. simpl.
  rewrite nth_error_app2, Nat.sub_diag by lia. intros [= <-]. reflexivity.
Qed.

Lemma rounds_train_on_all_simulations_witness :
  let run := train_rounds tf_env online_trainer 2 2 1 1 true no_kwargs start in
  let batches := simulated (calls run) in
  let trained_on := datasets (calls run) in
  (exists losses, outcome run = inr losses) /\
  length trained_on = 2 /\ length batches = 2 /\
  forall r,
    r < 2 ->
    exists d,
      nth_error trained_on r = Some d /\
      has_layout [("prior_draws", Some [2]); ("sim_data", Some [3]);
                  ("sim_context", None)] d /\
      forall k shape,
        In (k, Some shape)
           [("prior_draws", Some [2]); ("sim_data", Some [3]);
            ("sim_context", None)] ->
        exists a,
          lookup d k = Some (Array a) /\ item_shape a = shape /\
          items a = flat_map (samples_at k) (firstn (S r) batches) /\
          n_samples a = S r * 2.
Proof.
  destruct (rounds_train_on_all_simulations
              tf_env online_trainer simulator 2 2 1 1 true no_kwargs start
              eq_refl simulator_returns_new_dict simulator_simulates_n_sim
              (tf_env_keeps_dicts (Some simulator))) as (_ & _ & H).
  apply (H [("prior_draws", Some [2]); ("sim_data", Some [3]);
            ("sim_context", None)]
           simulator_always_returns simulator_layout
           (tf_env_succeeds (Some simulator))).
  lia.
Defined.

Lemma train_offline_never_simulates_witness :
  exists losses,
    outcome (train_offline tf_env offline_trainer 0 2 1 true no_kwargs
                           with_presimulated) = inr losses /\
    length losses = 2.
Proof.
  destruct (train_offline_never_simulates
              tf_env offline_trainer 0 2 1 true no_kwargs with_presimulated)
    as (_ & _ & H).
  apply H; [apply tf_env_succeeds | lia].
Defined.

Lemma none_entries_stay_none_witness :
  exists first,
    nth_error (simulated (calls (train_rounds tf_env online_trainer 2 2 1 1
                                              true no_kwargs start))) 0
    = Some first /\
    lookup first "sim_context" = Some PyNone /\
    forall r d,
      nth_error (datasets (calls (train_rounds tf_env online_trainer 2 2 1 1
                                               true no_kwargs start))) r
      = Some d ->
      lookup d "sim_context" = Some PyNone.
Proof.
  eexists. split; [reflexivity|]. split; [reflexivity|].
  intros r d Hd.
  destruct (none_entries_stay_none
              tf_env online_trainer simulator 2 2 1 1 true no_kwargs start
              eq_refl simulator_returns_new_dict
              (tf_env_keeps_dicts (Some simulator))) as [H _].
  destruct (H r d Hd) as (first & Hfirst & _ & Hnone).
  apply Hnone. injection Hfirst as <-. reflexivity.
Defined.

End TrainerFacts.

(** ** More about the trainer *)
Module TrainerMoreFacts.
Import Trainer.
Import TrainerFacts.
Local Open Scope trainer_scope.

Section MoreFacts.
Context {World obj : Type}.

Notation M := (M World obj).
Notation Env := (Env World obj).
Notation Trainer := (Trainer World obj).
Notation state := (state World obj).

(** ** The configurator *)

Lemma defaults_for_known (a : Amortizer World obj) :
  known_amortizer a <-> exists d, defaults_for a = inr d.
Proof.
  unfold known_amortizer, defaults_for.
  destruct (amortizer_type a); split; intros H; eauto; try exact I;
    try contradiction; destruct H as [d H]; discriminate.
Qed.

Lemma manage_configurator_raises
      (a : Amortizer World obj) (c : config_arg World obj) (e : exn) :
  _manage_configurator a c = inl e -> is_NotImplementedError e = true.
Proof.
  intros H. unfold _manage_configurator in H.
  destruct c as [f| |s|t]; [discriminate| | |];
    (destruct (defaults_for a) as [e0|[[cls cmb] trf]] eqn:Hd;
     [injection H as <-; eapply defaults_for_raises, Hd|]);
    [discriminate| |injection H as <-; reflexivity].
  destruct (String.eqb s "variable_num_obs"); [discriminate|].
  destruct (String.eqb s "one_hot"); [discriminate|].
  destruct (String.eqb s "variable_num_obs_one_hot"); [discriminate|].
  destruct (String.eqb s "one_hot_variable_num_obs"); [discriminate|].
  injection H as <-. reflexivity.
Qed.

(** X1: [_manage_configurator] returns a callable as it is, whatever the
    amortizer; otherwise it returns a configurator exactly when the
    amortizer is of one of the three known types and the argument is
    [None] or one of the four supported strings; every failure is a
    [NotImplementedError]. *)
Theorem manage_configurator_result
        (a : Amortizer World obj) (c : config_arg World obj) :
  (forall f, c = ConfigCallable f ->
             _manage_configurator a c = inr (UserConfigurator f)) /\
  ((exists cfg, _manage_configurator a c = inr cfg) <->
   (exists f, c = ConfigCallable f) \/
   (known_amortizer a /\
    (c = ConfigNone \/ exists s, c = ConfigStr s /\ In s STRING_CONFIGS))) /\
  (forall e, _manage_configurator a c = inl e ->
             is_NotImplementedError e = true).
Proof.
  split; [intros f ->; reflexivity|]. split.
  - split.
    + intros [cfg H]. destruct c as [f| |s|t].
      * left. eauto.
      * right. unfold _manage_configurator in H.
        destruct (defaults_for a) as [e|d] eqn:Hd; [discriminate|].
        split; [apply defaults_for_known; eauto | auto].
      * right. unfold _manage_configurator in H.
        destruct (defaults_for a) as [e|[[cls cmb] trf]] eqn:Hd; [discriminate|].
        split; [apply defaults_for_known; eauto|]. right. exists s.
        split; [reflexivity|]. unfold STRING_CONFIGS. simpl.
        destruct (String.eqb_spec s "variable_num_obs"); [auto|].
        destruct (String.eqb_spec s "one_hot"); [auto|].
        destruct (String.eqb_spec s "variable_num_obs_one_hot"); [auto|].
        destruct (String.eqb_spec s "one_hot_variable_num_obs"); [auto 6|].
        discriminate.
      * unfold _manage_configurator in H.
        destruct (defaults_for a) as [e|[[cls cmb] trf]]; discriminate.
    + intros [[f ->]|[Ha Hc]]; [eexists; reflexivity|].
      apply defaults_for_known in Ha. destruct Ha as [[[cls cmb] trf] Hd].
      unfold _manage_configurator.
      destruct Hc as [->|(s & -> & Hs)]; rewrite Hd; [eauto|].
      unfold STRING_CONFIGS in Hs. simpl in Hs.
      destruct Hs as [<-|[<-|[<-|[<-|[]]]]]; simpl; eauto.
  - intros e. apply manage_configurator_raises.
Qed.

(** X2: the roles of the default components.  For an
    [AmortizedPosterior] the configurator gets a transformer as
    [transform_fun] and a combiner as [combine_fun].  For an
    [AmortizedLikelihood] and a [JointAmortizer] lines 385-393 bind
    [default_combiner] to a transformer and [default_transfomer] to a
    combiner, so [combine_fun] is a transformer, and with
    [configurator=None] [transform_fun] is a combiner. *)
Theorem default_components_roles
        (a : Amortizer World obj) (c : config_arg World obj)
        (cls : config_class) (transform_fun combine_fun : component) :
  _manage_configurator a c
  = inr (DefaultConfigurator cls transform_fun combine_fun) ->
  match amortizer_type a with
  | AmortizedPosterior =>
      named_transformer transform_fun = true /\
      named_combiner combine_fun = true
  | AmortizedLikelihood | JointAmortizer =>
      named_transformer combine_fun = true /\
      (c = ConfigNone -> named_combiner transform_fun = true)
  | OtherAmortizer _ => False
  end.
Proof.
  unfold _manage_configurator, defaults_for.
  destruct c as [f| |s|t]; [discriminate| | |];
    destruct (amortizer_type a); try discriminate;
    try (intros [= <- <- <-]; split; auto; discriminate);
    (destruct (String.eqb s "variable_num_obs");
     [intros [= <- <- <-]; split; auto; discriminate|];
     destruct (String.eqb s "one_hot");
     [intros [= <- <- <-]; split; auto; discriminate|];
     destruct (String.eqb s "variable_num_obs_one_hot");
     [intros [= <- <- <-]; split; auto; discriminate|];
     destruct (String.eqb s "one_hot_variable_num_obs");
     [intros [= <- <- <-]; split; auto; discriminate|];
     discriminate).
Qed.

(** ** Construction *)

Lemma confined_bind_result {A B} (P : event obj -> Prop) (Q : exn -> Prop)
      (R : A -> Prop) (m : M A) (f : A -> M B) :
  (forall s a s' t, m s = (inr a, s', t) -> R a) ->
  confined P Q m -> (forall a, R a -> confined P Q (f a)) ->
  confined P Q (bind m f).
Proof.
  intros HR Hm Hf s. unfold calls, outcome. rewrite bind_run.
  destruct (Hm s) as [Ht He]. unfold calls, outcome in Ht, He.
  specialize (HR s).
  destruct (m s) as [[[e|a] s1] t1]; simpl in *.
  - split; [exact Ht|]. intros e' [= <-]. apply He. reflexivity.
  - destruct (Hf a (HR a s1 t1 eq_refl) s1) as [Ht' He'].
    unfold calls, outcome in Ht', He'.
    destruct (f a s1) as [[r s2] t2]; simpl in *.
    split; [apply Forall_app; split; assumption | exact He'].
Qed.

Lemma confined_try_except {A} (P : event obj -> Prop) (Q Q' : exn -> Prop)
      (m : M A) (handler : exn -> M A) :
  confined P Q' m ->
  (forall e, Q' e -> is_Exception e = false -> Q e) ->
  (forall e, confined P Q (handler e)) ->
  confined P Q (try_except m handler).
Proof.
  intros Hm Hesc Hh s. unfold calls, outcome, try_except.
  destruct (Hm s) as [Ht He]. unfold calls, outcome in Ht, He.
  destruct (m s) as [[[e|a] s1] t1]; simpl in *.
  - destruct (is_Exception e) eqn:Hexc.
    + destruct (Hh e s1) as [Ht' He']. unfold calls, outcome in Ht', He'.
      destruct (handler e s1) as [[r s2] t2]; simpl in *.
      split; [apply Forall_app; split; assumption | exact He'].
    + simpl. split; [exact Ht|]. intros e' [= <-].
      apply Hesc; [apply He; reflexivity | exact Hexc].
  - split; [exact Ht | discriminate].
Qed.

Lemma confined_weaken {A} (P P' : event obj -> Prop) (Q Q' : exn -> Prop)
      (m : M A) :
  (forall ev, P ev -> P' ev) -> (forall e, Q e -> Q' e) ->
  confined P Q m -> confined P' Q' m.
Proof.
  intros HP HQ Hm s. destruct (Hm s) as [Ht He].
  split; [eapply Forall_impl; eauto | auto].
Qed.

(** What [init_attributes] sets. *)
Lemma init_attributes_all (env : Env) (args : init_args World obj)
      (self : Trainer) (s s0 : state) (t0 : list (event obj)) :
  init_attributes env args s = (inr self, s0, t0) ->
  amortizer self = arg_amortizer args /\
  generative_model self = arg_generative_model args /\
  _manage_configurator (arg_amortizer args) (arg_configurator args)
  = inr (configurator self) /\
  clip_method self = arg_clip_method args /\
  clip_value self = arg_clip_value args /\
  checkpoint_path self = arg_checkpoint_path args /\
  (manager self = None <-> arg_checkpoint_path args = None) /\
  (checkpoint self = None <-> arg_checkpoint_path args = None).
Proof.
  unfold init_attributes. rewrite bind_run. unfold lift at 1.
  destruct (_manage_configurator _ _) as [e|c]; [discriminate|].
  rewrite bind_run.
  destruct (call TheOptimizer _ _ s) as [[[e|o] s1] t1]; [discriminate|].
  rewrite bind_run.
  destruct (arg_checkpoint_path args) as [path|].
  - rewrite bind_run.
    destruct (call TheCheckpoint _ _ s1) as [[[e|cm] s2] t2]; [discriminate|].
    simpl. intros [= <- _ _]. simpl.
    repeat split; auto; discriminate.
  - simpl. intros [= <- _ _]. simpl. repeat split; auto.
Qed.

Lemma init_returns_attributes (env : Env) (args : init_args World obj)
      (self : Trainer) (s s' : state) (t : list (event obj)) :
  __init__ env args s = (inr self, s', t) ->
  exists s0 t0, init_attributes env args s = (inr self, s0, t0).
Proof.
  unfold __init__. rewrite bind_run.
  destruct (init_attributes env args s) as [[[e|self0] s0] t0];
    [discriminate|].
  rewrite bind_run.
  destruct ((if arg_skip_checks args then ret tt
             else _check_consistency env self0) s0) as [[[e|u] s2] t2];
    [discriminate|].
  simpl. intros [= <- _ _]. eauto.
Qed.

Lemma init_attributes_confined (env : Env) (args : init_args World obj) :
  confined setup_call
           (fun e => is_NotImplementedError e = true \/
                     (exists pe, e = CollaboratorError TheOptimizer pe) \/
                     (exists pe, e = CollaboratorError TheCheckpoint pe))
           (init_attributes env args).
Proof.
  unfold init_attributes.
  apply confined_bind.
  { apply confined_lift. intros e He. left.
    eapply manage_configurator_raises, He. }
  intros c. apply confined_bind.
  { apply confined_call; [intros; exact I|]. intros pe. right. left. eauto. }
  intros o. apply confined_bind; [|intros; apply confined_ret].
  destruct (arg_checkpoint_path args) as [path|]; [|apply confined_ret].
  apply confined_bind; [|intros; apply confined_ret].
  apply confined_call; [intros; exact I|]. intros pe. right. right. eauto.
Qed.

(** The three calls of the check, and what it can raise. *)
Lemma check_consistency_confined (env : Env) (self : Trainer) :
  confined check_call
           (fun e => (exists msg, e = ConfigurationError msg) \/
                     escapes_check e)
           (_check_consistency env self).
Proof.
  unfold _check_consistency.
  destruct (generative_model self) as [gm|]; [|apply confined_ret].
  apply (confined_try_except
           _ _ (fun e => match e with
                         | CollaboratorError
                             (TheGenerativeModel | TheConfigurator
                              | TheAmortizer) _ => True
                         | _ => False
                         end)).
  - unfold consistency_pipeline, call_generative_model, call_configurator,
      call_compute_loss.
    repeat (apply confined_bind; [|intros ?]); try apply confined_ret;
      (apply confined_call; [intros; simpl; auto | intros; exact I]).
  - intros [] He Hexc; try contradiction.
    right. destruct who; try contradiction; exact Hexc.
  - intros e. apply confined_raise. eauto.
Qed.

(** X3: what construction can raise: [NotImplementedError] from the
    configurator, what escapes from building the optimizer or setting up
    the checkpoint, and, only with [skip_checks] off and a generative
    model, [ConfigurationError] from the consistency check or an
    exception of the generative model, the configurator or the amortizer
    that does not derive from [Exception].  An exception of these three
    that derives from [Exception] never escapes as it is, and
    construction never raises [SimulationError]. *)
Theorem construction_raises
        (env : Env) (args : init_args World obj) (s : state) (e : exn) :
  outcome (__init__ env args s) = inl e ->
  (exists msg, e = NotImplementedError msg) \/
  (exists pe, e = CollaboratorError TheOptimizer pe) \/
  (exists pe, e = CollaboratorError TheCheckpoint pe) \/
  (((exists msg, e = ConfigurationError msg) \/ escapes_check e) /\
   arg_skip_checks args = false /\
   arg_generative_model args <> None).
Proof.
  pose (Q := fun e : exn =>
               (exists msg, e = NotImplementedError msg) \/
               (exists pe, e = CollaboratorError TheOptimizer pe) \/
               (exists pe, e = CollaboratorError TheCheckpoint pe) \/
               (((exists msg, e = ConfigurationError msg) \/
                 escapes_check e) /\
                arg_skip_checks args = false /\
                arg_generative_model args <> None)).
  assert (H : confined (fun _ => True) Q (__init__ env args)).
  { unfold __init__.
    apply (confined_bind_result _ _
             (fun self => generative_model self = arg_generative_model args)).
    - intros s0 self s1 t Hattr.
      apply (init_attributes_all env args self s0 s1 t Hattr).
    - eapply confined_weaken; [| |apply init_attributes_confined]; [auto|].
      intros e0 [He|[He|He]]; unfold Q; auto.
      destruct e0; try discriminate. left. eauto.
    - intros self Hself. apply confined_bind; [|intros; apply confined_ret].
      destruct (arg_skip_checks args) eqn:Hskip; [apply confined_ret|].
      destruct (arg_generative_model args) as [gm|] eqn:Hgm.
      + eapply confined_weaken; [| |apply check_consistency_confined]; [auto|].
        intros e0 He0. unfold Q. right. right. right.
        split; [exact He0|]. split; [reflexivity | discriminate].
      + unfold _check_consistency. rewrite Hself. apply confined_ret. }
  intros E. destruct (H s) as [_ He]. apply He, E.
Qed.

(** X4: with [skip_checks] on, or without a generative model,
    construction calls nothing but the optimizer and the checkpoint
    set-up: it simulates nothing and computes no loss. *)
Theorem construction_without_check
        (env : Env) (args : init_args World obj) (s : state) :
  arg_skip_checks args = true \/ arg_generative_model args = None ->
  Forall setup_call (calls (__init__ env args s)) /\
  length (calls (__init__ env args s)) <= 2.
Proof.
  intros Hno. unfold __init__, calls. rewrite bind_run.
  pose proof (init_attributes_confined env args s) as [Hcalls _].
  assert (Hshort : length (calls (init_attributes env args s)) <= 2).
  { unfold init_attributes, calls. rewrite bind_run. unfold lift at 1.
    destruct (_manage_configurator _ _) as [e|c]; [simpl; lia|].
    rewrite bind_run. unfold call at 1.
    destruct (match arg_optimizer args with
              | Some make => make (arg_learning_rate args)
              | None => Adam env (arg_learning_rate args)
              end s) as [[pe|o] s1]; [simpl; lia|].
    rewrite bind_run.
    destruct (arg_checkpoint_path args) as [path|]; [|simpl; lia].
    rewrite bind_run. unfold call at 1.
    destruct (checkpoint_setup env o (arg_amortizer args) path
                               (arg_max_to_keep args) s1) as [[pe|cm] s2];
      simpl; lia. }
  unfold calls in Hcalls, Hshort.
  destruct (init_attributes env args s) as [[[e|self] s0] t0] eqn:Hattr;
    simpl in *; [auto|].
  destruct (init_attributes_all env args self s s0 t0 Hattr) as (_ & Hgm & _).
  assert (Hcheck : (if arg_skip_checks args then ret tt
                    else _check_consistency env self) s0 = (inr tt, s0, [])).
  { destruct Hno as [->|Hnone]; [reflexivity|].
    destruct (arg_skip_checks args); [reflexivity|].
    unfold _check_consistency. rewrite Hgm, Hnone. reflexivity. }
  rewrite bind_run, Hcheck. simpl. rewrite app_nil_r. auto.
Qed.


(** X6: a trainer that construction returns has the amortizer, the
    generative model, the clipping settings and the checkpoint path it was
    given and the configurator that [_manage_configurator] chose; it has a
    checkpoint and a manager exactly when a checkpoint path was given. *)
Theorem construction_sets_attributes
        (env : Env) (args : init_args World obj)
        (self : Trainer) (s s' : state) (t : list (event obj)) :
  __init__ env args s = (inr self, s', t) ->
  amortizer self = arg_amortizer args /\
  generative_model self = arg_generative_model args /\
  _manage_configurator (arg_amortizer args) (arg_configurator args)
  = inr (configurator self) /\
  clip_method self = arg_clip_method args /\
  clip_value self = arg_clip_value args /\
  checkpoint_path self = arg_checkpoint_path args /\
  (manager self = None <-> arg_checkpoint_path args = None) /\
  (checkpoint self = None <-> arg_checkpoint_path args = None).
Proof.
  intros H. destruct (init_returns_attributes env args self s s' t H)
    as (s0 & t0 & Hattr).
  eapply init_attributes_all, Hattr.
Qed.

(** X7: [load_pretrained_network] on a constructed trainer.  Without a
    checkpoint path it returns [False], calls nothing and changes nothing.
    With a path it restores the latest checkpoint, once, and returns the
    status, or raises what the restore raised. *)
Theorem load_pretrained_network_after_construction
        (restore_latest : obj -> obj -> ext World obj obj)
        (env : Env) (args : init_args World obj)
        (self : Trainer) (s s' : state) (t : list (event obj)) :
  __init__ env args s = (inr self, s', t) ->
  (arg_checkpoint_path args = None ->
   forall s0,
     load_pretrained_network restore_latest self s0 = (inr (inl false), s0, [])) /\
  (forall path,
      arg_checkpoint_path args = Some path ->
      exists c m,
        checkpoint self = Some c /\ manager self = Some m /\
        forall s0,
          load_pretrained_network restore_latest self s0 =
          match restore_latest c m s0 with
          | (inl pe, s1) =>
              (inl (CollaboratorError TheCheckpoint pe), s1, [EvCheckpoint path])
          | (inr status, s1) => (inr (inr status), s1, [EvCheckpoint path])
          end).
Proof.
  intros H. destruct (init_returns_attributes env args self s s' t H)
    as (s0 & t0 & Hattr).
  destruct (init_attributes_all env args self s s0 t0 Hattr)
    as (_ & _ & _ & _ & _ & Hpath & Hm & Hc).
  split.
  - intros Hnone s1. unfold load_pretrained_network.
    rewrite (proj2 Hm Hnone). reflexivity.
  - intros path Hsome.
    destruct (manager self) as [m|] eqn:Em;
      [|rewrite (proj1 Hm eq_refl) in Hsome; discriminate].
    destruct (checkpoint self) as [c|] eqn:Ec;
      [|rewrite (proj1 Hc eq_refl) in Hsome; discriminate].
    exists c, m. split; [reflexivity|]. split; [reflexivity|].
    intros s1. unfold load_pretrained_network. rewrite Em, Ec, Hpath, Hsome.
    rewrite bind_run. unfold call.
    destruct (restore_latest c m s1) as [[pe|status] s2]; reflexivity.
Qed.

(** ** The calls of the training regimes *)

Section Calls.
Variable P : event obj -> Prop.
Variables (env : Env) (self : Trainer).
Variables (batch_size : nat) (save_checkpoint : bool) (kwargs : train_kwargs).

Hypothesis Pconfigure : forall d, P (EvConfigure d (pop_default (conf_args kwargs))).
Hypothesis Ploss : forall i, P (EvComputeLoss i (pop_default (net_args kwargs))).
Hypothesis Pgradients : forall l, P (EvApplyGradients l).
Hypothesis Psave :
  forall m, manager self = Some m -> save_checkpoint = true -> P EvSave.

Lemma forward_inference_calls (n_sim : nat) (sim_args : keywords) :
  (forall out ret, P (EvSimulate n_sim sim_args out ret)) ->
  confined P (fun _ => True) (_forward_inference self n_sim sim_args).
Proof.
  intros Psim. unfold _forward_inference.
  destruct (generative_model self) as [gm|]; [|apply confined_raise; exact I].
  apply confined_call; [intros; apply Psim | auto].
Qed.

Lemma train_step_calls (forward_dict : option ref) :
  (forward_dict = None ->
   forall out ret,
     P (EvSimulate batch_size (pop_default (model_args kwargs)) out ret)) ->
  confined P (fun _ => True)
           (_train_step env self batch_size forward_dict kwargs).
Proof.
  intros Psim. unfold _train_step. apply confined_bind.
  { destruct forward_dict as [d|]; [apply confined_ret|].
    apply forward_inference_calls. auto. }
  intros fd. apply confined_bind.
  { apply confined_call; [intros; apply Pconfigure | auto]. }
  intros input_dict. unfold _backprop_step. apply confined_bind.
  { apply confined_call; [intros; apply Ploss | auto]. }
  intros loss. apply confined_bind; [|intros; apply confined_ret].
  apply confined_call; [intros; apply Pgradients | auto].
Qed.

Lemma save_after_epoch_calls :
  confined P (fun _ => True) (save_after_epoch env self save_checkpoint).
Proof.
  unfold save_after_epoch.
  destruct (manager self) as [m|] eqn:Hm; [|apply confined_ret].
  destruct save_checkpoint eqn:Hs; [|apply confined_ret].
  apply confined_call; [intros; eapply Psave; eauto | auto].
Qed.

Lemma train_online_calls (epochs iterations_per_epoch : nat) :
  (forall out ret,
      P (EvSimulate batch_size (pop_default (model_args kwargs)) out ret)) ->
  confined P (fun _ => True)
           (train_online env self epochs iterations_per_epoch batch_size
                         save_checkpoint kwargs).
Proof.
  intros Psim. unfold train_online. apply confined_for_each. intros ep.
  apply confined_bind.
  { apply confined_for_each. intros it. apply train_step_calls. auto. }
  intros losses_ep. apply confined_bind; [|intros; apply confined_ret].
  apply save_after_epoch_calls.
Qed.

Hypothesis Pdataset : forall d held, P (EvDataset d held batch_size).
Hypothesis Piterate : P EvIterate.

Lemma train_offline_all_calls (simulations_dict : ref) (epochs : nat) :
  confined P (fun _ => True)
           (train_offline env self simulations_dict epochs batch_size
                          save_checkpoint kwargs).
Proof.
  unfold train_offline. apply confined_bind.
  { apply confined_call; [intros; apply Pdataset | auto]. }
  intros data_set. unfold offline_epochs. apply confined_for_each. intros ep.
  apply confined_bind; [apply confined_lift; auto|]. intros _.
  apply confined_bind.
  { apply confined_call; [intros; apply Piterate | auto]. }
  intros batches. apply confined_bind.
  { apply confined_for_each. intros d. apply train_step_calls. discriminate. }
  intros losses_ep. apply confined_bind; [|intros; apply confined_ret].
  apply save_after_epoch_calls.
Qed.

Lemma rounds_loop_calls (sim_per_round epochs : nat) (rs : list nat) :
  (forall out ret,
      P (EvSimulate sim_per_round (as_keywords kwargs) out ret)) ->
  forall first_round sd losses,
    confined P (fun _ => True)
             (rounds_loop env self rs first_round sd losses sim_per_round
                          epochs batch_size save_checkpoint kwargs).
Proof.
  intros Psim. induction rs as [|r rs IH]; intros first_round sd losses; simpl.
  - apply confined_ret.
  - apply confined_bind.
    + destruct first_round; [apply forward_inference_calls, Psim|].
      unfold simulate_further.
      apply confined_bind; [apply forward_inference_calls, Psim|].
      intros b. apply confined_bind.
      { apply silent_confined. intros s. unfold dict_keys, calls.
        destruct (contents s sd); reflexivity. }
      intros ks. apply confined_bind; [apply concatenate_keys_confined|].
      intros _. apply confined_ret.
    + intros sd'. apply confined_bind; [|intros; apply IH].
      apply train_offline_all_calls.
Qed.

End Calls.

Lemma count_none (k : call_kind) (t : list (event obj)) :
  Forall (fun ev => kind_of ev <> k) t -> count k t = 0.
Proof.
  unfold count. induction 1 as [|ev t Hev _ IH]; simpl; [reflexivity|].
  destruct (kind_of ev), k; simpl; auto; contradiction.
Qed.

(** X8: without a checkpoint manager, or with [save_checkpoint] off, no
    training regime saves a checkpoint. *)
Theorem no_checkpoint_saved
        (env : Env) (self : Trainer) (save_checkpoint : bool) :
  manager self = None \/ save_checkpoint = false ->
  (forall epochs iterations_per_epoch batch_size kwargs s,
      count KSave
            (calls (train_online env self epochs iterations_per_epoch
                                 batch_size save_checkpoint kwargs s)) = 0) /\
  (forall simulations_dict epochs batch_size kwargs s,
      count KSave
            (calls (train_offline env self simulations_dict epochs batch_size
                                  save_checkpoint kwargs s)) = 0) /\
  (forall rounds sim_per_round epochs batch_size kwargs s,
      count KSave
            (calls (train_rounds env self rounds sim_per_round epochs
                                 batch_size save_checkpoint kwargs s)) = 0).
Proof.
  intros Hno.
  assert (Hsave : forall m, manager self = Some m -> save_checkpoint = true ->
                            kind_of (EvSave (obj := obj)) <> KSave).
  { intros m Hm Hs. destruct Hno; congruence. }
  split; [|split]; intros; apply count_none.
  - apply (train_online_calls (fun ev => kind_of ev <> KSave) env self
             batch_size save_checkpoint kwargs); simpl; auto; discriminate.
  - apply (train_offline_all_calls (fun ev => kind_of ev <> KSave) env self
             batch_size save_checkpoint kwargs); simpl; auto; discriminate.
  - apply (rounds_loop_calls (fun ev => kind_of ev <> KSave) env self
             batch_size save_checkpoint kwargs); simpl; auto; discriminate.
Qed.

(** X9: how the keyword arguments are handed on.  In online training
    every simulation asks for [batch_size] data sets with the entries of
    [model_args]; in offline training nothing is simulated; in both the
    configurator gets the entries of [conf_args] and [compute_loss] those
    of [net_args]. *)
Theorem keyword_arguments_are_routed
        (env : Env) (self : Trainer) (batch_size : nat)
        (save_checkpoint : bool) (kwargs : train_kwargs) (s : state) :
  (forall epochs iterations_per_epoch,
      Forall (routed batch_size (pop_default (model_args kwargs)) kwargs)
             (calls (train_online env self epochs iterations_per_epoch
                                  batch_size save_checkpoint kwargs s))) /\
  (forall simulations_dict epochs,
      Forall (fun ev => is_simulate ev = false /\
                        routed batch_size [] kwargs ev)
             (calls (train_offline env self simulations_dict epochs batch_size
                                   save_checkpoint kwargs s))).
Proof.
  split; intros.
  - apply (train_online_calls
             (routed batch_size (pop_default (model_args kwargs)) kwargs)
             env self batch_size save_checkpoint kwargs); simpl; auto.
  - apply (train_offline_all_calls
             (fun ev => is_simulate ev = false /\ routed batch_size [] kwargs ev)
             env self batch_size save_checkpoint kwargs); simpl; auto.
Qed.

(** X10: round-based training hands its keyword arguments to the
    generative model as they are: every simulation asks for
    [sim_per_round] data sets with the keywords [model_args], [conf_args]
    and [net_args] themselves (line 293 and 299 pass [**kwargs]), not with
    the entries of [model_args] as a training step does; the configurator
    and [compute_loss] get the entries of [conf_args] and [net_args]. *)
Theorem rounds_hand_all_keywords_to_the_model
        (env : Env) (self : Trainer)
        (rounds sim_per_round epochs batch_size : nat)
        (save_checkpoint : bool) (kwargs : train_kwargs) (s : state) :
  Forall (routed sim_per_round (as_keywords kwargs) kwargs)
         (calls (train_rounds env self rounds sim_per_round epochs batch_size
                              save_checkpoint kwargs s)).
Proof.
  apply (rounds_loop_calls
           (routed sim_per_round (as_keywords kwargs) kwargs)
           env self batch_size save_checkpoint kwargs); simpl; auto.
Qed.

(** ** Runs that return *)

Lemma count_app (k : call_kind) (t1 t2 : list (event obj)) :
  count k (t1 ++ t2) = count k t1 + count k t2.
Proof. unfold count. rewrite filter_app, length_app. reflexivity. Qed.

Lemma count_one (k : call_kind) (ev : event obj) :
  count k [ev] = one_for (kind_of ev) k.
Proof. unfold count, one_for. simpl. destruct (same_kind _ _); reflexivity. Qed.

Lemma list_sum_constant {B} (c : nat) (l : list B) :
  list_sum (map (fun _ => c) l) = length l * c.
Proof. induction l as [|b l IH]; simpl; [reflexivity | rewrite IH; lia]. Qed.

Lemma for_each_returned {A B} (R : A -> B -> Prop) (k : call_kind)
      (f : B -> nat) (xs : list A) (body : A -> M B) :
  (forall x s b s' t, body x s = (inr b, s', t) -> R x b /\ count k t = f b) ->
  forall s bs s' t,
    for_each xs body s = (inr bs, s', t) ->
    Forall2 R xs bs /\ count k t = list_sum (map f bs).
Proof.
  intros Hbody. induction xs as [|x xs IH]; intros s bs s' t; simpl for_each.
  - intros [= <- _ <-]. split; [constructor | reflexivity].
  - rewrite bind_run.
    destruct (body x s) as [[[e|b] s1] t1] eqn:Eb; [discriminate|].
    destruct (Hbody x s b s1 t1 Eb) as [HR Hc].
    rewrite bind_run.
    destruct (for_each xs body s1) as [[[e|bs1] s2] t2] eqn:Er; [discriminate|].
    destruct (IH s1 bs1 s2 t2 Er) as [HF Hcs].
    simpl. intros [= <- _ <-]. split; [constructor; assumption|].
    rewrite app_nil_r, count_app. simpl. lia.
Qed.

Lemma call_returned {A} (who : collaborator) (f : ext World obj A) ev
      (s s' : state) (a : A) (t : list (event obj)) :
  call who f ev s = (inr a, s', t) -> t = [ev s (inr a) s'].
Proof.
  unfold call. destruct (f s) as [[e|a0] s1]; [discriminate|].
  intros [= <- <- <-]. reflexivity.
Qed.

(** The calls of a training step that returns. *)
Lemma train_step_returned (env : Env) (self : Trainer) (batch_size : nat)
      (forward_dict : option ref) (kwargs : train_kwargs)
      (s s' : state) (l : obj) (t : list (event obj)) (k : call_kind) :
  _train_step env self batch_size forward_dict kwargs s = (inr l, s', t) ->
  count k t = step_calls (match forward_dict with
                          | None => true
                          | Some _ => false
                          end) k.
Proof.
  unfold _train_step. rewrite bind_run.
  assert (Hfd :
            forall fd s1 t1,
              match forward_dict with
              | Some d => ret d
              | None => _forward_inference self batch_size
                                           (pop_default (model_args kwargs))
              end s = (inr fd, s1, t1) ->
              count k t1 = match forward_dict with
                           | None => one_for KSimulate k
                           | Some _ => 0
                           end).
  { intros fd s1 t1. destruct forward_dict as [d|].
    - intros [= _ _ <-]. reflexivity.
    - unfold _forward_inference.
      destruct (generative_model self) as [gm|]; [|discriminate].
      intros H. apply call_returned in H. subst t1. apply count_one. }
  destruct (match forward_dict with
            | Some d => ret d
            | None => _ end s) as [[[e|fd] s1] t1]; [discriminate|].
  specialize (Hfd fd s1 t1 eq_refl).
  rewrite bind_run.
  destruct (call_configurator env (configurator self) fd
                              (pop_default (conf_args kwargs)) s1)
    as [[[e|i] s2] t2] eqn:E2; [discriminate|].
  apply call_returned in E2.
  unfold _backprop_step. rewrite bind_run.
  destruct (call_compute_loss (amortizer self) i
                              (pop_default (net_args kwargs)) s2)
    as [[[e|loss] s3] t3] eqn:E3; [discriminate|].
  apply call_returned in E3. rewrite bind_run.
  destruct (call TheOptimizer _ _ s3) as [[[e|u] s4] t4] eqn:E4; [discriminate|].
  apply call_returned in E4.
  simpl. intros [= _ _ <-]. subst t2 t3 t4.
  rewrite !count_app, Hfd, !count_one. simpl.
  destruct forward_dict, k; reflexivity.
Qed.

Lemma save_after_epoch_returned (env : Env) (self : Trainer)
      (save_checkpoint : bool) (s s' : state) (t : list (event obj))
      (k : call_kind) :
  save_after_epoch env self save_checkpoint s = (inr tt, s', t) ->
  count k t = epoch_end_calls self save_checkpoint k.
Proof.
  unfold save_after_epoch, epoch_end_calls.
  destruct (manager self) as [m|];
    [destruct save_checkpoint|]; try (intros [= _ <-]; destruct k; reflexivity).
  intros H. apply call_returned in H. subst t. destruct k; reflexivity.
Qed.

Lemma Forall2_map_fst {A B} (xs : list A) (ps : list (A * B)) (R : B -> Prop) :
  Forall2 (fun x p => fst p = x /\ R (snd p)) xs ps ->
  map fst ps = xs /\ Forall (fun p => R (snd p)) ps.
Proof.
  induction 1 as [|x p xs ps [Hx HR] _ [IH1 IH2]]; simpl.
  - split; [reflexivity | constructor].
  - split; [congruence | constructor; assumption].
Qed.

(** One epoch of online training that returns. *)
Lemma online_epoch_returned (env : Env) (self : Trainer)
      (iterations_per_epoch batch_size : nat) (save_checkpoint : bool)
      (kwargs : train_kwargs) (k : call_kind) (ep : nat)
      (s s' : state) (p : nat * list obj) (t : list (event obj)) :
  (losses_ep <- for_each (range1 iterations_per_epoch) (fun it =>
                  _train_step env self batch_size None kwargs) ;;
   save_after_epoch env self save_checkpoint ;;;
   ret (ep, losses_ep)) s = (inr p, s', t) ->
  (fst p = ep /\ length (snd p) = iterations_per_epoch) /\
  count k t = iterations_per_epoch * step_calls true k
              + epoch_end_calls self save_checkpoint k.
Proof.
  rewrite bind_run.
  destruct (for_each (range1 iterations_per_epoch) _ s)
    as [[[e|losses_ep] s1] t1] eqn:E1; [discriminate|].
  apply (for_each_returned (fun _ _ => True) k (fun _ => step_calls true k))
    in E1.
  2:{ intros x s0 b s0' t0 H. split; [exact I|].
      apply (train_step_returned _ _ _ _ _ _ _ _ _ k H). }
  destruct E1 as [HF Hc]. apply Forall2_length in HF.
  unfold range1 in HF. rewrite length_seq in HF.
  rewrite list_sum_constant in Hc.
  rewrite bind_run.
  destruct (save_after_epoch env self save_checkpoint s1)
    as [[[e|[]] s2] t2] eqn:E2; [discriminate|].
  apply (save_after_epoch_returned _ _ _ _ _ _ k) in E2.
  simpl. intros [= <- _ <-]. simpl. split; [auto|].
  rewrite app_nil_r, count_app. lia.
Qed.

Lemma train_online_returned_calls
      (env : Env) (self : Trainer)
      (epochs iterations_per_epoch batch_size : nat) (save_checkpoint : bool)
      (kwargs : train_kwargs) (s s' : state)
      (losses : losses_dict) (t : list (event obj)) :
  train_online env self epochs iterations_per_epoch batch_size
               save_checkpoint kwargs s = (inr losses, s', t) ->
  map fst losses = range1 epochs /\
  Forall (fun p => length (snd p) = iterations_per_epoch) losses /\
  forall k,
    count k t = epochs * (iterations_per_epoch * step_calls true k
                          + epoch_end_calls self save_checkpoint k).
Proof.
  unfold train_online. intros H.
  assert (Hall :
            forall k,
              Forall2 (fun ep p => fst p = ep /\
                                   length (snd p) = iterations_per_epoch)
                      (range1 epochs) losses /\
              count k t =
              list_sum (map (fun _ => iterations_per_epoch * step_calls true k
                                      + epoch_end_calls self save_checkpoint k)
                            losses)).
  { intros k. eapply for_each_returned; [|exact H].
    intros ep s0 p s0' t0 Hep.
    eapply online_epoch_returned, Hep. }
  destruct (Hall KSave) as [HF _].
  destruct (Forall2_map_fst _ _ (fun l => length l = iterations_per_epoch) HF)
    as [Hkeys Hlen].
  split; [exact Hkeys|]. split; [exact Hlen|].
  intros k. destruct (Hall k) as [_ Hc].
  rewrite list_sum_constant in Hc.
  rewrite Hc, <- (length_map fst), Hkeys. unfold range1.
  rewrite length_seq. reflexivity.
Qed.

(** X11: online training that returns recorded losses for the epochs
    [1 .. epochs], [iterations_per_epoch] for each; it made
    [epochs * iterations_per_epoch] simulations, calls to the
    configurator, loss computations and gradient applications, built no
    data set, and saved once per epoch when there is a manager and
    [save_checkpoint] is on. *)
Theorem train_online_returned
        (env : Env) (self : Trainer)
        (epochs iterations_per_epoch batch_size : nat) (save_checkpoint : bool)
        (kwargs : train_kwargs) (s s' : state)
        (losses : losses_dict) (t : list (event obj)) :
  train_online env self epochs iterations_per_epoch batch_size
               save_checkpoint kwargs s = (inr losses, s', t) ->
  map fst losses = range1 epochs /\
  Forall (fun p => length (snd p) = iterations_per_epoch) losses /\
  count KSimulate t = epochs * iterations_per_epoch /\
  count KConfigure t = epochs * iterations_per_epoch /\
  count KComputeLoss t = epochs * iterations_per_epoch /\
  count KApplyGradients t = epochs * iterations_per_epoch /\
  count KDataset t = 0 /\
  count KIterate t = 0 /\
  count KSave t = epochs * epoch_end_calls self save_checkpoint KSave.
Proof.
  intros H. apply train_online_returned_calls in H.
  destruct H as (Hkeys & Hlen & Hc).
  split; [exact Hkeys|]. split; [exact Hlen|].
  rewrite !Hc. unfold step_calls, epoch_end_calls.
  destruct (manager self), save_checkpoint; simpl; repeat split; lia.
Qed.

Lemma list_sum_losses (c d : nat) (losses : losses_dict (obj := obj)) :
  list_sum (map (fun p : nat * list obj => c + length (snd p) * d) losses)
  = length losses * c + total_losses losses * d.
Proof.
  unfold total_losses.
  induction losses as [|p losses IH]; simpl; [reflexivity | rewrite IH; lia].
Qed.

(** One epoch of offline training that returns. *)
Lemma offline_epoch_returned (env : Env) (self : Trainer) (data_set : obj)
      (batch_size : nat) (save_checkpoint : bool)
      (kwargs : train_kwargs) (k : call_kind) (ep : nat)
      (s s' : state) (p : nat * list obj) (t : list (event obj)) :
  (lift (progress_total (n_sim_of env data_set) batch_size) ;;;
   batches <- call TheDataset (dataset_iter env data_set)
                   (fun _ _ _ => EvIterate) ;;
   losses_ep <- for_each batches (fun forward_dict =>
                  _train_step env self batch_size (Some forward_dict) kwargs) ;;
   save_after_epoch env self save_checkpoint ;;;
   ret (ep, losses_ep)) s = (inr p, s', t) ->
  (fst p = ep /\ 0 < batch_size) /\
  count k t = (one_for KIterate k + epoch_end_calls self save_checkpoint k)
              + length (snd p) * step_calls false k.
Proof.
  rewrite bind_run. unfold lift at 1, progress_total.
  destruct (Nat.eqb_spec batch_size 0) as [|Hbs]; [discriminate|].
  rewrite bind_run.
  destruct (call TheDataset _ _ s) as [[[e|batches] s1] t1] eqn:E1;
    [discriminate|].
  apply call_returned in E1. rewrite bind_run.
  destruct (for_each batches _ s1) as [[[e|losses_ep] s2] t2] eqn:E2;
    [discriminate|].
  apply (for_each_returned (fun _ _ => True) k (fun _ => step_calls false k))
    in E2.
  2:{ intros x s0 b s0' t0 H. split; [exact I|].
      apply (train_step_returned _ _ _ _ _ _ _ _ _ k H). }
  destruct E2 as [_ Hc]. rewrite list_sum_constant in Hc.
  rewrite bind_run.
  destruct (save_after_epoch env self save_checkpoint s2)
    as [[[e|[]] s3] t3] eqn:E3; [discriminate|].
  apply (save_after_epoch_returned _ _ _ _ _ _ k) in E3.
  simpl. intros [= <- _ <-]. simpl. split; [split; [reflexivity | lia]|].
  subst t1. rewrite app_nil_r, !count_app, count_one. simpl kind_of. lia.
Qed.

Lemma train_offline_returned_calls (env : Env) (self : Trainer)
      (simulations_dict : ref) (epochs batch_size : nat)
      (save_checkpoint : bool) (kwargs : train_kwargs) (s s' : state)
      (losses : losses_dict) (t : list (event obj)) :
  train_offline env self simulations_dict epochs batch_size
                save_checkpoint kwargs s = (inr losses, s', t) ->
  map fst losses = range1 epochs /\
  (epochs = 0 \/ 0 < batch_size) /\
  forall k,
    count k t = one_for KDataset k
                + epochs * (one_for KIterate k
                            + epoch_end_calls self save_checkpoint k)
                + total_losses losses * step_calls false k.
Proof.
  unfold train_offline. rewrite bind_run.
  destruct (call TheDataset _ _ s) as [[[e|data_set] s1] t1] eqn:E1;
    [discriminate|].
  apply call_returned in E1.
  destruct (offline_epochs env self data_set epochs batch_size
                           save_checkpoint kwargs s1)
    as [[[e|losses'] s2] t2] eqn:E2; [discriminate|].
  intros [= <- _ <-]. unfold offline_epochs in E2.
  assert (Hall :
            forall k,
              Forall2 (fun ep (p : nat * list obj) =>
                         fst p = ep /\ 0 < batch_size)
                      (range1 epochs) losses' /\
              count k t2 =
              list_sum (map (fun p : nat * list obj =>
                               (one_for KIterate k
                                + epoch_end_calls self save_checkpoint k)
                               + length (snd p) * step_calls false k)
                            losses')).
  { intros k. eapply for_each_returned; [|exact E2].
    intros ep s0 p s0' t0 Hep.
    eapply offline_epoch_returned, Hep. }
  destruct (Hall KSave) as [HF _].
  assert (Hkeys : map fst losses' = range1 epochs).
  { clear -HF. induction HF as [|x p xs ps [Hx _] _ IH]; simpl; congruence. }
  assert (Hlen : length losses' = epochs).
  { rewrite <- (length_map fst), Hkeys. unfold range1. apply length_seq. }
  split; [exact Hkeys|]. split.
  { destruct HF as [|x p xs ps [_ Hbs] _].
    - left. unfold range1 in Hlen. simpl in Hlen. symmetry. exact Hlen.
    - right. exact Hbs. }
  intros k. destruct (Hall k) as [_ Hc].
  rewrite list_sum_losses, Hlen in Hc. subst t1.
  rewrite count_app, count_one, Hc. simpl kind_of. lia.
Qed.

(** X12: offline training that returns recorded losses for the epochs
    [1 .. epochs]; the batch size was positive unless there was no epoch;
    it built one data set, iterated over it once per epoch, never
    simulated, and called the configurator, the loss and the optimizer
    once for each loss it recorded. *)
Theorem train_offline_returned
        (env : Env) (self : Trainer)
        (simulations_dict : ref) (epochs batch_size : nat)
        (save_checkpoint : bool) (kwargs : train_kwargs) (s s' : state)
        (losses : losses_dict) (t : list (event obj)) :
  train_offline env self simulations_dict epochs batch_size
                save_checkpoint kwargs s = (inr losses, s', t) ->
  map fst losses = range1 epochs /\
  (epochs = 0 \/ 0 < batch_size) /\
  count KDataset t = 1 /\
  count KIterate t = epochs /\
  count KSimulate t = 0 /\
  count KConfigure t = total_losses losses /\
  count KComputeLoss t = total_losses losses /\
  count KApplyGradients t = total_losses losses /\
  count KSave t = epochs * epoch_end_calls self save_checkpoint KSave.
Proof.
  intros H. apply train_offline_returned_calls in H.
  destruct H as (Hkeys & Hbs & Hc).
  split; [exact Hkeys|]. split; [exact Hbs|].
  rewrite !Hc. unfold one_for, step_calls, epoch_end_calls. simpl.
  destruct (manager self), save_checkpoint; simpl; repeat split; lia.
Qed.

Lemma concatenate_keys_silent (ks : list string) (sd sd_r : ref) (s : state) :
  calls (concatenate_keys (World := World) (obj := obj) ks sd sd_r s) = [].
Proof.
  destruct (concatenate_keys_confined (fun _ => False) ks sd sd_r s) as [H _].
  destruct (calls _) as [|ev t]; [reflexivity|].
  inversion H as [|? ? []].
Qed.

(** The data generation step of a round that returns asked the model once. *)
Lemma simulation_of_round_returned (self : Trainer) (first_round : bool)
      (sim_per_round : nat) (kwargs : train_kwargs) (simulations_dict : ref)
      (s s' : state) (d : ref) (t : list (event obj)) (k : call_kind) :
  (if first_round
   then _forward_inference self sim_per_round (as_keywords kwargs)
   else simulate_further self sim_per_round kwargs simulations_dict) s
  = (inr d, s', t) ->
  count k t = one_for KSimulate k.
Proof.
  assert (Hfi :
            forall s0 s1 r t0,
              _forward_inference self sim_per_round (as_keywords kwargs) s0
              = (inr r, s1, t0) ->
              count k t0 = one_for KSimulate k).
  { intros s0 s1 r t0. unfold _forward_inference.
      destruct (generative_model self) as [gm|]; [|discriminate].
      intros H. apply call_returned in H. subst t0. apply count_one. }
  destruct first_round; [apply Hfi|].
  unfold simulate_further. rewrite bind_run.
  destruct (_forward_inference self sim_per_round (as_keywords kwargs) s)
    as [[[e|r] s1] t1] eqn:E1; [discriminate|].
  apply Hfi in E1. rewrite bind_run. unfold dict_keys at 1.
  destruct (contents s1 simulations_dict) as [entries|]; [|discriminate].
  rewrite bind_run.
  pose proof (concatenate_keys_silent (keys entries) simulations_dict r s1)
    as Hsilent.
  destruct (concatenate_keys (keys entries) simulations_dict r s1)
    as [[[e|[]] s2] t2]; [discriminate|].
  unfold calls in Hsilent. simpl in Hsilent. subst t2.
  simpl. intros [= _ _ <-]. rewrite !app_nil_r. exact E1.
Qed.

Lemma rounds_loop_returned (env : Env) (self : Trainer)
      (sim_per_round epochs batch_size : nat) (save_checkpoint : bool)
      (kwargs : train_kwargs) (k : call_kind) (rs : list nat) :
  forall (first_round : bool) (simulations_dict : ref)
         (losses0 result : list (nat * losses_dict)) (s s' : state)
         (t : list (event obj)),
    rounds_loop env self rs first_round simulations_dict losses0
                sim_per_round epochs batch_size save_checkpoint kwargs s
    = (inr result, s', t) ->
    exists new,
      result = losses0 ++ new /\
      map fst new = rs /\
      Forall (fun p => map fst (snd p) = range1 epochs) new /\
      (rs = [] \/ epochs = 0 \/ 0 < batch_size) /\
      count k t =
      length rs * (one_for KSimulate k + one_for KDataset k
                   + epochs * (one_for KIterate k
                               + epoch_end_calls self save_checkpoint k))
      + list_sum (map (fun p => total_losses (snd p)) new)
        * step_calls false k.
Proof.
  induction rs as [|r rs IH];
    intros first_round sd losses0 result s s' t; simpl rounds_loop.
  - intros [= <- _ <-]. exists []. rewrite app_nil_r.
    repeat split; auto.
  - rewrite bind_run.
    destruct ((if first_round
               then _forward_inference self sim_per_round (as_keywords kwargs)
               else simulate_further self sim_per_round kwargs sd) s)
      as [[[e|d] s1] t1] eqn:E1; [discriminate|].
    apply (simulation_of_round_returned _ _ _ _ _ _ _ _ _ k) in E1.
    rewrite bind_run.
    destruct (train_offline env self d epochs batch_size save_checkpoint
                            kwargs s1) as [[[e|losses_r] s2] t2] eqn:E2;
      [discriminate|].
    apply train_offline_returned_calls in E2.
    destruct E2 as (Hkeys & Hbs & Hc). specialize (Hc k).
    destruct (rounds_loop env self rs false d (losses0 ++ [(r, losses_r)])
                          sim_per_round epochs batch_size save_checkpoint
                          kwargs s2) as [[[e|res] s3] t3] eqn:E3;
      [discriminate|].
    apply IH in E3. destruct E3 as (new & Hres & Hfst & Hall & _ & Hcount).
    intros [= <- _ <-].
    exists ((r, losses_r) :: new). rewrite Hres, <- app_assoc.
    split; [reflexivity|]. split; [simpl; congruence|].
    split; [constructor; assumption|]. split; [right; exact Hbs|].
    rewrite !count_app, E1, Hc, Hcount. simpl. lia.
Qed.

(** X13: training in rounds that returns recorded, for the rounds
    [1 .. rounds], losses for the epochs [1 .. epochs]; it asked the
    generative model once per round, built one data set per round and
    iterated over it once per epoch, and called the configurator, the
    loss and the optimizer once for each loss it recorded. *)
Theorem train_rounds_returned
        (env : Env) (self : Trainer)
        (rounds sim_per_round epochs batch_size : nat)
        (save_checkpoint : bool) (kwargs : train_kwargs) (s s' : state)
        (losses : list (nat * losses_dict)) (t : list (event obj)) :
  train_rounds env self rounds sim_per_round epochs batch_size
               save_checkpoint kwargs s = (inr losses, s', t) ->
  map fst losses = range1 rounds /\
  Forall (fun p => map fst (snd p) = range1 epochs) losses /\
  count KSimulate t = rounds /\
  count KDataset t = rounds /\
  count KIterate t = rounds * epochs /\
  count KConfigure t = list_sum (map (fun p => total_losses (snd p)) losses) /\
  count KComputeLoss t = list_sum (map (fun p => total_losses (snd p)) losses) /\
  count KApplyGradients t
  = list_sum (map (fun p => total_losses (snd p)) losses).
Proof.
  unfold train_rounds. intros H.
  assert (Hall := fun k => rounds_loop_returned env self sim_per_round epochs
                             batch_size save_checkpoint kwargs k _ _ _ _ _ _ _ _ H).
  destruct (Hall KSave) as (new & Hres & Hfst & HF & _ & _).
  simpl in Hres. subst new.
  split; [exact Hfst|]. split; [exact HF|].
  assert (Hc : forall k,
             count k t =
             rounds * (one_for KSimulate k + one_for KDataset k
                       + epochs * (one_for KIterate k
                                   + epoch_end_calls self save_checkpoint k))
             + list_sum (map (fun p => total_losses (snd p)) losses)
               * step_calls false k).
  { intros k. destruct (Hall k) as (new & Hres & _ & _ & _ & Hcount).
    simpl in Hres. subst new. unfold range1 in Hcount.
    rewrite length_seq in Hcount. exact Hcount. }
  rewrite !Hc. unfold one_for, step_calls, epoch_end_calls. simpl.
  destruct (manager self), save_checkpoint; simpl; repeat split; lia.
Qed.

(** ** The concatenation loop of [train_rounds] *)

Lemma concatenate_entry_concatenable (k : string) (v : value obj)
      (b : dict obj) :
  (exists v', concatenate_entry k v b = inr v') <-> concatenable b (k, v).
Proof.
  unfold concatenate_entry, concatenable. simpl.
  destruct v as [|a|o].
  - split; [auto | eauto].
  - destruct (lookup b k) as [[|a'|o]|]; simpl.
    + split; [intros [v' H]; discriminate | intros (a' & H & _); discriminate].
    + destruct (list_eq_dec Nat.eq_dec (item_shape a) (item_shape a'))
        as [Heq|Hne].
      * split; [intros _; exists a'; auto | eauto].
      * split; [intros [v' H]; discriminate|].
        intros (a0 & [= <-] & H). congruence.
    + split; [intros [v' H]; discriminate | intros (a' & H & _); discriminate].
    + split; [intros [v' H]; discriminate | intros (a' & H & _); discriminate].
  - split; [|contradiction].
    intros [v' H]. destruct (lookup b k); discriminate.
Qed.

Lemma concatenate_dicts_concatenable (d b : dict obj) :
  (exists d', concatenate_dicts d b = inr d') <-> Forall (concatenable b) d.
Proof.
  induction d as [|[k v] d IH]; simpl.
  - split; [constructor | eauto].
  - pose proof (concatenate_entry_concatenable k v b) as Hentry.
    destruct (concatenate_entry k v b) as [e|v'].
    + split; [intros [d' H]; discriminate|].
      intros H. inversion H as [|? ? Hkv _]. apply Hentry in Hkv.
      destruct Hkv; discriminate.
    + destruct (concatenate_dicts d b) as [e|d'].
      * split; [intros [d' H]; discriminate|].
        intros H. inversion H as [|? ? _ Hd]. apply IH in Hd.
        destruct Hd; discriminate.
      * split; [|eauto]. intros _. constructor; [apply Hentry | apply IH]; eauto.
Qed.

Lemma concatenate_entry_error (k : string) (v : value obj) (b : dict obj) :
  ~ concatenable b (k, v) ->
  exists e,
    concatenate_entry k v b = inl e /\
    (lookup b k = None -> e = KeyError k) /\
    (lookup b k <> None -> exists msg, e = ValueError msg).
Proof.
  intros Hno.
  pose proof (concatenate_entry_concatenable k v b) as Hentry.
  destruct (concatenate_entry k v b) as [e|v'] eqn:E;
    [|exfalso; apply Hno, Hentry; eauto].
  exists e. split; [reflexivity|]. unfold concatenate_entry in E.
  destruct v as [|a|o]; [discriminate| |];
    (destruct (lookup b k) as [v_r|];
     [split; [discriminate|]; intros _ | split; [congruence | congruence]]).
  - unfold np_concatenate in E. destruct v_r; try (injection E as <-; eauto).
    destruct (list_eq_dec _ _ _); [discriminate|]. injection E as <-. eauto.
  - unfold np_concatenate in E. injection E as <-. eauto.
Qed.

Lemma concatenate_keys_app (ks1 ks2 : list string) (sd r : ref) (s : state) :
  concatenate_keys (World := World) (obj := obj) (ks1 ++ ks2) sd r s
  = (concatenate_keys ks1 sd r ;;; concatenate_keys ks2 sd r) s.
Proof.
  revert s. induction ks1 as [|k ks1 IH]; intros s; simpl.
  - rewrite bind_run. simpl.
    destruct (concatenate_keys ks2 sd r s) as [[res s'] t]. reflexivity.
  - rewrite !bind_run.
    destruct (concatenate_key k sd r s) as [[[e|[]] s1] t1]; [reflexivity|].
    rewrite IH, !bind_run.
    destruct (concatenate_keys ks1 sd r s1) as [[[e|[]] s2] t2];
      [reflexivity|].
    destruct (concatenate_keys ks2 sd r s2) as [[res s3] t3].
    rewrite app_assoc. reflexivity.
Qed.

(** The loop over the first keys of a dictionary: when all of them can be
    handled, their entries are replaced and the others stay. *)
Lemma concatenate_keys_prefix (sd r : ref) (b : dict obj) (rest : dict obj) :
  sd <> r ->
  forall (todo done todo' : dict obj) (s : state),
    contents s sd = Some (done ++ todo ++ rest) ->
    contents s r = Some b ->
    NoDup (keys (done ++ todo ++ rest)) ->
    concatenate_dicts todo b = inr todo' ->
    concatenate_keys (World := World) (keys todo) sd r s =
    (inr tt,
     {| world := world s;
        heap := replace_nth sd (done ++ todo' ++ rest) (heap s) |},
     []).
Proof.
  intros Hne. induction todo as [|[k v] todo IH];
    intros done todo' s Hsd Hr Hnd Hcat.
  - simpl in Hcat. injection Hcat as <-. simpl. unfold ret.
    rewrite replace_nth_same by exact Hsd. destruct s; reflexivity.
  - simpl in Hsd, Hnd.
    assert (Hk : ~ In k (keys done)) by (eapply NoDup_keys_front, Hnd).
    pose proof (concatenate_key_run sd r b k v done (todo ++ rest) s
                                    Hne Hsd Hr Hk) as Hkey.
    simpl keys. simpl concatenate_keys. simpl in Hcat.
    destruct (concatenate_entry k v b) as [e|v']; [discriminate|].
    destruct (concatenate_dicts todo b) as [e|todo1] eqn:E; [discriminate|].
    injection Hcat as <-.
    rewrite (bind_returned _ _ _ _ _ Hkey).
    specialize (IH (done ++ [(k, v')]) todo1
                   {| world := world s;
                      heap := replace_nth sd (done ++ (k, v') :: todo ++ rest)
                                          (heap s) |}).
    rewrite <- !app_assoc in IH. simpl in IH.
    unfold contents in IH. simpl in IH.
    rewrite (nth_error_replace_nth_same sd _ _ _ Hsd) in IH.
    rewrite nth_error_replace_nth_other in IH by exact Hne.
    specialize (IH eq_refl Hr).
    rewrite (keys_replace_value done (todo ++ rest) k v v') in IH.
    specialize (IH Hnd eq_refl).
    rewrite replace_nth_twice in IH. exact IH.
Qed.

(** X14: the loop of lines 302-304 over a dictionary with distinct keys,
    with the new simulation in another dictionary, returns exactly when
    every entry is [None] or an array for whose key the new simulation
    has an array with entries of the same shape. *)
Theorem concatenation_succeeds_iff
        (sd r : ref) (d b : dict obj) (s : state) :
  sd <> r ->
  contents s sd = Some d ->
  contents s r = Some b ->
  NoDup (keys d) ->
  (exists s', concatenate_keys (World := World) (keys d) sd r s
              = (inr tt, s', []))
  <-> Forall (concatenable b) d.
Proof.
  intros Hne Hsd Hr Hnd.
  pose proof (concatenate_keys_run sd r b Hne d [] s Hsd Hr Hnd) as Hrun.
  rewrite <- concatenate_dicts_concatenable.
  destruct (concatenate_dicts d b) as [e|d'].
  - destruct Hrun as [s1 Hrun]. rewrite Hrun.
    split; intros [x H]; discriminate.
  - rewrite Hrun. split; eauto.
Qed.

(** X15: the loop stops at the first entry it cannot handle, with a
    [KeyError] when the new simulation lacks the key and a [ValueError]
    otherwise; the entries before it have been concatenated in place by
    then, the others are as they were. *)
Theorem concatenation_stops_at_first_failure
        (sd r : ref) (front back b : dict obj) (k : string) (v : value obj)
        (s : state) :
  sd <> r ->
  contents s sd = Some (front ++ (k, v) :: back) ->
  contents s r = Some b ->
  NoDup (keys (front ++ (k, v) :: back)) ->
  Forall (concatenable b) front ->
  ~ concatenable b (k, v) ->
  exists e front',
    concatenate_keys (World := World) (keys (front ++ (k, v) :: back)) sd r s
    = (inl e,
       {| world := world s;
          heap := replace_nth sd (front' ++ (k, v) :: back) (heap s) |},
       []) /\
    concatenate_dicts front b = inr front' /\
    (lookup b k = None -> e = KeyError k) /\
    (lookup b k <> None -> exists msg, e = ValueError msg).
Proof.
  intros Hne Hsd Hr Hnd Hfront Hno.
  apply concatenate_dicts_concatenable in Hfront.
  destruct Hfront as [front' Hfront].
  destruct (concatenate_entry_error k v b Hno) as (e & He & Hkey & Hval).
  exists e, front'. split; [|auto].
  pose proof (concatenate_keys_prefix sd r b ((k, v) :: back) Hne
                                      front [] front' s Hsd Hr Hnd Hfront)
    as Hrun.
  simpl in Hrun.
  unfold keys. rewrite map_app. simpl map.
  rewrite concatenate_keys_app. fold (keys front).
  rewrite (bind_returned _ _ _ _ _ Hrun).
  simpl concatenate_keys.
  apply bind_raised.
  set (s1 := {| world := world s;
                heap := replace_nth sd (front' ++ (k, v) :: back) (heap s) |}).
  assert (Hsd1 : contents s1 sd = Some (front' ++ (k, v) :: back)).
  { unfold contents, s1. simpl.
    apply (nth_error_replace_nth_same sd _ _ _ Hsd). }
  assert (Hr1 : contents s1 r = Some b).
  { unfold contents, s1. simpl.
    rewrite nth_error_replace_nth_other by exact Hne. exact Hr. }
  assert (Hk : ~ In k (keys front')).
  { rewrite (concatenate_dicts_keys _ _ _ Hfront).
    eapply NoDup_keys_front, Hnd. }
  pose proof (concatenate_key_run sd r b k v front' back s1
                                  Hne Hsd1 Hr1 Hk) as Hkey1.
  rewrite He in Hkey1. exact Hkey1.
Qed.

(** One key when the new simulation is the dictionary itself. *)
Lemma concatenate_key_self (sd : ref) (k : string) (v : value obj)
      (front back : dict obj) (s : state) :
  contents s sd = Some (front ++ (k, v) :: back) ->
  ~ In k (keys front) ->
  none_or_array (k, v) ->
  concatenate_key k sd sd s =
  (inr tt,
   {| world := world s;
      heap := replace_nth sd (front ++ doubled (k, v) :: back) (heap s) |},
   []).
Proof.
  intros Hsd Hk Hv.
  assert (Hget : getitem sd k s = (inr v, s, [])).
  { unfold getitem. rewrite Hsd, lookup_app_notin by exact Hk.
    simpl. rewrite String.eqb_refl. reflexivity. }
  unfold concatenate_key. rewrite (bind_returned _ _ s s v Hget).
  destruct v as [|a|o]; [| |contradiction].
  - unfold ret, doubled. simpl.
    rewrite replace_nth_same by exact Hsd. destruct s; reflexivity.
  - rewrite (bind_returned _ _ s s (Array a) Hget).
    rewrite bind_run. unfold lift, np_concatenate.
    destruct (list_eq_dec Nat.eq_dec (item_shape a) (item_shape a));
      [|contradiction].
    unfold setitem. rewrite Hsd, set_value_app_notin by exact Hk.
    reflexivity.
Qed.

Lemma keys_doubled (d : dict obj) : keys (map doubled d) = keys d.
Proof.
  unfold keys. rewrite map_map. apply map_ext.
  intros [k [|a|o]]; reflexivity.
Qed.

Lemma concatenate_keys_self (sd : ref) :
  forall (todo done : dict obj) (s : state),
    contents s sd = Some (done ++ todo) ->
    NoDup (keys (done ++ todo)) ->
    Forall none_or_array todo ->
    concatenate_keys (World := World) (keys todo) sd sd s =
    (inr tt,
     {| world := world s;
        heap := replace_nth sd (done ++ map doubled todo) (heap s) |},
     []).
Proof.
  induction todo as [|[k v] todo IH]; intros done s Hsd Hnd Hall.
  - simpl. unfold ret. rewrite replace_nth_same by exact Hsd.
    destruct s; reflexivity.
  - inversion Hall as [|? ? Hv Hrest]. subst.
    assert (Hk : ~ In k (keys done)) by (eapply NoDup_keys_front, Hnd).
    pose proof (concatenate_key_self sd k v done todo s Hsd Hk Hv) as Hkey.
    simpl keys. simpl concatenate_keys.
    rewrite (bind_returned _ _ _ _ _ Hkey).
    specialize (IH (done ++ [doubled (k, v)])
                   {| world := world s;
                      heap := replace_nth sd (done ++ doubled (k, v) :: todo)
                                          (heap s) |}).
    rewrite <- !app_assoc in IH. simpl in IH.
    unfold contents in IH. simpl in IH.
    rewrite (nth_error_replace_nth_same sd _ _ _ Hsd) in IH.
    specialize (IH eq_refl).
    assert (Hkeys : keys (done ++ doubled (k, v) :: todo)
                    = keys (done ++ (k, v) :: todo)).
    { unfold keys. rewrite !map_app. simpl. f_equal. f_equal.
      destruct v; reflexivity. }
    rewrite Hkeys in IH. specialize (IH Hnd Hrest).
    rewrite replace_nth_twice in IH. exact IH.
Qed.

(** X16: when the new simulation is the dictionary itself (a generative
    model that returns the dictionary it returned before), the loop
    appends every array to itself: each entry that is an array holds its
    samples twice afterwards, and nothing else changes. *)
Theorem concatenation_with_itself_doubles
        (sd : ref) (d : dict obj) (s : state) :
  contents s sd = Some d ->
  NoDup (keys d) ->
  Forall none_or_array d ->
  concatenate_keys (World := World) (keys d) sd sd s =
  (inr tt,
   {| world := world s; heap := replace_nth sd (map doubled d) (heap s) |},
   []).
Proof.
  intros Hsd Hnd Hall.
  exact (concatenate_keys_self sd d [] s Hsd Hnd Hall).
Qed.

(** *** What the loop leaves alone *)

Lemma written_only_refl (sd : ref) (s : state) : written_only sd s s.
Proof. repeat split; reflexivity. Qed.

Lemma written_only_trans (sd : ref) (s1 s2 s3 : state) :
  written_only sd s1 s2 -> written_only sd s2 s3 -> written_only sd s1 s3.
Proof.
  intros (Hw & Hl & Ho & Hk) (Hw' & Hl' & Ho' & Hk').
  repeat split; try congruence.
  intros d Hd. rewrite Ho', Ho by exact Hd. reflexivity.
Qed.

Lemma length_replace_nth {A} (n : nat) (x : A) (l : list A) :
  length (replace_nth n x l) = length l.
Proof.
  revert n. induction l as [|y l IH]; intros [|n]; simpl; auto.
Qed.

Lemma keys_set_value (k : string) (c v : value obj) (d : dict obj) :
  lookup d k = Some v -> keys (set_value k c d) = keys d.
Proof.
  induction d as [|[k0 v0] d IH]; simpl; [discriminate|].
  destruct (String.eqb k0 k); simpl; [reflexivity|].
  intros H. f_equal. apply IH, H.
Qed.

Lemma concatenate_key_written_only (k : string) (sd r : ref) (s : state) :
  written_only sd s
               (state_after (concatenate_key (World := World) k sd r s)).
Proof.
  unfold concatenate_key, state_after. rewrite bind_run. unfold getitem at 1.
  destruct (contents s sd) as [d|] eqn:Hsd; [|apply written_only_refl].
  destruct (lookup d k) as [v|] eqn:Hv; [|apply written_only_refl].
  assert (H : written_only sd s
                (snd (fst ((v_r <- getitem r k ;;
                            c <- lift (np_concatenate v v_r) ;;
                            setitem sd k c)%trainer s)))).
  { rewrite bind_run. unfold getitem.
    destruct (contents s r) as [b|]; [|apply written_only_refl].
    destruct (lookup b k) as [v_r|]; [|apply written_only_refl].
    rewrite bind_run. unfold lift.
    destruct (np_concatenate v v_r) as [e|c]; [apply written_only_refl|].
    unfold setitem. rewrite Hsd. simpl.
    unfold written_only, contents. simpl.
    split; [reflexivity|]. split; [apply length_replace_nth|].
    split; [intros d0 Hd0; apply nth_error_replace_nth_other; congruence|].
    rewrite (nth_error_replace_nth_same sd _ _ _ Hsd).
    unfold contents in Hsd. rewrite Hsd. simpl.
    f_equal. eapply keys_set_value, Hv. }
  destruct v as [|a|o].
  - simpl. apply written_only_refl.
  - destruct ((v_r <- getitem r k ;;
               c <- lift (np_concatenate (Array a) v_r) ;;
               setitem sd k c)%trainer s) as [[res s1] t1].
    simpl in *. rewrite app_nil_r || idtac. exact H.
  - destruct ((v_r <- getitem r k ;;
               c <- lift (np_concatenate (Scalar o) v_r) ;;
               setitem sd k c)%trainer s) as [[res s1] t1].
    simpl in *. exact H.
Qed.

(** X17: whatever the keys and the dictionaries, and whether it returns
    or raises, the loop calls no collaborator, leaves the world, the
    number of dictionaries and every dictionary other than
    [simulations_dict] as they were, and keeps the keys of
    [simulations_dict] and their order. *)
Theorem concatenation_writes_only_the_first_dictionary
        (ks : list string) (sd r : ref) (s : state) :
  calls (concatenate_keys (World := World) (obj := obj) ks sd r s) = [] /\
  written_only sd s (state_after (concatenate_keys ks sd r s)).
Proof.
  split; [apply concatenate_keys_silent|].
  revert s. induction ks as [|k ks IH]; intros s; simpl.
  - apply written_only_refl.
  - pose proof (concatenate_key_written_only k sd r s) as Hkey.
    unfold state_after in *. rewrite bind_run.
    destruct (concatenate_key k sd r s) as [[[e|[]] s1] t1]; simpl in *;
      [exact Hkey|].
    specialize (IH s1).
    destruct (concatenate_keys ks sd r s1) as [[res s2] t2]. simpl in *.
    eapply written_only_trans; eassumption.
Qed.

(** ** One dictionary for all rounds *)

Lemma dataset_refs_app (t1 t2 : list (event obj)) :
  dataset_refs (t1 ++ t2) = dataset_refs t1 ++ dataset_refs t2.
Proof. apply flat_map_app. Qed.

Lemma dataset_refs_on (sd : ref) (t : list (event obj)) :
  Forall (dataset_on sd) t -> Forall (eq sd) (dataset_refs t).
Proof.
  induction 1 as [|ev t Hev _ IH]; [constructor|].
  destruct ev; simpl in *; auto.
Qed.

Lemma simulate_further_returns_its_dictionary
      (self : Trainer) (sim_per_round : nat) (kwargs : train_kwargs)
      (sd : ref) (s s' : state) (d : ref) (t : list (event obj)) :
  simulate_further self sim_per_round kwargs sd s = (inr d, s', t) -> d = sd.
Proof.
  unfold simulate_further. rewrite bind_run.
  destruct (_forward_inference self sim_per_round (as_keywords kwargs) s)
    as [[[e|r] s1] t1]; [discriminate|].
  rewrite bind_run. unfold dict_keys at 1.
  destruct (contents s1 sd) as [entries|]; [|discriminate].
  rewrite bind_run.
  destruct (concatenate_keys (keys entries) sd r s1) as [[[e|[]] s2] t2];
    [discriminate|].
  simpl. intros [= <- _ _]. reflexivity.
Qed.

Lemma train_offline_dataset_on (env : Env) (self : Trainer) (sd : ref)
      (epochs batch_size : nat) (save_checkpoint : bool)
      (kwargs : train_kwargs) :
  confined (dataset_on sd) (fun _ => True)
           (train_offline env self sd epochs batch_size save_checkpoint kwargs).
Proof.
  unfold train_offline. apply confined_bind.
  - apply confined_call; [intros; reflexivity | auto].
  - intros ds. apply offline_epochs_confined; auto.
    intros [] Hs Hd; simpl in *; try exact I; discriminate.
Qed.

Lemma rounds_loop_later_dataset_on (env : Env) (self : Trainer)
      (sim_per_round epochs batch_size : nat) (save_checkpoint : bool)
      (kwargs : train_kwargs) (sd : ref) (rs : list nat) :
  forall losses,
    confined (dataset_on sd) (fun _ => True)
             (rounds_loop env self rs false sd losses sim_per_round
                          epochs batch_size save_checkpoint kwargs).
Proof.
  induction rs as [|r rs IH]; intros losses; simpl.
  - apply confined_ret.
  - apply (confined_bind_result _ _ (fun d => d = sd)).
    + intros s a s' t. apply simulate_further_returns_its_dictionary.
    + unfold simulate_further. apply confined_bind.
      { apply forward_inference_calls. intros; exact I. }
      intros b. apply confined_bind.
      { apply silent_confined. intros s. unfold dict_keys, calls.
        destruct (contents s sd); reflexivity. }
      intros ks. apply confined_bind; [apply concatenate_keys_confined|].
      intros _. apply confined_ret.
    + intros d ->. apply confined_bind; [|intros; apply IH].
      apply train_offline_dataset_on.
Qed.

(** X18: in round-based training every data set is built on the
    dictionary that the first simulation returned: later simulations are
    appended to that object, and no round trains on another one. *)
Theorem rounds_train_on_the_first_dictionary
        (env : Env) (self : Trainer)
        (rounds sim_per_round epochs batch_size : nat)
        (save_checkpoint : bool) (kwargs : train_kwargs) (s : state) :
  Forall (fun d =>
            hd_error
              (returned_refs
                 (calls (train_rounds env self rounds sim_per_round epochs
                                      batch_size save_checkpoint kwargs s)))
            = Some d)
         (dataset_refs
            (calls (train_rounds env self rounds sim_per_round epochs
                                 batch_size save_checkpoint kwargs s))).
Proof.
  unfold train_rounds. destruct (range1 rounds) as [|r rs]; [constructor|].
  simpl rounds_loop. unfold calls. rewrite bind_run.
  unfold _forward_inference.
  destruct (generative_model self) as [gm|]; [|constructor].
  unfold call_generative_model, call.
  destruct (gm sim_per_round (as_keywords kwargs) s) as [[e|d] s1];
    [constructor|].
  assert (Hc : confined (dataset_on d) (fun _ => True)
                (losses_r <- train_offline env self d epochs batch_size
                                           save_checkpoint kwargs ;;
                 rounds_loop env self rs false d [(r, losses_r)]
                             sim_per_round epochs batch_size save_checkpoint
                             kwargs)%trainer).
  { apply confined_bind; [apply train_offline_dataset_on|].
    intros; apply rounds_loop_later_dataset_on. }
  destruct (Hc s1) as [Hcalls _]. unfold calls in Hcalls. simpl app.
  destruct (bind _ _ s1) as [[res s2] t2].
  simpl. apply dataset_refs_on in Hcalls.
  eapply Forall_impl; [|exact Hcalls]. intros d0 <-. reflexivity.
Qed.

(** ** Failures during training *)

Lemma stops_of_confined {A} (Q : exn -> Prop) (m : M A) :
  confined no_failed_simulation Q m -> stops_at_failed_simulation m.
Proof.
  intros Hm s t1 n_sim kwargs pe held t2 Ht.
  destruct (Hm s) as [Hcalls _]. rewrite Ht in Hcalls.
  apply Forall_app in Hcalls. destruct Hcalls as [_ Hcalls].
  inversion Hcalls as [|? ? Hev _]. simpl in Hev. contradiction.
Qed.

Lemma stops_bind {A B} (m : M A) (f : A -> M B) :
  stops_at_failed_simulation m ->
  (forall a, stops_at_failed_simulation (f a)) ->
  stops_at_failed_simulation (bind m f).
Proof.
  intros Hm Hf s t1 n_sim kwargs pe held t2.
  unfold calls, outcome. rewrite bind_run.
  specialize (Hm s). unfold calls, outcome in Hm.
  destruct (m s) as [[[e|a] s1] tm]; simpl in *.
  { intros Ht. destruct (Hm _ _ _ _ _ _ Ht) as [H1 H2].
    split; [exact H1 | congruence]. }
  specialize (Hf a s1). unfold calls, outcome in Hf.
  destruct (f a s1) as [[res s2] tf]. simpl in *.
  intros Ht. apply app_eq_app in Ht.
  destruct Ht as [l [[H1 H2]|[H1 H2]]].
  - destruct l as [|ev l].
    + simpl in H2. rewrite app_nil_r in H1. subst t1.
      apply (Hf [] n_sim kwargs pe held t2). symmetry. exact H2.
    + simpl in H2. injection H2 as <- H2.
      destruct (Hm t1 n_sim kwargs pe held l H1) as [_ Habs]. discriminate.
  - subst t1. apply (Hf l n_sim kwargs pe held t2). exact H2.
Qed.

Lemma stops_ret {A} (a : A) :
  stops_at_failed_simulation (ret (World := World) (obj := obj) a).
Proof.
  intros s t1 n_sim kwargs pe held t2 Ht. simpl in Ht.
  destruct t1; discriminate.
Qed.

Lemma stops_for_each {A B} (xs : list A) (body : A -> M B) :
  (forall x, stops_at_failed_simulation (body x)) ->
  stops_at_failed_simulation (for_each xs body).
Proof.
  intros Hb. induction xs as [|x xs IH]; simpl; [apply stops_ret|].
  apply stops_bind; [apply Hb|]. intros b.
  apply stops_bind; [exact IH|]. intros bs. apply stops_ret.
Qed.

Lemma forward_inference_stops (self : Trainer) (n_sim : nat)
      (kwargs : keywords) :
  stops_at_failed_simulation (_forward_inference self n_sim kwargs).
Proof.
  unfold _forward_inference.
  destruct (generative_model self) as [gm|].
  - intros s t1 n kw pe held t2.
    unfold call_generative_model, call, calls, outcome.
    destruct (gm n_sim kwargs s) as [[e|d] s1]; simpl;
      (destruct t1 as [|ev [|ev' t1]]; [|discriminate|discriminate]);
      simpl; intros [= ]; subst; auto.
  - intros s t1 n kw pe held t2 Ht. simpl in Ht. destruct t1; discriminate.
Qed.

Lemma train_step_stops (env : Env) (self : Trainer) (batch_size : nat)
      (forward_dict : option ref) (kwargs : train_kwargs) :
  stops_at_failed_simulation
    (_train_step env self batch_size forward_dict kwargs).
Proof.
  unfold _train_step. apply stops_bind.
  { destruct forward_dict; [apply stops_ret | apply forward_inference_stops]. }
  intros fd. apply (stops_of_confined (fun _ => True)).
  apply confined_bind; [apply confined_call; simpl; auto|].
  intros input_dict. unfold _backprop_step.
  apply confined_bind; [apply confined_call; simpl; auto|].
  intros loss. apply confined_bind; [|intros; apply confined_ret].
  apply confined_call; simpl; auto.
Qed.

Lemma save_after_epoch_no_failed_simulation
      (env : Env) (self : Trainer) (save_checkpoint : bool) :
  confined no_failed_simulation (fun _ => True)
           (save_after_epoch env self save_checkpoint).
Proof.
  apply save_after_epoch_confined; [|auto].
  intros [] Hs Hd; simpl in *; try exact I; discriminate.
Qed.

Lemma train_online_stops (env : Env) (self : Trainer)
      (epochs iterations_per_epoch batch_size : nat) (save_checkpoint : bool)
      (kwargs : train_kwargs) :
  stops_at_failed_simulation
    (train_online env self epochs iterations_per_epoch batch_size
                  save_checkpoint kwargs).
Proof.
  unfold train_online. apply stops_for_each. intros ep.
  apply stops_bind.
  { apply stops_for_each. intros it. apply train_step_stops. }
  intros losses_ep. apply (stops_of_confined (fun _ => True)).
  apply confined_bind; [|intros; apply confined_ret].
  apply save_after_epoch_no_failed_simulation.
Qed.

Lemma rounds_loop_stops (env : Env) (self : Trainer)
      (sim_per_round epochs batch_size : nat) (save_checkpoint : bool)
      (kwargs : train_kwargs) (rs : list nat) :
  forall first_round sd losses,
    stops_at_failed_simulation
      (rounds_loop env self rs first_round sd losses sim_per_round
                   epochs batch_size save_checkpoint kwargs).
Proof.
  induction rs as [|r rs IH]; intros first_round sd losses; simpl.
  - apply stops_ret.
  - apply stops_bind.
    + destruct first_round; [apply forward_inference_stops|].
      unfold simulate_further.
      apply stops_bind; [apply forward_inference_stops|].
      intros b. apply (stops_of_confined (fun _ => True)).
      apply confined_bind.
      { apply silent_confined. intros s. unfold dict_keys, calls.
        destruct (contents s sd); reflexivity. }
      intros ks. apply confined_bind; [apply concatenate_keys_confined|].
      intros _. apply confined_ret.
    + intros sd'. apply stops_bind; [|intros; apply IH].
      apply (stops_of_confined (fun _ => True)).
      apply train_offline_confined.
      intros [] Hs; simpl in *; try exact I; discriminate.
Qed.

(** X19: training does not go on after a simulation that raised.  In
    online and in round-based training a call to the generative model
    that raised is the last call of the run, and the run ends with the
    exception of the generative model. *)
Theorem failed_simulation_ends_training
        (env : Env) (self : Trainer) (batch_size : nat)
        (save_checkpoint : bool) (kwargs : train_kwargs) (s : state)
        (t1 t2 : list (event obj)) (n_sim : nat) (sim_args : keywords)
        (pe : py_exception) (held : option (dict obj)) :
  (forall epochs iterations_per_epoch,
      calls (train_online env self epochs iterations_per_epoch batch_size
                          save_checkpoint kwargs s)
      = t1 ++ EvSimulate n_sim sim_args (inl pe) held :: t2 ->
      t2 = [] /\
      outcome (train_online env self epochs iterations_per_epoch batch_size
                            save_checkpoint kwargs s)
      = inl (CollaboratorError TheGenerativeModel pe)) /\
  (forall rounds sim_per_round epochs,
      calls (train_rounds env self rounds sim_per_round epochs batch_size
                          save_checkpoint kwargs s)
      = t1 ++ EvSimulate n_sim sim_args (inl pe) held :: t2 ->
      t2 = [] /\
      outcome (train_rounds env self rounds sim_per_round epochs batch_size
                            save_checkpoint kwargs s)
      = inl (CollaboratorError TheGenerativeModel pe)).
Proof.
  split; intros.
  - eapply train_online_stops; eassumption.
  - eapply rounds_loop_stops; eassumption.
Qed.

(** ** From the simulation to the configurator *)

Lemma configured_nil : configured_after_simulation (@nil (event obj)).
Proof. intros [|ev t1] fd kw t2 H; discriminate. Qed.

Lemma configured_none (t : list (event obj)) :
  Forall (fun ev => kind_of ev <> KConfigure) t ->
  configured_after_simulation t.
Proof.
  intros Hall t1 fd kw t2 ->. apply Forall_app in Hall.
  destruct Hall as [_ Hall]. inversion Hall as [|? ? Hev _].
  exfalso. apply Hev. reflexivity.
Qed.

Lemma configured_app (ta tb : list (event obj)) :
  configured_after_simulation ta -> configured_after_simulation tb ->
  configured_after_simulation (ta ++ tb).
Proof.
  intros Ha Hb t1 fd kw t2 Ht. apply app_eq_app in Ht.
  destruct Ht as [l [[H1 H2]|[H1 H2]]].
  - destruct l as [|ev l].
    + simpl in H2. symmetry in H2.
      destruct (Hb [] fd kw t2 H2) as (t0 & n & sa & held & Habs).
      destruct t0; discriminate.
    + simpl in H2. injection H2 as <- _. apply (Ha t1 fd kw l H1).
  - destruct (Hb l fd kw t2 H2) as (t0 & n & sa & held & ->).
    exists (ta ++ t0), n, sa, held. rewrite H1, app_assoc. reflexivity.
Qed.

Lemma configured_bind {A B} (m : M A) (f : A -> M B) :
  (forall s, configured_after_simulation (calls (m s))) ->
  (forall a s, configured_after_simulation (calls (f a s))) ->
  forall s, configured_after_simulation (calls (bind m f s)).
Proof.
  intros Hm Hf s. unfold calls. rewrite bind_run.
  specialize (Hm s). unfold calls in Hm.
  destruct (m s) as [[[e|a] s1] tm]; simpl in *; [exact Hm|].
  specialize (Hf a s1). unfold calls in Hf.
  destruct (f a s1) as [[res s2] tf]. simpl in *.
  apply configured_app; assumption.
Qed.

Lemma configured_for_each {A B} (xs : list A) (body : A -> M B) :
  (forall x s, configured_after_simulation (calls (body x s))) ->
  forall s, configured_after_simulation (calls (for_each xs body s)).
Proof.
  intros Hb. induction xs as [|x xs IH]; simpl.
  - intros s. apply configured_nil.
  - apply configured_bind; [apply Hb|]. intros b.
    apply configured_bind; [exact IH|]. intros bs s. apply configured_nil.
Qed.

(** The pipeline of a training step and of the consistency check: a
    simulation, the configurator on what it returned, and then calls to
    others. *)
Lemma pipeline_configured {A} (env : Env) (gm : GenerativeModel World obj)
      (c : Configurator World obj) (n_sim : nat) (sim_args conf : keywords)
      (k : obj -> M A) :
  (forall i, confined (fun ev => kind_of ev <> KConfigure) (fun _ => True)
                      (k i)) ->
  forall s,
    configured_after_simulation
      (calls ((forward_dict <- call_generative_model gm n_sim sim_args ;;
               input_dict <- call_configurator env c forward_dict conf ;;
               k input_dict) s)).
Proof.
  intros Hk s. unfold calls. rewrite bind_run.
  unfold call_generative_model, call at 1.
  destruct (gm n_sim sim_args s) as [[pe|d] s1]; simpl.
  { apply configured_none. repeat constructor. discriminate. }
  rewrite bind_run. unfold call_configurator, call at 1.
  assert (Hstep : forall (held : option (dict obj)) (rest : list (event obj)),
             Forall (fun ev => kind_of ev <> KConfigure) rest ->
             configured_after_simulation
               (EvSimulate n_sim sim_args (inr d) held
                :: EvConfigure d conf :: rest)).
  { intros held rest Hrest t1 fd kw t2 Ht.
    destruct t1 as [|ev1 [|ev2 t1]]; simpl in Ht.
    - discriminate.
    - injection Ht as <- <- <- <-. exists [], n_sim, sim_args, held.
      reflexivity.
    - injection Ht as _ _ Ht. rewrite Ht in Hrest.
      apply Forall_app in Hrest. destruct Hrest as [_ Hrest].
      inversion Hrest as [|? ? Hev _]. exfalso. apply Hev. reflexivity. }
  destruct (configurator_fun env c d conf s1) as [[pe|i] s2]; simpl.
  { apply Hstep. constructor. }
  destruct (Hk i s2) as [Hcalls _]. unfold calls in Hcalls.
  destruct (k i s2) as [[res s3] t3]. simpl in *.
  apply Hstep, Hcalls.
Qed.

(** X20: in online training and in the consistency check of the
    construction, the configurator is only ever called on the dictionary
    that the call just before it, a call of the generative model,
    returned. *)
Theorem configurator_gets_the_latest_simulation
        (env : Env) (self : Trainer) (s : state) :
  (forall epochs iterations_per_epoch batch_size save_checkpoint kwargs,
      configured_after_simulation
        (calls (train_online env self epochs iterations_per_epoch batch_size
                             save_checkpoint kwargs s))) /\
  configured_after_simulation (calls (_check_consistency env self s)).
Proof.
  split.
  - intros epochs iterations_per_epoch batch_size save_checkpoint kwargs.
    revert s. unfold train_online. apply configured_for_each. intros ep.
    apply configured_bind.
    + apply configured_for_each. intros it s.
      unfold _train_step, _forward_inference.
      destruct (generative_model self) as [gm|];
        [|rewrite bind_run; apply configured_nil].
      apply pipeline_configured. intros i. unfold _backprop_step.
      apply confined_bind; [apply confined_call; [discriminate | auto]|].
      intros loss. apply confined_bind; [|intros; apply confined_ret].
      apply confined_call; [discriminate | auto].
    + intros losses_ep s. apply configured_none.
      assert (Hc : confined (fun ev => kind_of ev <> KConfigure)
                            (fun _ => True)
                            (save_after_epoch env self save_checkpoint ;;;
                             ret (ep, losses_ep))%trainer).
      { apply confined_bind; [|intros; apply confined_ret].
        unfold save_after_epoch.
        destruct (manager self); [destruct save_checkpoint|];
          try apply confined_ret.
        apply confined_call; [discriminate | auto]. }
      apply (proj1 (Hc s)).
  - unfold _check_consistency.
    destruct (generative_model self) as [gm|]; [|apply configured_nil].
    assert (Hk : forall i,
               confined (fun ev => kind_of ev <> KConfigure) (fun _ => True)
                        (call_compute_loss (amortizer self) i [] ;;;
                         ret tt)%trainer).
    { intros i. apply confined_bind; [|intros; apply confined_ret].
      apply confined_call; [discriminate | auto]. }
    pose proof (pipeline_configured env gm (configurator self) 2 [] [] _
                                    Hk s) as Hpipe.
    unfold calls, try_except, consistency_pipeline in *.
    destruct ((forward_dict <- call_generative_model gm 2 [] ;;
               input_dict <- call_configurator env (configurator self)
                                               forward_dict [] ;;
               call_compute_loss (amortizer self) input_dict [] ;;;
               ret tt)%trainer s) as [[[e|[]] s1] t1];
      [|exact Hpipe].
    destruct (is_Exception e); [|exact Hpipe].
    unfold raise. cbv beta iota. cbn [snd]. rewrite app_nil_r. exact Hpipe.
Qed.


End MoreFacts.


(** ** The properties at concrete collaborators *)

Import TrainerExamples.
Import TrainerMoreExamples.

Lemma default_components_roles_witness :
  named_transformer DefaultLikelihoodTransformer = true /\
  (ConfigNone (World := nat) (obj := nat) = ConfigNone ->
   named_combiner DefaultLikelihoodCombiner = true).
Proof.
  exact (default_components_roles
           likelihood_amortizer ConfigNone DefaultLikelihoodConfigurator
           DefaultLikelihoodCombiner DefaultLikelihoodTransformer eq_refl).
Defined.

Lemma construction_raises_witness :
  let e := CollaboratorError TheGenerativeModel interrupt in
  (exists msg, e = NotImplementedError msg) \/
  (exists pe, e = CollaboratorError TheOptimizer pe) \/
  (exists pe, e = CollaboratorError TheCheckpoint pe) \/
  (((exists msg, e = ConfigurationError msg) \/ escapes_check e) /\
   arg_skip_checks interrupted_args = false /\
   arg_generative_model interrupted_args <> None).
Proof.
  apply (construction_raises tf_env interrupted_args start). reflexivity.
Defined.

Lemma construction_without_check_witness :
  Forall setup_call
         (calls (__init__ tf_env (default_args posterior_amortizer) start)) /\
  length (calls (__init__ tf_env (default_args posterior_amortizer) start)) <= 2.
Proof.
  apply construction_without_check. right. reflexivity.
Defined.

Lemma construction_sets_attributes_witness :
  amortizer checkpointed_trainer = arg_amortizer checkpointed_args /\
  generative_model checkpointed_trainer
  = arg_generative_model checkpointed_args /\
  _manage_configurator (arg_amortizer checkpointed_args)
                       (arg_configurator checkpointed_args)
  = inr (configurator checkpointed_trainer) /\
  clip_method checkpointed_trainer = arg_clip_method checkpointed_args /\
  clip_value checkpointed_trainer = arg_clip_value checkpointed_args /\
  checkpoint_path checkpointed_trainer
  = arg_checkpoint_path checkpointed_args /\
  (manager checkpointed_trainer = None
   <-> arg_checkpoint_path checkpointed_args = None) /\
  (checkpoint checkpointed_trainer = None
   <-> arg_checkpoint_path checkpointed_args = None).
Proof.
  eapply (construction_sets_attributes tf_env checkpointed_args
                                       checkpointed_trainer start).
  reflexivity.
Defined.

Lemma load_pretrained_network_after_construction_witness :
  load_pretrained_network restore_ok checkpointed_trainer start
  = (inr (inr 0), start, [EvCheckpoint "checkpoints"]).
Proof.
  destruct (load_pretrained_network_after_construction
              restore_ok tf_env checkpointed_args checkpointed_trainer start
              _ _ eq_refl) as [_ H].
  destruct (H "checkpoints" eq_refl) as (c & m & [= <-] & [= <-] & Hrun).
  apply Hrun.
Defined.

Lemma no_checkpoint_saved_witness :
  count KSave (calls (train_online tf_env online_trainer 2 3 4 true
                                   no_kwargs start)) = 0 /\
  count KSave (calls (train_rounds tf_env online_trainer 2 2 1 1 true
                                   no_kwargs start)) = 0.
Proof.
  destruct (no_checkpoint_saved tf_env online_trainer true
                                (or_introl eq_refl)) as (Hon & _ & Hrounds).
  split; [apply Hon | apply Hrounds].
Defined.

Lemma train_online_returned_witness :
  let run := train_online tf_env checkpointed_trainer 2 3 4 true some_kwargs
                          start in
  let t := calls run in
  outcome run = inr [(1, [1; 1; 1]); (2, [1; 1; 1])] /\
  count KSimulate t = 6 /\ count KApplyGradients t = 6 /\
  count KDataset t = 0 /\ count KSave t = 2.
Proof.
  intros run t.
  destruct (train_online_returned
              tf_env checkpointed_trainer 2 3 4 true some_kwargs start
              (state_after run) [(1, [1; 1; 1]); (2, [1; 1; 1])] t eq_refl)
    as (_ & _ & Hs & _ & _ & Hg & Hd & _ & Hsave).
  split; [reflexivity|]. repeat split; assumption.
Defined.

Lemma train_offline_returned_witness :
  let run := train_offline tf_env offline_trainer 0 2 1 true no_kwargs
                           with_presimulated in
  let t := calls run in
  outcome run = inr [(1, [1]); (2, [1])] /\
  count KDataset t = 1 /\ count KIterate t = 2 /\ count KSimulate t = 0 /\
  count KApplyGradients t = 2.
Proof.
  intros run t.
  destruct (train_offline_returned
              tf_env offline_trainer 0 2 1 true no_kwargs with_presimulated
              (state_after run) [(1, [1]); (2, [1])] t eq_refl)
    as (_ & _ & Hd & Hi & Hs & _ & _ & Hg & _).
  split; [reflexivity|]. repeat split; assumption.
Defined.

Lemma train_rounds_returned_witness :
  let run := train_rounds tf_env online_trainer 2 2 1 1 true no_kwargs
                          start in
  let t := calls run in
  outcome run = inr [(1, [(1, [1])]); (2, [(1, [1])])] /\
  count KSimulate t = 2 /\ count KDataset t = 2 /\ count KIterate t = 2 /\
  count KApplyGradients t = 2.
Proof.
  intros run t.
  destruct (train_rounds_returned
              tf_env online_trainer 2 2 1 1 true no_kwargs start
              (state_after run) [(1, [(1, [1])]); (2, [(1, [1])])] t eq_refl)
    as (_ & _ & Hs & Hd & Hi & _ & _ & Hg).
  split; [reflexivity|]. repeat split; assumption.
Defined.

Lemma simulation_keys_distinct (w n : nat) : NoDup (keys (simulation w n)).
Proof. simpl. repeat constructor; simpl; intuition discriminate. Qed.

Lemma concatenation_succeeds_iff_witness :
  (exists s', concatenate_keys (keys (simulation 0 2)) 0 1 two_simulations
              = (inr tt, s', []))
  <-> Forall (concatenable (simulation 1 2)) (simulation 0 2).
Proof.
  apply (concatenation_succeeds_iff 0 1 (simulation 0 2) (simulation 1 2)
                                    two_simulations);
    [discriminate | reflexivity | reflexivity | apply simulation_keys_distinct].
Defined.

Lemma concatenation_stops_at_first_failure_witness :
  exists e,
    concatenate_keys (keys (simulation 0 2)) 0 1 incomplete_second
    = (inl e,
       {| world := 2;
          heap := [ [("prior_draws",
                      Array {| item_shape := [2]; items := [0; 0; 9] |});
                     ("sim_data",
                      Array {| item_shape := [3]; items := [100; 100] |});
                     ("sim_context", PyNone)];
                    without_data ] |},
       []) /\
    e = KeyError "sim_data".
Proof.
  destruct (concatenation_stops_at_first_failure
              0 1
              [("prior_draws", Array {| item_shape := [2]; items := [0; 0] |})]
              [("sim_context", PyNone)] without_data
              "sim_data" (Array {| item_shape := [3]; items := [100; 100] |})
              incomplete_second)
    as (e & front' & Hrun & Hfront & Hkey & _).
  - discriminate.
  - reflexivity.
  - reflexivity.
  - apply (simulation_keys_distinct 0 2).
  - repeat constructor. eexists. split; reflexivity.
  - intros (a' & H & _). discriminate.
  - exists e. injection Hfront as <-. split; [exact Hrun|].
    apply Hkey. reflexivity.
Defined.

Lemma concatenation_with_itself_doubles_witness :
  concatenate_keys (keys (simulation 0 2)) 0 0 two_simulations =
  (inr tt,
   {| world := 2;
      heap := [ [("prior_draws",
                  Array {| item_shape := [2]; items := [0; 0; 0; 0] |});
                 ("sim_data",
                  Array {| item_shape := [3]; items := [100; 100; 100; 100] |});
                 ("sim_context", PyNone)];
                simulation 1 2 ] |},
   []).
Proof.
  apply (concatenation_with_itself_doubles 0 (simulation 0 2) two_simulations);
    [reflexivity | apply simulation_keys_distinct|].
  repeat constructor.
Defined.

Lemma failed_simulation_ends_training_witness :
  let run := train_online tf_env (trainer_with (Some tiring_simulator))
                          2 3 4 true no_kwargs start in
  length (calls run) = 9 /\
  outcome run = inl (CollaboratorError TheGenerativeModel crash).
Proof.
  intros run. split; [reflexivity|].
  destruct (failed_simulation_ends_training
              tf_env (trainer_with (Some tiring_simulator)) 4 true no_kwargs
              start (firstn 8 (calls run)) [] 4 [] crash None)
    as [H _].
  apply (H 2 3). reflexivity.
Defined.

Lemma configurator_gets_the_latest_simulation_witness :
  exists t0 n_sim sim_args held,
    firstn 1 (calls (train_online tf_env online_trainer 1 1 4 true
                                  no_kwargs start))
    = t0 ++ [EvSimulate n_sim sim_args (inr 0) held].
Proof.
  destruct (configurator_gets_the_latest_simulation
              tf_env online_trainer start) as [H _].
  apply (H 1 1 4 true no_kwargs _ 0 []
           (skipn 2 (calls (train_online tf_env online_trainer 1 1 4 true
                                         no_kwargs start)))).
  reflexivity.
Defined.


End TrainerMoreFacts.
